(** * The TARDIS configuration reader (tardis/io/configuration/config_reader.py)

    A shallow embedding of [ConfigurationNameSpace] and [Configuration]:
    the recursive, unit-aware namespace, its path accessors, and the section
    validators run by [Configuration.from_config_dict].

    - Python values are a tagged union.  A [dict] is the ordered list of its
      bindings, read at the first binding of a key; a later binding of the
      same key is shadowed and plays no part.
    - Exceptions are the [Raise] side of [result].  A method that mutates
      [self] is a function from the bindings of [self] to the bindings
      afterwards, together with the exception raised, if any.  Values are
      trees: two keys never share one mutable object.
    - A number is a rational, an infinity or not-a-number: Python's ints and
      floats as the comparisons of the module see them.  Converting between
      units, and making a float of a number, is astropy's business.
    - astropy, the schema validator (config_validator.validate_dict) and the
      CSVY reader (load_yaml_from_csvy) are collaborators whose code is not
      part of the module: they are the fields of the record [externals], and
      every definition that calls one of them takes such a record. *)

From Stdlib Require Import String Ascii List ZArith QArith Bool Lia.
From Stdlib Require Import DecimalString DecimalNat DecimalFacts.
Import ListNotations.
Local Open Scope string_scope.
Local Open Scope Z_scope.

(** ** Exceptions and fallible computations *)

(** Why a [ValueError] was raised: one tag per [raise ValueError] of the
    module (the messages interpolate the offending values), one for [int]. *)
Inductive value_error : Type :=
| BothModelAndCsvyModel      (* "Cannot specify both model and csvy_model in main config file." *)
| TimeOfExplosionInvalid
| LuminosityLimitsInvalid
| InitialTInnerInvalid
| InitialTRadInvalid
| SpectrumStartGreaterThanStop
| StopVelocityLessThanStart
| OuterBoundaryLessThanInner
| DensityInvalid
| VelocityInvalid
| TimeInvalid
| DensityValueInvalid
| ConvergenceStrategyNotDampedOrCustom
| InvalidIntLiteral.

Inductive not_implemented : Type :=
| CustomConvergenceStrategy
| IntegratedWithFullRelativity.

Inductive exn : Type :=
| KeyError
| IndexError
| TypeError
| AttributeError
| ValueError (why : value_error)
| NotImplementedError (why : not_implemented)
| UnitConversionError
| ExternalError (tag : string).   (* anything a collaborator raises *)

Inductive result (A : Type) : Type :=
| Ok (a : A)
| Raise (e : exn).
Arguments Ok {A} a.
Arguments Raise {A} e.

Definition bind {A B} (c : result A) (k : A -> result B) : result B :=
  match c with
  | Ok a => k a
  | Raise e => Raise e
  end.

Declare Scope py_scope.
Delimit Scope py_scope with py.
Notation "x <- c ;; k" := (bind c (fun x => k))
  (at level 61, c at next level, right associativity) : py_scope.
Notation "c ;;; k" := (bind c (fun _ => k))
  (at level 61, right associativity) : py_scope.
Local Open Scope py_scope.

Definition of_option {A} (o : option A) (e : exn) : result A :=
  match o with
  | Some a => Ok a
  | None => Raise e
  end.

(** [if c: raise e] *)
Definition raise_if (c : bool) (e : exn) : result unit :=
  if c then Raise e else Ok tt.

(** ** Values *)

(** A unit is known by its name ("km/s", "day", "K"). *)
Definition unit_name := string.

(** A Python int or float: an int is exact and a float is a binary fraction,
    an infinity, or not-a-number. *)
Inductive number : Type :=
| Finite (q : Q)
| PlusInf
| MinusInf
| NaN.

Bind Scope Q_scope with number.
Coercion Finite : Q >-> number.

(** The comparisons of two numbers.  Every comparison with not-a-number is
    false, so [a < b] is not the negation of [b <= a]. *)
Module Num.

Definition le (a b : number) : bool :=
  match a, b with
  | NaN, _ | _, NaN => false
  | MinusInf, _ | _, PlusInf => true
  | Finite p, Finite q => Qle_bool p q
  | PlusInf, _ | _, MinusInf => false
  end.

Definition lt (a b : number) : bool :=
  match a, b with
  | NaN, _ | _, NaN => false
  | PlusInf, _ | _, MinusInf => false
  | Finite p, Finite q => negb (Qle_bool q p)
  | MinusInf, _ | _, PlusInf => true
  end.

Definition eqb (a b : number) : bool :=
  match a, b with
  | Finite p, Finite q => Qeq_bool p q
  | PlusInf, PlusInf | MinusInf, MinusInf => true
  | _, _ => false
  end.

End Num.

#[local] Set Warnings "-register-all".
Inductive value : Type :=
| VNone
| VBool (b : bool)
| VNum (x : number)                               (* int or float *)
| VStr (s : string)
| VQuantity (magnitude : number) (u : unit_name)  (* scalar astropy Quantity *)
| VList (l : list value)
| VDict (d : list (string * value))          (* plain dict *)
| VNS (d : list (string * value)).           (* ConfigurationNameSpace or Configuration *)

Definition bindings := list (string * value).

(** ** Strings: the str methods the path accessors use *)

Module Str.

Fixpoint startswith (prefix s : string) : bool :=
  match prefix, s with
  | EmptyString, _ => true
  | String a p, String b t => Ascii.eqb a b && startswith p t
  | String _ _, EmptyString => false
  end.

Fixpoint drop (n : nat) (s : string) : string :=
  match n, s with
  | O, _ => s
  | S n', String _ t => drop n' t
  | S _, EmptyString => EmptyString
  end.

(** [s.replace(old, "")] for a non-empty [old]: every occurrence is
    dropped, scanning from the left.  [fuel] bounds the scan by the length
    of [s]. *)
Fixpoint remove_all_fuel (fuel : nat) (old s : string) : string :=
  match fuel with
  | O => s
  | S fuel' =>
      match s with
      | EmptyString => EmptyString
      | String c t =>
          if startswith old s
          then remove_all_fuel fuel' old (drop (String.length old) s)
          else String c (remove_all_fuel fuel' old t)
      end
  end.

Definition remove_all (old s : string) : string :=
  remove_all_fuel (String.length s) old s.

(** [s.split(sep)] for a one-character separator: never the empty list. *)
Fixpoint split (sep : ascii) (s : string) : list string :=
  match s with
  | EmptyString => [EmptyString]
  | String c t =>
      if Ascii.eqb c sep then EmptyString :: split sep t
      else match split sep t with
           | [] => [String c EmptyString]
           | w :: ws => String c w :: ws
           end
  end.

(** [sep.join(parts)] *)
Fixpoint join (sep : ascii) (parts : list string) : string :=
  match parts with
  | [] => EmptyString
  | [w] => w
  | w :: ws => w ++ String sep (join sep ws)
  end.

Fixpoint rev_onto (s acc : string) : string :=
  match s with
  | EmptyString => acc
  | String c t => rev_onto t (String c acc)
  end.

Definition rev (s : string) : string := rev_onto s EmptyString.

End Str.

(** ** [int(str)] in base ten *)

Module PyInt.

Definition is_space (c : ascii) : bool :=
  let n := nat_of_ascii c in
  ((9 <=? n) && (n <=? 13) || (n =? 32))%nat.

Definition digit (c : ascii) : option Z :=
  let n := nat_of_ascii c in
  if ((48 <=? n) && (n <=? 57))%nat then Some (Z.of_nat n - 48) else None.

Fixpoint lstrip (s : string) : string :=
  match s with
  | String c t => if is_space c then lstrip t else s
  | EmptyString => EmptyString
  end.

Definition strip (s : string) : string :=
  Str.rev (lstrip (Str.rev (lstrip s))).

(** Digits with single underscores between them; [acc] is the number read
    so far and [after_digit] tells whether the last character was a digit. *)
Fixpoint digits (s : string) (acc : Z) (after_digit : bool) : option Z :=
  match s with
  | EmptyString => if after_digit then Some acc else None
  | String c t =>
      match digit c with
      | Some d => digits t (10 * acc + d) true
      | None =>
          if Ascii.eqb c "_" && after_digit
          then match t with
               | String c' _ =>
                   match digit c' with
                   | Some _ => digits t acc false
                   | None => None
                   end
               | EmptyString => None
               end
          else None
      end
  end.

(** Surrounding white space, an optional sign, then the digits.  Only
    ASCII is read: a digit of another script is not a literal here. *)
Definition int (s : string) : result Z :=
  let body :=
    match strip s with
    | String "-" t => option_map Z.opp (digits t 0 false)
    | String "+" t => digits t 0 false
    | t => digits t 0 false
    end in
  of_option body (ValueError InvalidIntLiteral).

End PyInt.

(** ** The plain dict *)

Module Dict.

(** [d[key]], [key in d], [d.get(key)] *)
Fixpoint lookup (key : string) (d : bindings) : option value :=
  match d with
  | [] => None
  | (k, v) :: d' => if String.eqb key k then Some v else lookup key d'
  end.

Definition mem (key : string) (d : bindings) : bool :=
  match lookup key d with
  | Some _ => true
  | None => false
  end.

(** [dict.__setitem__(d, key, v)]: a bound key keeps its place, a new key
    goes last. *)
Fixpoint set (key : string) (v : value) (d : bindings) : bindings :=
  match d with
  | [] => [(key, v)]
  | (k, x) :: d' =>
      if String.eqb key k then (k, v) :: d' else (k, x) :: set key v d'
  end.

Definition keys (d : bindings) : list string := map fst d.

End Dict.

(** ** Sequences: [l[i]] and [l[i] = v] with Python's negative indices *)

Module Seq.

Definition position {A} (l : list A) (i : Z) : option nat :=
  let n := Z.of_nat (length l) in
  if (0 <=? i) && (i <? n) then Some (Z.to_nat i)
  else if (i <? 0) && (0 <=? n + i) then Some (Z.to_nat (n + i))
  else None.

Fixpoint update {A} (l : list A) (n : nat) (x : A) : list A :=
  match l, n with
  | [], _ => []
  | _ :: t, O => x :: t
  | h :: t, S n' => h :: update t n' x
  end.

Definition getitem {A} (l : list A) (i : Z) : result A :=
  p <- of_option (position l i) IndexError ;;
  of_option (nth_error l p) IndexError.

Definition setitem {A} (l : list A) (i : Z) (x : A) : result (list A) :=
  p <- of_option (position l i) IndexError ;;
  Ok (update l p x).

End Seq.

(** ** Generic operations on values *)

(** [x == "literal"] *)
Definition eq_str (x : value) (s : string) : bool :=
  match x with
  | VStr t => String.eqb t s
  | _ => false
  end.

(** [x[key]] for a string key.  A list or a string wants an integer. *)
Definition subscript (x : value) (key : string) : result value :=
  match x with
  | VDict d | VNS d => of_option (Dict.lookup key d) KeyError
  | _ => Raise TypeError
  end.

(** [x[i]] for an integer [i].  The keys of a mapping are strings here, so
    an integer is never one of them. *)
Definition index (x : value) (i : Z) : result value :=
  match x with
  | VList l => Seq.getitem l i
  | VStr s => c <- Seq.getitem (list_ascii_of_string s) i ;; Ok (VStr (String c EmptyString))
  | VDict _ | VNS _ => Raise KeyError
  | _ => Raise TypeError
  end.

(** [x.keys()] *)
Definition keys_of (x : value) : result (list string) :=
  match x with
  | VDict d | VNS d => Ok (Dict.keys d)
  | _ => Raise AttributeError
  end.

Definition in_keys (key : string) (ks : list string) : bool :=
  existsb (String.eqb key) ks.

(** [x.get(key, None)] *)
Definition get_or_none (x : value) (key : string) : result value :=
  match x with
  | VDict d | VNS d =>
      Ok (match Dict.lookup key d with Some v => v | None => VNone end)
  | _ => Raise AttributeError
  end.

Definition is_none (x : value) : bool :=
  match x with
  | VNone => true
  | _ => false
  end.

(** [key in x].  The module asks this of a mapping only; a string or a list
    would answer and then fail with [TypeError] at the string subscript that
    follows in every use, so they fail here. *)
Definition contains (x : value) (key : string) : result bool :=
  match x with
  | VDict d | VNS d => Ok (Dict.mem key d)
  | _ => Raise TypeError
  end.

(** [x.value]: the magnitude of a quantity; a namespace answers an
    attribute it does not have with the value bound to that key
    ([__getattr__]). *)
Definition attr_value (x : value) : result value :=
  match x with
  | VQuantity m _ => Ok (VNum m)
  | VNS d => of_option (Dict.lookup "value" d) AttributeError
  | _ => Raise AttributeError
  end.

(** A number as Python's comparison operators see it: an int, a float, or
    a bool, which is the int 0 or 1. *)
Definition as_number (x : value) : option number :=
  match x with
  | VNum q => Some q
  | VBool b => Some (Finite (if b then 1%Q else 0%Q))
  | _ => None
  end.

(** Whether Python's answer to [x <= y] or [x < y] is left to astropy or to
    the comparison of lists: one of the two is a quantity, or both are
    lists (which are compared element by element). *)
Definition compared_elsewhere (x y : value) : bool :=
  match x, y with
  | VQuantity _ _, _ | _, VQuantity _ _ => true
  | VList _, VList _ => true
  | _, _ => false
  end.

(** ** The collaborators *)

Record externals : Type := {
  (** astropy: the magnitude of a quantity in another unit; [None] when the
      two units have different physical dimensions (UnitConversionError). *)
  to_unit : unit_name -> unit_name -> number -> option number;
  (** astropy: the magnitude [u.Quantity(x, unit)] makes of a value that is
      not a quantity: the float64 of a number or a bool, what it reads in a
      string such as "5 km". *)
  quantity_of : value -> unit_name -> result number;
  (** astropy: the unit that an object passed as a unit stands for. *)
  unit_of : value -> result unit_name;
  (** astropy: the truth value of a quantity. *)
  quantity_truth : number -> unit_name -> result bool;
  (** [x <= y], or [x < y] when [strict], where [compared_elsewhere x y]:
      astropy compares a quantity with regard to the units, and two lists
      are compared at their first differing elements. *)
  rich_compare : bool -> value -> value -> result bool;
  (** config_validator.validate_dict, the schema validator. *)
  validate_dict : value -> result value;
  (** Lines 89 to 99 of [ConfigurationNameSpace.__init__]: the bindings of the
      [model] namespace built from the boundary velocities that
      [load_yaml_from_csvy] reads at [Path(config_dirname) / csvy_model]. *)
  csvy_model_section : string -> string -> result bindings
}.

(** [x <= y] ([strict] is false) and [x < y] ([strict] is true).  Two
    numbers are compared as numbers and two strings in dictionary order;
    [None], a mapping, or a number against a string or a list are not
    ordered. *)
Definition compare (E : externals) (strict : bool) (x y : value) : result bool :=
  match as_number x, as_number y with
  | Some a, Some b => Ok (if strict then Num.lt a b else Num.le a b)
  | _, _ =>
      match x, y with
      | VStr s, VStr t => Ok (if strict then String.ltb s t else String.leb s t)
      | _, _ =>
          if compared_elsewhere x y then rich_compare E strict x y
          else Raise TypeError
      end
  end.

(** [x <= y], [x < y], [x > y] *)
Definition le (E : externals) (x y : value) : result bool := compare E false x y.
Definition lt (E : externals) (x y : value) : result bool := compare E true x y.
Definition gt (E : externals) (x y : value) : result bool := lt E y x.

(** The state of [self] after a method call and the exception it raised. *)
Record effect : Type := { after : bindings; raised : option exn }.

Section Namespace.

Variable E : externals.

(** [u.Quantity(x, unit)] *)
Definition Quantity (x : value) (u : unit_name) : result value :=
  match x with
  | VQuantity m u' =>
      m' <- of_option (to_unit E u' u m) UnitConversionError ;;
      Ok (VQuantity m' u)
  | _ => m <- quantity_of E x u ;; Ok (VQuantity m u)
  end.

(** [hasattr(x, "unit")] and, when it holds, the unit [x.unit] stands for.
    A quantity has the attribute; a namespace answers for a key "unit". *)
Definition attr_unit (x : value) : option (result unit_name) :=
  match x with
  | VQuantity _ u => Some (Ok u)
  | VNS d => option_map (unit_of E) (Dict.lookup "unit" d)
  | _ => None
  end.

(** Lines 107-108 of [__setitem__]. *)
Definition coerce (self : bindings) (key : string) (x : value) : result value :=
  match Dict.lookup key self with
  | Some old =>
      match attr_unit old with
      | Some unit => u <- unit ;; Quantity x u
      | None => Ok x
      end
  | None => Ok x
  end.

(** Lines 84-99 of [__init__], run on the bindings stored so far. *)
Definition init_tail (self : bindings) : result bindings :=
  if Dict.mem "csvy_model" self && Dict.mem "model" self
  then Raise (ValueError BothModelAndCsvyModel)
  else if Dict.mem "csvy_model" self
  then
    dirname <- of_option (Dict.lookup "config_dirname" self) AttributeError ;;
    file <- of_option (Dict.lookup "csvy_model" self) AttributeError ;;
    match dirname, file with
    | VStr dir, VStr name =>
        model <- csvy_model_section E dir name ;;
        Ok (Dict.set "model" (VNS model) self)
    | _, _ => Raise TypeError
    end
  else Ok self.

(** Lines 102-105 of [__setitem__]: a plain dict is replaced by the
    namespace [ConfigurationNameSpace(value)] builds from it, which stores
    each binding through [__setitem__] in turn.  The loop [for key in
    value] meets each key once: a binding of the list whose key the loop
    has stored already is shadowed, not part of the dict, and is passed
    over. *)
Fixpoint wrap (x : value) : result value :=
  match x with
  | VDict d =>
      self <- (fix fill (items self : bindings) {struct items} : result bindings :=
                 match items with
                 | [] => Ok self
                 | (k, v) :: rest =>
                     if Dict.mem k self then fill rest self
                     else
                       v1 <- wrap v ;;
                       v2 <- coerce self k v1 ;;
                       fill rest (Dict.set k v2 self)
                 end) d [] ;;
      self' <- init_tail self ;;
      Ok (VNS self')
  | _ => Ok x
  end.

(** The value [__setitem__] stores for [self[key] = x]. *)
Definition stored (self : bindings) (key : string) (x : value) : result value :=
  v <- wrap x ;; coerce self key v.

(** [ConfigurationNameSpace.__setitem__] *)
Definition setitem (self : bindings) (key : string) (x : value) : effect :=
  match stored self key x with
  | Ok v => {| after := Dict.set key v self; raised := None |}
  | Raise e => {| after := self; raised := Some e |}
  end.

(** [for key in value: self.__setitem__(key, value[key])] on the fresh
    [self] of [__init__] (shadowed bindings are passed over, see [wrap]). *)
Fixpoint fill (items self : bindings) : result bindings :=
  match items with
  | [] => Ok self
  | (k, v) :: rest =>
      if Dict.mem k self then fill rest self
      else
        match setitem self k v with
        | {| after := self'; raised := None |} => fill rest self'
        | {| raised := Some e |} => Raise e
        end
  end.

(** [ConfigurationNameSpace(value)], that is [__init__] on a fresh object;
    [Configuration.__init__] only calls it. *)
Definition ConfigurationNameSpace (x : value) : result bindings :=
  match x with
  | VNone => init_tail []
  | VDict d | VNS d => self <- fill d [] ;; init_tail self
  | _ => Raise TypeError
  end.

(** [ConfigurationNameSpace.__getitem__] *)
Definition getitem (self : bindings) (key : string) : result value :=
  of_option (Dict.lookup key self) KeyError.

(** [x[key] = v] for a string key: [__setitem__] of the namespace, the
    built-in of a plain dict. *)
Definition store_subscript (x : value) (key : string) (v : value) : result value :=
  match x with
  | VDict d => Ok (VDict (Dict.set key v d))
  | VNS d =>
      match setitem d key v with
      | {| after := d'; raised := None |} => Ok (VNS d')
      | {| raised := Some e |} => Raise e
      end
  | _ => Raise TypeError
  end.

(** [x[i] = v] for an integer [i]; in [set_config_item] it follows a read
    of [x[i]] that succeeded, so [x] is a list or a string when it is
    reached, and a string refuses the assignment. *)
Definition store_index (x : value) (i : Z) (v : value) : result value :=
  match x with
  | VList l => l' <- Seq.setitem l i v ;; Ok (VList l')
  | _ => Raise TypeError
  end.

(** [int(segment.replace("item", ""))] *)
Definition item_index (segment : string) : result Z :=
  PyInt.int (Str.remove_all "item" segment).

(** [len(config_item_path) == 2 and config_item_path[1].startswith("item")] *)
Definition is_item_path (path : list string) : bool :=
  match path with
  | [_; second] => Str.startswith "item" second
  | _ => false
  end.

(** [get_config_item] on the path already split.  The source splits the
    string, and in its last branch joins the tail with "." and calls
    itself on the child, which splits again: [split_join] below shows that
    the child sees the tail of the segments. *)
Fixpoint get_config_item_path (self : bindings) (path : list string) : result value :=
  match path with
  | [] => Raise IndexError                      (* config_item_path[0] *)
  | [config_item] => getitem self config_item   (* both arms of the inner if *)
  | head :: ((second :: _) as rest) =>
      if is_item_path path
      then
        x <- getitem self head ;;
        i <- item_index second ;;
        index x i
      else
        x <- getitem self head ;;
        match x with
        | VNS child => get_config_item_path child rest
        | _ => Raise AttributeError              (* no get_config_item *)
        end
  end.

Definition get_config_item (self : bindings) (config_item_string : string) : result value :=
  get_config_item_path self (Str.split "." config_item_string).

Definition raising (self : bindings) (e : exn) : effect :=
  {| after := self; raised := Some e |}.

(** [set_config_item] on the path already split.  The list at
    [self[head]] and the child namespace are mutated in place: [self] then
    holds the mutated object under the same key.  In a tree no other key
    holds that object; where the program has put one list or namespace
    under two keys, the write is seen under both, and that is outside this
    embedding. *)
Fixpoint set_config_item_path (self : bindings) (path : list string) (v : value) : effect :=
  match path with
  | [] => raising self IndexError
  | [config_item] => setitem self config_item v
  | head :: ((second :: _) as rest) =>
      if is_item_path path
      then
        match
          x <- getitem self head ;;
          i <- item_index second ;;
          current_value <- index x i ;;
          new <- match attr_unit current_value with
                 | Some unit => u <- unit ;; Quantity v u
                 | None => Ok v
                 end ;;
          store_index x i new
        with
        | Ok x' => {| after := Dict.set head x' self; raised := None |}
        | Raise e => raising self e
        end
      else
        match getitem self head with
        | Ok (VNS child) =>
            let r := set_config_item_path child rest v in
            {| after := Dict.set head (VNS (after r)) self; raised := raised r |}
        | Ok _ => raising self AttributeError    (* no set_config_item *)
        | Raise e => raising self e
        end
  end.

Definition set_config_item (self : bindings) (config_item_string : string) (v : value) : effect :=
  set_config_item_path self (Str.split "." config_item_string) v.

End Namespace.

(** ** Configuration: the section validators and the facade *)

(** [x[k1][k2]...] *)
Fixpoint subscripts (x : value) (path : list string) : result value :=
  match path with
  | [] => Ok x
  | k :: rest => y <- subscript x k ;; subscripts y rest
  end.

(** [for a in l: s = body(s, a)] *)
Fixpoint for_each {A S : Type} (l : list A) (body : S -> A -> result S) (s : S) : result S :=
  match l with
  | [] => Ok s
  | a :: rest => s' <- body s a ;; for_each rest body s'
  end.

(** The object bound under [key] of [x] was mutated in place into [v]: [x]
    holds the mutated object, no [__setitem__] runs. *)
Definition mutated_in_place (x : value) (key : string) (v : value) : value :=
  match x with
  | VDict d => VDict (Dict.set key v d)
  | VNS d => VNS (Dict.set key v d)
  | _ => x
  end.

Definition convergence_parameters : list string := ["damping_constant"; "threshold"; "type"].
Definition convergence_variables : list string := ["t_inner"; "t_rad"; "w"; "v_inner_boundary"].

Section Configuration.

Variable E : externals.

(** The truth value [if x] and [x and ...] take of [x]. *)
Definition truth (x : value) : result bool :=
  match x with
  | VNone => Ok false
  | VBool b => Ok b
  | VNum q => Ok (negb (Num.eqb q 0))
  | VStr s => Ok (negb (String.eqb s ""))
  | VQuantity m u => quantity_truth E m u
  | VList l => Ok (negb (Nat.eqb (length l) 0))
  | VDict d | VNS d => Ok (negb (Nat.eqb (length d) 0))
  end.

(** [Configuration.validate_spectrum_section] *)
Definition validate_spectrum_section (spectrum_section enable_full_relativity : value)
  : result unit :=
  start <- subscript spectrum_section "start" ;;
  stop <- subscript spectrum_section "stop" ;;
  a <- attr_value start ;;
  b <- attr_value stop ;;
  c <- gt E a b ;;
  raise_if c (ValueError SpectrumStartGreaterThanStop) ;;;
  method <- subscript spectrum_section "method" ;;
  let spectrum_integrated := eq_str method "integrated" in
  relativity <- truth enable_full_relativity ;;
  raise_if (relativity && spectrum_integrated)
           (NotImplementedError IntegratedWithFullRelativity).

(** [if x.value <= 0: raise ValueError(...)] *)
Definition require_positive (x : value) (why : value_error) : result unit :=
  a <- attr_value x ;;
  c <- le E a (VNum 0) ;;
  raise_if c (ValueError why).

(** [if "time_0" in density.keys(): ...], the tail of each density arm. *)
Definition check_time_0 (model_section : value) : result unit :=
  density <- subscripts model_section ["structure"; "density"] ;;
  ks <- keys_of density ;;
  if in_keys "time_0" ks
  then
    time_0 <- subscripts model_section ["structure"; "density"; "time_0"] ;;
    require_positive time_0 TimeInvalid
  else Ok tt.

(** The arm of "exponential", repeated word for word for "power_law". *)
Definition check_rho_0_v_0 (model_section : value) : result unit :=
  rho_0 <- subscripts model_section ["structure"; "density"; "rho_0"] ;;
  v_0 <- subscripts model_section ["structure"; "density"; "v_0"] ;;
  require_positive rho_0 DensityInvalid ;;;
  require_positive v_0 VelocityInvalid ;;;
  check_time_0 model_section.

(** Lines 348-365: the dispatch on [structure.type]. *)
Definition validate_structure_type (model_section : value) : result unit :=
  t <- subscripts model_section ["structure"; "type"] ;;
  if eq_str t "specific"
  then
    start_velocity <- subscripts model_section ["structure"; "velocity"; "start"] ;;
    stop_velocity <- subscripts model_section ["structure"; "velocity"; "stop"] ;;
    b <- attr_value stop_velocity ;;
    a <- attr_value start_velocity ;;
    c <- lt E b a ;;
    raise_if c (ValueError StopVelocityLessThanStart)
  else
    t' <- subscripts model_section ["structure"; "type"] ;;
    if eq_str t' "file"
    then
      v_inner_boundary <- subscripts model_section ["structure"; "v_inner_boundary"] ;;
      v_outer_boundary <- subscripts model_section ["structure"; "v_outer_boundary"] ;;
      b <- attr_value v_outer_boundary ;;
      a <- attr_value v_inner_boundary ;;
      c <- lt E b a ;;
      raise_if c (ValueError OuterBoundaryLessThanInner)
    else Ok tt.

(** Lines 366-398: the dispatch on [structure.density.type]. *)
Definition validate_density (model_section : value) : result unit :=
  structure <- subscript model_section "structure" ;;
  ks <- keys_of structure ;;
  if in_keys "density" ks
  then
    t <- subscripts model_section ["structure"; "density"; "type"] ;;
    if eq_str t "exponential" then check_rho_0_v_0 model_section
    else
      t' <- subscripts model_section ["structure"; "density"; "type"] ;;
      if eq_str t' "power_law" then check_rho_0_v_0 model_section
      else
        t'' <- subscripts model_section ["structure"; "density"; "type"] ;;
        if eq_str t'' "uniform"
        then
          density <- subscripts model_section ["structure"; "density"; "value"] ;;
          require_positive density DensityValueInvalid ;;;
          check_time_0 model_section
        else Ok tt
  else Ok tt.

(** [Configuration.validate_model_section] *)
Definition validate_model_section (model_section : value) : result unit :=
  validate_structure_type model_section ;;;
  validate_density model_section.

(** The body of the inner loop of [parse_convergence_section] for one
    variable and one parameter; the section dict is threaded through. *)
Definition inherit_parameter (variable : string) (section : value) (param : string)
  : result value :=
  convergence_variable_section <- subscript section variable ;;
  current <- get_or_none convergence_variable_section param ;;
  if is_none current
  then
    defined <- contains section param ;;
    if defined
    then
      default <- subscript section param ;;
      target <- subscript section variable ;;
      target' <- store_subscript E target param default ;;
      Ok (mutated_in_place section variable target')
    else Ok section
  else Ok section.

(** The body of the outer loop. *)
Definition normalize_variable (section : value) (variable : string) : result value :=
  present <- contains section variable ;;
  section1 <- (if negb present
               then store_subscript E section variable (VDict [])
               else Ok section) ;;
  for_each convergence_parameters (inherit_parameter variable) section1.

(** [Configuration.parse_convergence_section] *)
Definition parse_convergence_section (convergence_section_dict : value) : result value :=
  for_each convergence_variables normalize_variable convergence_section_dict.

(** [Configuration.validate_montecarlo_section]; the result is the section
    as the call leaves it.  [parse_convergence_section] has already changed
    the strategy in place when the assignment stores what it returned. *)
Definition validate_montecarlo_section (montecarlo_section : value) : result value :=
  t <- subscripts montecarlo_section ["convergence_strategy"; "type"] ;;
  if eq_str t "damped"
  then
    strategy <- subscript montecarlo_section "convergence_strategy" ;;
    strategy' <- parse_convergence_section strategy ;;
    store_subscript E
      (mutated_in_place montecarlo_section "convergence_strategy" strategy')
      "convergence_strategy" strategy'
  else
    t' <- subscripts montecarlo_section ["convergence_strategy"; "type"] ;;
    if eq_str t' "custom"
    then Raise (NotImplementedError CustomConvergenceStrategy)
    else Raise (ValueError ConvergenceStrategyNotDampedOrCustom).

(** Lines 263-299: the supernova and plasma rules. *)
Definition validate_supernova_plasma (validated_config_dict : value) : result unit :=
  supernova_section <- subscript validated_config_dict "supernova" ;;
  time_explosion <- subscript supernova_section "time_explosion" ;;
  luminosity_wavelength_start <- subscript supernova_section "luminosity_wavelength_start" ;;
  luminosity_wavelength_end <- subscript supernova_section "luminosity_wavelength_end" ;;
  require_positive time_explosion TimeOfExplosionInvalid ;;;
  a <- attr_value luminosity_wavelength_start ;;
  b <- attr_value luminosity_wavelength_end ;;
  c <- gt E a b ;;
  raise_if c (ValueError LuminosityLimitsInvalid) ;;;
  plasma_section <- subscript validated_config_dict "plasma" ;;
  initial_t_inner <- subscript plasma_section "initial_t_inner" ;;
  initial_t_rad <- subscript plasma_section "initial_t_rad" ;;
  ti <- attr_value initial_t_inner ;;
  c1 <- lt E ti (VNum (-1)) ;;
  raise_if c1 (ValueError InitialTInnerInvalid) ;;;
  tr <- attr_value initial_t_rad ;;
  c2 <- lt E tr (VNum (-1)) ;;
  raise_if c2 (ValueError InitialTRadInvalid).

(** [Configuration.from_config_dict(config_dict, validate, config_dirname)];
    the result is the bindings of the [Configuration] returned. *)
Definition from_config_dict (config_dict : value) (validate : bool) (config_dirname : string)
  : result bindings :=
  validated0 <- (if validate then validate_dict E config_dict else Ok config_dict) ;;
  validated1 <- store_subscript E validated0 "config_dirname" (VStr config_dirname) ;;
  montecarlo_section0 <- subscript validated1 "montecarlo" ;;
  montecarlo_section <- validate_montecarlo_section montecarlo_section0 ;;
  let validated_config_dict := mutated_in_place validated1 "montecarlo" montecarlo_section in
  ks <- keys_of validated_config_dict ;;
  (if in_keys "csvy_model" ks then Ok tt
   else
     ks' <- keys_of validated_config_dict ;;
     if in_keys "model" ks'
     then
       model_section <- subscript validated_config_dict "model" ;;
       validate_model_section model_section ;;;
       validate_supernova_plasma validated_config_dict
     else Ok tt) ;;;
  spectrum_section <- subscript validated_config_dict "spectrum" ;;
  relativity <- subscript montecarlo_section "enable_full_relativity" ;;
  validate_spectrum_section spectrum_section relativity ;;;
  ConfigurationNameSpace E validated_config_dict.

End Configuration.

(** ** Collaborators for the concrete runs

    Metres and kilometres convert, any other two units do not; a number
    is the magnitude of the quantity made of it, and nothing else makes a
    quantity; no quantity and no list is put in order; the schema validator
    finds nothing to change in a document and hands it back; one CSVY file
    exists. *)
Definition scaled (f : Q -> Q) (m : number) : number :=
  match m with
  | Finite q => Finite (f q)
  | _ => m
  end.

Definition lab : externals := {|
  to_unit := fun a b m =>
    if String.eqb a b then Some m
    else if String.eqb a "km" && String.eqb b "m" then Some (scaled (fun q => q * 1000)%Q m)
    else if String.eqb a "m" && String.eqb b "km" then Some (scaled (fun q => q / 1000)%Q m)
    else None;
  quantity_of := fun x _ => match x with VNum m => Ok m | _ => Raise TypeError end;
  unit_of := fun x => match x with VStr s => Ok s | _ => Raise TypeError end;
  quantity_truth := fun m _ => Ok (negb (Num.eqb m 0));
  rich_compare := fun _ _ _ => Raise TypeError;
  validate_dict := fun x => Ok x;
  csvy_model_section := fun _ name =>
    if String.eqb name "model.csvy"
    then Ok [("v_inner_boundary", VQuantity 9000 "km/s")]
    else Raise (ExternalError "FileNotFoundError")
|}.

(** ** Notions the properties are stated with *)

(** What is known of a number for which the test [t <= 0] is false, and of
    two numbers for which the test [a > b] is false: every comparison with
    not-a-number is false. *)
Definition positive_or_nan (t : number) : Prop := t = NaN \/ Num.lt 0 t = true.
Definition ordered_or_nan (a b : number) : Prop :=
  a = NaN \/ b = NaN \/ Num.le a b = true.

(** The numeral of a natural number, as [str(n)] writes it. *)
Definition decimal (n : nat) : string := NilEmpty.string_of_uint (Nat.to_uint n).

Fixpoint digits_only (s : string) : bool :=
  match s with
  | EmptyString => true
  | String c t =>
      match PyInt.digit c with
      | Some _ => digits_only t
      | None => false
      end
  end.

Fixpoint dot_free (s : string) : bool :=
  match s with
  | EmptyString => true
  | String c t => negb (Ascii.eqb c ".") && dot_free t
  end.

(** The sub-mapping of a convergence variable before normalization: the one
    bound, or the empty one the loop creates. *)
Definition sub_mapping (section : bindings) (variable : string) : bindings :=
  match Dict.lookup variable section with
  | Some (VDict m) | Some (VNS m) => m
  | _ => []
  end.

(** [m.get(param, None) is None]: [param] is not bound, or bound to [None]. *)
Definition lacks (m : bindings) (param : string) : bool :=
  match Dict.lookup param m with
  | Some v => is_none v
  | None => true
  end.

(** One parameter inherited by a sub-mapping [m] from the section [parent]. *)
Definition inherited (parent m : bindings) (param : string) : bindings :=
  if lacks m param
  then match Dict.lookup param parent with
       | Some v => Dict.set param v m
       | None => m
       end
  else m.

Definition normalized_sub (parent : bindings) (variable : string) : bindings :=
  fold_left (inherited parent) convergence_parameters (sub_mapping parent variable).

(** No plain dict in [x], reached through plain dicts, binds "csvy_model". *)
Fixpoint csvy_free (x : value) : bool :=
  match x with
  | VDict d =>
      negb (Dict.mem "csvy_model" d) && forallb (fun kv => csvy_free (snd kv)) d
  | _ => true
  end.

(** A value as a namespace holds it: not a plain dict, and a namespace only
    of such values.  Lists are not looked into. *)
Fixpoint converted (x : value) : bool :=
  match x with
  | VDict _ => false
  | VNS d => forallb (fun kv => converted (snd kv)) d
  | _ => true
  end.

(** A value that can come in from outside: plain dicts of such values, and
    namespaces that hold what namespaces hold. *)
Fixpoint incoming (x : value) : bool :=
  match x with
  | VDict d => forallb (fun kv => incoming (snd kv)) d
  | VNS d => forallb (fun kv => converted (snd kv)) d
  | _ => true
  end.

Definition all_converted (self : bindings) : bool :=
  forallb (fun kv => converted (snd kv)) self.

(** The path reads an element of a sequence at its end. *)
Fixpoint ends_in_item (path : list string) : bool :=
  match path with
  | [] => false
  | _ :: rest => is_item_path path || ends_in_item rest
  end.

(** Plain data: what the YAML reader and the schema validator hand over,
    with no namespace in it. *)
Fixpoint plain (x : value) : bool :=
  match x with
  | VNS _ => false
  | VDict d => forallb (fun kv => plain (snd kv)) d
  | VList l => forallb plain l
  | _ => true
  end.


(** ** Concrete documents *)

Definition velocity_tree : bindings :=
  [("model", VNS [("structure", VNS [("velocity", VNS [("start", VQuantity 1 "km")])])]);
   ("shells", VList [VQuantity 3 "m"; VQuantity 4 "m"])].

Definition abundances_tree : bindings :=
  [("model",
    VNS [("abundances", VList [VNum 0.19; VNum 0.03; VNum 0.52]);
         ("shells", VList [VNS [("O", VNum 0.19)]])])].

(** A model section with a density type outside the three that are
    checked, and a density the three would refuse. *)
Definition w7_model_section : value :=
  VDict [("structure",
          VDict [("type", VStr "specific");
                 ("velocity", VDict [("start", VQuantity 1000 "km/s");
                                     ("stop", VQuantity 2000 "km/s")]);
                 ("density", VDict [("type", VStr "branch85_w7");
                                    ("rho_0", VQuantity (-1) "g/cm^3")])])].

(** The spec's example: a shared threshold and one override. *)
Definition damped_section : bindings :=
  [("type", VStr "damped"); ("threshold", VNum 0.05);
   ("t_inner", VDict [("threshold", VNum 0.01)])].

(** The same section as a namespace holds it. *)
Definition damped_namespace : bindings :=
  [("type", VStr "damped"); ("threshold", VNum 0.05);
   ("t_inner", VNS [("threshold", VNum 0.01)])].

(** A damped section whose [t_inner] is a number. *)
Definition numeric_t_inner : bindings :=
  [("type", VStr "damped"); ("t_inner", VNum 5)].

(** A document held by namespaces throughout. *)
Definition namespace_document : value :=
  VNS [("montecarlo", VNS [("convergence_strategy", VNS damped_namespace);
                           ("enable_full_relativity", VBool false)]);
       ("spectrum", VNS [("start", VQuantity 500 "angstrom");
                         ("stop", VQuantity 20000 "angstrom");
                         ("method", VStr "virtual")])].

(** The same, with a strategy that binds a key "unit". *)
Definition unit_strategy_document : value :=
  VNS [("montecarlo", VNS [("convergence_strategy",
                            VNS [("type", VStr "damped"); ("unit", VStr "K")]);
                           ("enable_full_relativity", VBool false)]);
       ("spectrum", VNS [("start", VQuantity 500 "angstrom");
                         ("stop", VQuantity 20000 "angstrom");
                         ("method", VStr "virtual")])].

Definition nested_document : value :=
  VDict [("config_dirname", VStr "runs");
         ("csvy_model", VStr "model.csvy");
         ("plasma", VDict [("nlte", VDict [("species", VList [VStr "He"])])])].

Definition both_sources : bindings :=
  [("model", VDict [("structure", VDict [("type", VStr "file")])]);
   ("csvy_model", VStr "model.csvy");
   ("config_dirname", VStr "runs")].

(** A document for the facade: a strategy, a spectrum, no model. *)
Definition document (strategy : value) (start : number) (method : string) (relativity : bool) : value :=
  VDict [("montecarlo", VDict [("convergence_strategy", strategy);
                               ("enable_full_relativity", VBool relativity)]);
         ("spectrum", VDict [("start", VQuantity start "angstrom");
                             ("stop", VQuantity 20000 "angstrom");
                             ("method", VStr method)])].

(** ** Further operations of the module *)

(** [ConfigurationNameSpace.deepcopy]:
    [ConfigurationNameSpace(copy.deepcopy(dict(self)))].  [dict(self)] is a
    plain dict with the bindings of [self]; [copy_deepcopy] stands for
    [copy.deepcopy] of the standard library, whose contract (a tree equal
    to its argument) the properties below state where they need it. *)
Definition deepcopy (E : externals) (copy_deepcopy : value -> result value)
    (self : bindings) : result bindings :=
  x <- copy_deepcopy (VDict self) ;;
  ConfigurationNameSpace E x.

(** [ConfigurationNameSpace.from_config_dict]:
    [cls(config_validator.validate_dict(config_dict))]. *)
Definition namespace_from_config_dict (E : externals) (config_dict : value) : result bindings :=
  validated <- validate_dict E config_dict ;;
  ConfigurationNameSpace E validated.

(** What [yaml_load_file] does with a file name: it hands over the
    document, or raises [OSError] (no such file), or something else (the
    text is not YAML). *)
Inductive loaded : Type :=
| Loaded (yaml_dict : value)
| LoadOSError
| LoadRaised (e : exn).

(** What the two [from_yaml] can raise besides the exceptions of the
    constructors: [OSError], and [ConfigurationError], a subclass of
    [ValueError] of the module's own. *)
Inductive yaml_outcome : Type :=
| Built (cfg : bindings)
| Raised (e : exn)
| RaisedOSError
| RaisedConfigurationError.

Definition built (r : result bindings) : yaml_outcome :=
  match r with
  | Ok cfg => Built cfg
  | Raise e => Raised e
  end.

Section FromYaml.

Variable E : externals.

(** [yaml_load_file] of tardis.io.util. *)
Variable yaml_load_file : string -> loaded.

(** [str(Path(fname).parent)] *)
Variable parent : string -> string.

(** [ConfigurationNameSpace.from_yaml(fname)]: [OSError] is logged and
    raised again. *)
Definition namespace_from_yaml (fname : string) : yaml_outcome :=
  match yaml_load_file fname with
  | LoadOSError => RaisedOSError
  | LoadRaised e => Raised e
  | Loaded yaml_dict => built (namespace_from_config_dict E yaml_dict)
  end.

(** [Configuration.from_yaml(fname, validate=...)]; [config_dirname] is
    overwritten in [kwargs] whatever the caller passed. *)
Definition from_yaml (fname : string) (validate : bool) : yaml_outcome :=
  match yaml_load_file fname with
  | LoadOSError => RaisedOSError
  | LoadRaised e => Raised e
  | Loaded yaml_dict =>
      match get_or_none yaml_dict "tardis_config_version" with
      | Raise e => Raised e
      | Ok tardis_config_version =>
          if negb (eq_str tardis_config_version "v1.0")
          then RaisedConfigurationError
          else built (from_config_dict E yaml_dict validate (parent fname))
      end
  end.

End FromYaml.

(** ** Further notions the properties are stated with *)

(** Two paths part ways at some key: their heads differ, or they share the
    head, both go on through the child namespace, and the rests part ways. *)
Fixpoint diverge (p q : list string) : bool :=
  match p, q with
  | h :: p', h' :: q' =>
      if String.eqb h h'
      then negb (is_item_path p) && negb (is_item_path q) && diverge p' q'
      else true
  | _, _ => false
  end.

(** The namespace reached from [self] by a sequence of keys, each bound to
    a namespace. *)
Fixpoint descend (self : bindings) (keys : list string) : option bindings :=
  match keys with
  | [] => Some self
  | k :: rest =>
      match Dict.lookup k self with
      | Some (VNS child) => descend child rest
      | _ => None
      end
  end.

(** [isinstance(x, dict) and not isinstance(x, ConfigurationNameSpace)] *)
Definition is_dict (x : value) : bool :=
  match x with
  | VDict _ => true
  | _ => false
  end.

(** [isinstance(x, dict)] *)
Definition is_mapping (x : value) : bool :=
  match x with
  | VDict _ | VNS _ => true
  | _ => false
  end.

(** A mapping of one of the two kinds: a namespace, or a plain dict. *)
Definition mapping (ns : bool) (d : bindings) : value :=
  if ns then VNS d else VDict d.

Definition is_namespace (x : value) : bool :=
  match x with
  | VNS _ => true
  | _ => false
  end.

(** The kind of the sub-mapping of a convergence variable: that of the one
    bound, or that of the one the loop creates, which is stored in the
    section and so is of the kind of the section. *)
(** The convergence strategy is a namespace that binds a key "unit", in a
    montecarlo section that is a namespace: the one case in which
    [__setitem__] makes a quantity of the strategy it is given. *)
Definition strategy_with_unit (validated : value) : bool :=
  match subscript validated "montecarlo" with
  | Ok (VNS montecarlo_section) =>
      match Dict.lookup "convergence_strategy" montecarlo_section with
      | Some (VNS strategy) => Dict.mem "unit" strategy
      | _ => false
      end
  | _ => false
  end.

Definition sub_kind (ns : bool) (section : bindings) (variable : string) : bool :=
  match Dict.lookup variable section with
  | Some x => is_namespace x
  | None => ns
  end.

(** What a mapping of kind [ns] stores for [v] under a key that it lacks: a
    plain dict stores [v], a namespace what [__setitem__] makes of it. *)
Definition lowered (E : externals) (ns : bool) (v : value) : result value :=
  if ns then wrap E v else Ok v.

(** One parameter inherited by a sub-mapping of kind [ns] with the bindings
    [m] from the section [parent]. *)
Definition inherit_into (E : externals) (parent : bindings) (ns : bool)
    (m : bindings) (param : string) : result bindings :=
  if lacks m param
  then match Dict.lookup param parent with
       | Some v => v' <- lowered E ns v ;; Ok (Dict.set param v' m)
       | None => Ok m
       end
  else Ok m.

(** No value bound in [self] is a plain dict. *)
Definition no_plain_dict (self : bindings) : bool :=
  forallb (fun kv => negb (is_dict (snd kv))) self.

(** No key is bound twice. *)
Fixpoint distinct_keys (d : bindings) : bool :=
  match d with
  | [] => true
  | (k, _) :: rest => negb (Dict.mem k rest) && distinct_keys rest
  end.

(** The bindings of a namespace object: each key once, no plain dict. *)
Definition tidy (self : bindings) : bool :=
  distinct_keys self && no_plain_dict self.

(** The same value with every unit replaced by [u]. *)
Fixpoint with_unit (u : unit_name) (x : value) : value :=
  match x with
  | VQuantity m _ => VQuantity m u
  | VList l => VList (map (with_unit u) l)
  | VDict d => VDict (map (fun kv => (fst kv, with_unit u (snd kv))) d)
  | VNS d => VNS (map (fun kv => (fst kv, with_unit u (snd kv))) d)
  | _ => x
  end.

(** A function applied to what a computation returns. *)
Definition result_map {A B} (f : A -> B) (r : result A) : result B :=
  match r with
  | Ok a => Ok (f a)
  | Raise e => Raise e
  end.

(** The first character of [s], if any, is no white space. *)
Definition nospace_head (s : string) : bool :=
  match s with
  | String c _ => negb (PyInt.is_space c)
  | EmptyString => true
  end.

(** A document with every section the rules read. *)
Definition full_document : value :=
  VDict [("tardis_config_version", VStr "v1.0");
         ("supernova",
          VDict [("time_explosion", VQuantity 13 "day");
                 ("luminosity_wavelength_start", VQuantity 3000 "angstrom");
                 ("luminosity_wavelength_end", VQuantity 9000 "angstrom")]);
         ("plasma",
          VDict [("initial_t_inner", VQuantity (-1) "K");
                 ("initial_t_rad", VQuantity 10000 "K")]);
         ("model",
          VDict [("structure",
                  VDict [("type", VStr "specific");
                         ("velocity", VDict [("start", VQuantity 11000 "km/s");
                                             ("stop", VQuantity 20000 "km/s")]);
                         ("density", VDict [("type", VStr "power_law");
                                            ("rho_0", VQuantity 2 "g/cm^3");
                                            ("v_0", VQuantity 8000 "km/s");
                                            ("time_0", VQuantity 2 "day")])])]);
         ("montecarlo",
          VDict [("convergence_strategy",
                  VDict [("type", VStr "damped"); ("damping_constant", VNum 0.5)]);
                 ("enable_full_relativity", VBool false)]);
         ("spectrum",
          VDict [("start", VQuantity 500 "angstrom");
                 ("stop", VQuantity 20000 "angstrom");
                 ("method", VStr "virtual")])].

(** The configuration the facade makes of [full_document], unvalidated, in
    the directory "runs". *)
Definition full_configuration : bindings :=
  Eval vm_compute in
    match from_config_dict lab full_document false "runs" with
    | Ok cfg => cfg
    | Raise _ => []
    end.

(** A document that binds "config_dirname" itself. *)
Definition relocated_document : value :=
  VDict [("config_dirname", VStr "elsewhere");
         ("montecarlo",
          VDict [("convergence_strategy", VDict [("type", VStr "damped")]);
                 ("enable_full_relativity", VBool false)]);
         ("spectrum",
          VDict [("start", VQuantity 500 "angstrom");
                 ("stop", VQuantity 20000 "angstrom");
                 ("method", VStr "virtual")])].

(** * Properties *)

(** ** The string helpers on concrete inputs *)

Example int_item_12 : PyInt.int (Str.remove_all "item" "item12") = Ok 12.
Proof. reflexivity. Qed.

Example int_negative : PyInt.int " -1_0 " = Ok (-10).
Proof. reflexivity. Qed.

Example int_empty : PyInt.int "" = Raise (ValueError InvalidIntLiteral).
Proof. reflexivity. Qed.

Example split_path : Str.split "." "model.abundances.item2" = ["model"; "abundances"; "item2"].
Proof. reflexivity. Qed.

(** ** The dict and the list *)

Module DictFacts.

Lemma lookup_set_same key v d : Dict.lookup key (Dict.set key v d) = Some v.
Proof.
  induction d as [|[k x] d IH]; simpl.
  - now rewrite String.eqb_refl.
  - destruct (String.eqb key k) eqn:Hk; simpl; rewrite Hk; auto.
Qed.

Lemma lookup_set_other key key' v d :
  key <> key' -> Dict.lookup key (Dict.set key' v d) = Dict.lookup key d.
Proof.
  intros Hne. induction d as [|[k x] d IH]; simpl.
  - destruct (String.eqb key key') eqn:Hk; auto.
    apply String.eqb_eq in Hk. contradiction.
  - destruct (String.eqb key' k) eqn:Hk'; simpl.
    + apply String.eqb_eq in Hk'. subst k.
      destruct (String.eqb key key') eqn:Hk; auto.
      apply String.eqb_eq in Hk. contradiction.
    + now rewrite IH.
Qed.

Lemma set_same_value key v d : Dict.lookup key d = Some v -> Dict.set key v d = d.
Proof.
  induction d as [|[k x] d IH]; simpl; [discriminate|].
  destruct (String.eqb key k) eqn:Hk.
  - intros [= ->]. reflexivity.
  - intros H. now rewrite IH.
Qed.

Lemma mem_lookup key d : Dict.mem key d = true <-> exists v, Dict.lookup key d = Some v.
Proof.
  unfold Dict.mem. destruct (Dict.lookup key d); split; eauto.
  - discriminate.
  - intros [v Hv]. discriminate.
Qed.

Lemma mem_false key d : Dict.mem key d = false <-> Dict.lookup key d = None.
Proof. unfold Dict.mem. destruct (Dict.lookup key d); split; congruence. Qed.

Lemma mem_set_other key key' v d :
  key <> key' -> Dict.mem key (Dict.set key' v d) = Dict.mem key d.
Proof. intros H. unfold Dict.mem. now rewrite lookup_set_other. Qed.

Lemma in_keys_mem key d : in_keys key (Dict.keys d) = Dict.mem key d.
Proof.
  unfold Dict.mem. induction d as [|[k x] d IH]; simpl; auto.
  destruct (String.eqb key k); simpl; auto.
Qed.

End DictFacts.

Module SeqFacts.

Lemma update_length {A} (l : list A) n x : length (Seq.update l n x) = length l.
Proof.
  revert n. induction l as [|h t IH]; intros [|n]; simpl; auto.
Qed.

Lemma position_bound {A} (l : list A) i p :
  Seq.position l i = Some p -> (p < length l)%nat.
Proof.
  unfold Seq.position.
  destruct ((0 <=? i) && (i <? Z.of_nat (length l))) eqn:H1.
  - intros [= <-]. apply andb_prop in H1 as [Ha Hb]. lia.
  - destruct ((i <? 0) && (0 <=? Z.of_nat (length l) + i)) eqn:H2; [|discriminate].
    intros [= <-]. apply andb_prop in H2 as [Ha Hb]. lia.
Qed.

Lemma position_update {A} (l : list A) n x i :
  Seq.position (Seq.update l n x) i = Seq.position l i.
Proof. unfold Seq.position. now rewrite update_length. Qed.

Lemma nth_error_update_same {A} (l : list A) n x :
  (n < length l)%nat -> nth_error (Seq.update l n x) n = Some x.
Proof.
  revert n. induction l as [|h t IH]; intros [|n]; simpl; try lia; auto.
  intros H. apply IH. lia.
Qed.

(** Reading back the element just written. *)
Lemma getitem_setitem {A} (l l' : list A) i x :
  Seq.setitem l i x = Ok l' -> Seq.getitem l' i = Ok x.
Proof.
  unfold Seq.setitem, Seq.getitem.
  destruct (Seq.position l i) as [p|] eqn:Hp; simpl; [|discriminate].
  intros [= <-]. rewrite position_update, Hp. simpl.
  now rewrite nth_error_update_same by (eapply position_bound; eauto).
Qed.

End SeqFacts.

(** ** Assignment and the path accessors *)

Ltac inv_bind H :=
  match type of H with
  | bind ?c _ = Ok _ =>
      let x := fresh "x" in
      let Hx := fresh "Hx" in
      destruct c as [x|] eqn:Hx; simpl in H; [|discriminate H]
  end.

Ltac step_bind H :=
  match type of H with
  | bind ?c _ = Ok _ =>
      let x := fresh "x" in
      let Hx := fresh "Hx" in
      destruct c as [x|] eqn:Hx; cbn [bind] in H; [|discriminate H]
  end.

Section Assignment.

Variable E : externals.

Lemma get_single self k : get_config_item_path self [k] = getitem self k.
Proof. reflexivity. Qed.

Lemma get_item self head second :
  Str.startswith "item" second = true ->
  get_config_item_path self [head; second]
  = (x <- getitem self head ;; i <- item_index second ;; index x i).
Proof. intros H. cbn [get_config_item_path is_item_path]. now rewrite H. Qed.

Lemma get_delegate self head second more :
  is_item_path (head :: second :: more) = false ->
  get_config_item_path self (head :: second :: more)
  = (x <- getitem self head ;;
     match x with
     | VNS child => get_config_item_path child (second :: more)
     | _ => Raise AttributeError
     end).
Proof.
  intros H. cbn [get_config_item_path]. now rewrite H.
Qed.

Lemma set_delegate self head second more v :
  is_item_path (head :: second :: more) = false ->
  set_config_item_path E self (head :: second :: more) v
  = match getitem self head with
    | Ok (VNS child) =>
        let r := set_config_item_path E child (second :: more) v in
        {| after := Dict.set head (VNS (after r)) self; raised := raised r |}
    | Ok _ => raising self AttributeError
    | Raise e => raising self e
    end.
Proof.
  intros H. cbn [set_config_item_path]. now rewrite H.
Qed.

Lemma set_item self head second v :
  Str.startswith "item" second = true ->
  set_config_item_path E self [head; second] v
  = match
      x <- getitem self head ;;
      i <- item_index second ;;
      current_value <- index x i ;;
      new <- match attr_unit E current_value with
             | Some unit => u <- unit ;; Quantity E v u
             | None => Ok v
             end ;;
      store_index x i new
    with
    | Ok x' => {| after := Dict.set head x' self; raised := None |}
    | Raise e => raising self e
    end.
Proof. intros H. cbn [set_config_item_path is_item_path]. now rewrite H. Qed.

(** What [u.Quantity] makes of a quantity or a number always carries the
    unit asked for. *)
Lemma Quantity_unit x u q : Quantity E x u = Ok q -> exists m, q = VQuantity m u.
Proof.
  destruct x; simpl; intros H; inv_bind H; injection H as <-; eauto.
Qed.

(** Assigning to a key that holds a quantity stores [u.Quantity(v, unit)]
    when that succeeds, for [v] that is not a plain dict. *)
Lemma setitem_coerces self key m u v q :
  Dict.lookup key self = Some (VQuantity m u) ->
  wrap E v = Ok v ->
  Quantity E v u = Ok q ->
  setitem E self key v = {| after := Dict.set key q self; raised := None |}.
Proof.
  intros Hk Hw Hq. unfold setitem, stored, coerce.
  rewrite Hw. simpl. rewrite Hk. simpl. now rewrite Hq.
Qed.

Lemma setitem_refuses self key m u v e :
  Dict.lookup key self = Some (VQuantity m u) ->
  wrap E v = Ok v ->
  Quantity E v u = Raise e ->
  setitem E self key v = {| after := self; raised := Some e |}.
Proof.
  intros Hk Hw Hq. unfold setitem, stored, coerce.
  rewrite Hw. simpl. rewrite Hk. simpl. now rewrite Hq.
Qed.

(** The item read of a path [head.itemN] that yields a quantity reads a
    list. *)
Lemma index_quantity x i m u :
  index x i = Ok (VQuantity m u) -> exists l, x = VList l.
Proof.
  destruct x; simpl; try discriminate; eauto.
  intros H. inv_bind H. discriminate.
Qed.
Lemma set_get_path path : forall self m u v q,
  get_config_item_path self path = Ok (VQuantity m u) ->
  wrap E v = Ok v ->
  Quantity E v u = Ok q ->
  raised (set_config_item_path E self path v) = None /\
  get_config_item_path (after (set_config_item_path E self path v)) path = Ok q.
Proof.
  induction path as [|head rest IH]; intros self m u v q Hget Hw Hq.
  - discriminate.
  - destruct rest as [|second more].
    + rewrite get_single in Hget. unfold getitem in Hget.
      destruct (Dict.lookup head self) as [old|] eqn:Hk; [|discriminate].
      injection Hget as ->.
      change (set_config_item_path E self [head] v) with (setitem E self head v).
      rewrite (setitem_coerces _ _ _ _ _ _ Hk Hw Hq). simpl. split; auto.
      unfold getitem. now rewrite DictFacts.lookup_set_same.
    + destruct (is_item_path (head :: second :: more)) eqn:Hitem.
      * assert (more = [] /\ Str.startswith "item" second = true) as [-> Hs].
        { simpl in Hitem. destruct more; [auto|discriminate]. }
        rewrite (get_item _ _ _ Hs) in Hget. rewrite (set_item _ _ _ _ Hs).
        inv_bind Hget. inv_bind Hget.
        destruct (index_quantity _ _ _ _ Hget) as [l ->].
        cbn [bind]. rewrite Hget. cbn [bind attr_unit]. rewrite Hq. cbn [bind store_index].
        simpl in Hget.
        destruct (Seq.setitem l x0 q) as [l'|] eqn:Hset.
        -- cbn [bind after raised]. split; auto.
           rewrite (get_item _ _ _ Hs). unfold getitem.
           rewrite DictFacts.lookup_set_same. cbn [of_option bind].
           rewrite Hx0. cbn [bind index]. eapply SeqFacts.getitem_setitem; eauto.
        -- exfalso. unfold Seq.setitem, Seq.getitem in *.
           destruct (Seq.position l x0); simpl in *; discriminate.
      * rewrite (get_delegate _ _ _ _ Hitem) in Hget.
        rewrite (set_delegate _ _ _ _ _ Hitem).
        inv_bind Hget. destruct x; try discriminate. cbn [after raised].
        destruct (IH d m u v q Hget Hw Hq) as [Hr Hg].
        split; auto.
        rewrite (get_delegate _ _ _ _ Hitem). unfold getitem.
        rewrite DictFacts.lookup_set_same. cbn [of_option bind]. exact Hg.
Qed.

Lemma set_refused_path path : forall self m u v e,
  get_config_item_path self path = Ok (VQuantity m u) ->
  wrap E v = Ok v ->
  Quantity E v u = Raise e ->
  set_config_item_path E self path v = {| after := self; raised := Some e |}.
Proof.
  induction path as [|head rest IH]; intros self m u v e Hget Hw Hq.
  - discriminate.
  - destruct rest as [|second more].
    + rewrite get_single in Hget. unfold getitem in Hget.
      destruct (Dict.lookup head self) as [old|] eqn:Hk; [|discriminate].
      injection Hget as ->.
      change (set_config_item_path E self [head] v) with (setitem E self head v).
      now rewrite (setitem_refuses _ _ _ _ _ _ Hk Hw Hq).
    + destruct (is_item_path (head :: second :: more)) eqn:Hitem.
      * assert (more = [] /\ Str.startswith "item" second = true) as [-> Hs].
        { simpl in Hitem. destruct more; [auto|discriminate]. }
        rewrite (get_item _ _ _ Hs) in Hget. rewrite (set_item _ _ _ _ Hs).
        inv_bind Hget. inv_bind Hget.
        cbn [bind]. rewrite Hget. cbn [bind attr_unit]. rewrite Hq. reflexivity.
      * rewrite (get_delegate _ _ _ _ Hitem) in Hget.
        rewrite (set_delegate _ _ _ _ _ Hitem).
        inv_bind Hget. destruct x; try discriminate. cbn zeta.
        rewrite (IH d m u v e Hget Hw Hq). cbn [after raised].
        unfold getitem in Hx. destruct (Dict.lookup head self) eqn:Hk; [|discriminate].
        injection Hx as ->. now rewrite (DictFacts.set_same_value _ _ _ Hk).
Qed.

End Assignment.

(** C4. Set by path, then get by the same path, on a path that holds a
    quantity of unit [u]: a quantity assigned in the same unit is read back
    with the magnitude and the unit it was assigned with (astropy converts a
    magnitude to its own unit without changing it: the hypothesis on
    [to_unit]); a quantity assigned in another, convertible unit is read back
    converted into [u]; and a bare number is read back as the quantity
    [u.Quantity] makes of it in [u] (the float64 of the number, which is
    astropy's to say).  What is stored carries the unit of the value stored
    before, not the unit of the value coming in. *)
Theorem set_config_item_round_trip (E : externals) (self : bindings) (path : string)
    (m : number) (u : unit_name) :
  get_config_item self path = Ok (VQuantity m u) ->
  (forall m', to_unit E u u m' = Some m' ->
     let r := set_config_item E self path (VQuantity m' u) in
     raised r = None /\ get_config_item (after r) path = Ok (VQuantity m' u))
  /\
  (forall m' u' m'', to_unit E u' u m' = Some m'' ->
     let r := set_config_item E self path (VQuantity m' u') in
     raised r = None /\ get_config_item (after r) path = Ok (VQuantity m'' u))
  /\
  (forall x m', quantity_of E (VNum x) u = Ok m' ->
     let r := set_config_item E self path (VNum x) in
     raised r = None /\ get_config_item (after r) path = Ok (VQuantity m' u)).
Proof.
  unfold get_config_item, set_config_item. intros Hget.
  assert (Hconv : forall m' u' m'', to_unit E u' u m' = Some m'' ->
     raised (set_config_item_path E self (Str.split "." path) (VQuantity m' u')) = None /\
     get_config_item_path
       (after (set_config_item_path E self (Str.split "." path) (VQuantity m' u')))
       (Str.split "." path) = Ok (VQuantity m'' u)).
  { intros m' u' m'' Hc. eapply set_get_path; eauto.
    simpl. now rewrite Hc. }
  split; [|split].
  - intros m' Hc. exact (Hconv m' u m' Hc).
  - intros m' u' m'' Hc. exact (Hconv m' u' m'' Hc).
  - intros x m' Hq. eapply set_get_path; eauto.
    cbn [Quantity]. now rewrite Hq.
Qed.

Lemma set_config_item_round_trip_witness :
  get_config_item velocity_tree "model.structure.velocity.start" = Ok (VQuantity 1 "km") /\
  get_config_item
    (after (set_config_item lab velocity_tree "model.structure.velocity.start" (VQuantity 7 "km")))
    "model.structure.velocity.start" = Ok (VQuantity 7 "km") /\
  get_config_item
    (after (set_config_item lab velocity_tree "model.structure.velocity.start" (VQuantity 500 "m")))
    "model.structure.velocity.start" = Ok (VQuantity (500 / 1000) "km").
Proof.
  pose proof (@set_config_item_round_trip lab velocity_tree
                "model.structure.velocity.start" 1 "km" eq_refl) as [Hsame [Hconv _]].
  split; [reflexivity|]. split.
  - exact (proj2 (Hsame 7%Q eq_refl)).
  - exact (proj2 (Hconv 500%Q "m" (500 / 1000)%Q eq_refl)).
Defined.

(** C5. A key holds a quantity of unit [u]; the value assigned is a quantity
    whose unit does not convert to [u].  The assignment raises the unit
    conversion error and the namespace is what it was before, by
    [__setitem__] and by [set_config_item] on any path that reads that key. *)
Theorem incompatible_assignment_refused (E : externals) (m m' : number)
    (u u' : unit_name) :
  to_unit E u' u m' = None ->
  (forall self key,
     Dict.lookup key self = Some (VQuantity m u) ->
     setitem E self key (VQuantity m' u')
     = {| after := self; raised := Some UnitConversionError |})
  /\
  (forall self path,
     get_config_item self path = Ok (VQuantity m u) ->
     set_config_item E self path (VQuantity m' u')
     = {| after := self; raised := Some UnitConversionError |}).
Proof.
  intros Hc.
  assert (Hq : Quantity E (VQuantity m' u') u = Raise UnitConversionError).
  { simpl. now rewrite Hc. }
  split.
  - intros self key Hk. eapply setitem_refuses; eauto.
  - intros self path Hget. unfold set_config_item. eapply set_refused_path; eauto.
Qed.

Lemma incompatible_assignment_refused_witness :
  to_unit lab "s" "km" 5 = None /\
  set_config_item lab velocity_tree "model.structure.velocity.start" (VQuantity 5 "s")
  = {| after := velocity_tree; raised := Some UnitConversionError |}.
Proof.
  split; [reflexivity|].
  exact (proj2 (@incompatible_assignment_refused lab 1 5 "km" "s" eq_refl)
           velocity_tree "model.structure.velocity.start" eq_refl).
Defined.

(** ** Strings: split, join and the decimal numerals *)

Module StrFacts.

Lemma startswith_app p s : Str.startswith p (p ++ s) = true.
Proof.
  induction p as [|a p IH]; simpl; auto.
  now rewrite Ascii.eqb_refl, IH.
Qed.

Lemma split_dot_free w : dot_free w = true -> Str.split "." w = [w].
Proof.
  induction w as [|c t IH]; simpl; auto.
  intros H. apply andb_prop in H as [Hc Ht].
  apply negb_true_iff in Hc. rewrite Hc, (IH Ht). reflexivity.
Qed.

Lemma split_app_dot w rest :
  dot_free w = true ->
  Str.split "." (w ++ String "." rest) = w :: Str.split "." rest.
Proof.
  induction w as [|c t IH]; simpl; auto.
  intros H. apply andb_prop in H as [Hc Ht].
  apply negb_true_iff in Hc. rewrite Hc, (IH Ht). reflexivity.
Qed.

(** Joining dot-free segments and splitting again gives the segments back:
    the recursive call [get_config_item(".".join(path[1:]))] sees [path[1:]]. *)
Lemma split_join (parts : list string) :
  parts <> [] ->
  forallb dot_free parts = true ->
  Str.split "." (Str.join "." parts) = parts.
Proof.
  induction parts as [|w ws IH]; [congruence|].
  intros _ H. simpl in H. apply andb_prop in H as [Hw Hws].
  destruct ws as [|w' ws'].
  - simpl. now apply split_dot_free.
  - change (Str.join "." (w :: w' :: ws')) with (w ++ String "." (Str.join "." (w' :: ws'))).
    rewrite (split_app_dot _ _ Hw), IH; auto. discriminate.
Qed.

(** The segments [split] returns are dot-free, and there is at least one. *)
Lemma split_dot_free_parts s : forallb dot_free (Str.split "." s) = true.
Proof.
  induction s as [|c t IH]; simpl; auto.
  destruct (Ascii.eqb c ".") eqn:Hc; simpl; auto.
  destruct (Str.split "." t) as [|w ws]; simpl in *.
  - now rewrite Hc.
  - now rewrite Hc.
Qed.

Lemma digit_char c d :
  PyInt.digit c = Some d ->
  PyInt.is_space c = false /\ Ascii.eqb "i" c = false /\
  c <> "-"%char /\ c <> "+"%char /\ (0 <= d <= 9).
Proof.
  destruct c as [[] [] [] [] [] [] [] []]; cbv; intros H;
    try discriminate H; injection H as <-;
    repeat split; try reflexivity; try discriminate.
Qed.

Lemma digits_only_uint u : digits_only (NilEmpty.string_of_uint u) = true.
Proof. induction u; simpl; auto. Qed.

Lemma remove_item_digits s : forall fuel,
  digits_only s = true -> Str.remove_all_fuel fuel "item" s = s.
Proof.
  induction s as [|c t IH]; intros [|fuel] H; try reflexivity.
  cbn [digits_only] in H. destruct (PyInt.digit c) as [d|] eqn:Hd; [|discriminate].
  destruct (digit_char _ _ Hd) as (_ & Hi & _).
  cbn [Str.remove_all_fuel Str.startswith]. rewrite Hi. simpl. now rewrite IH.
Qed.

Lemma remove_item_prefix s :
  digits_only s = true -> Str.remove_all "item" ("item" ++ s) = s.
Proof.
  intros H. unfold Str.remove_all.
  change ("item" ++ s) with (String "i" ("tem" ++ s)).
  cbn [String.length Str.remove_all_fuel].
  change (String "i" ("tem" ++ s)) with ("item" ++ s).
  rewrite startswith_app.
  change (Str.drop (String.length "item") ("item" ++ s)) with s.
  now apply remove_item_digits.
Qed.

Lemma lstrip_digits s : digits_only s = true -> PyInt.lstrip s = s.
Proof.
  destruct s as [|c t]; simpl; auto.
  destruct (PyInt.digit c) as [d|] eqn:Hd; [|discriminate].
  destruct (digit_char _ _ Hd) as (Hs & _). now rewrite Hs.
Qed.

Lemma rev_onto_digits s : forall acc,
  digits_only s = true -> digits_only acc = true ->
  digits_only (Str.rev_onto s acc) = true.
Proof.
  induction s as [|c t IH]; simpl; auto.
  intros acc H Ha. destruct (PyInt.digit c) eqn:Hd; [|discriminate].
  apply IH; auto. simpl. now rewrite Hd.
Qed.

Lemma rev_onto_rev_onto s : forall a b,
  Str.rev_onto (Str.rev_onto s a) b = Str.rev_onto a (s ++ b).
Proof.
  induction s as [|c t IH]; intros a b; simpl; auto.
Qed.

Lemma app_empty (s : string) : s ++ "" = s.
Proof. induction s; simpl; congruence. Qed.

Lemma strip_digits s : digits_only s = true -> PyInt.strip s = s.
Proof.
  intros H. unfold PyInt.strip, Str.rev.
  rewrite (lstrip_digits _ H), lstrip_digits by (apply rev_onto_digits; auto).
  rewrite rev_onto_rev_onto. simpl. apply app_empty.
Qed.

Lemma int_digits s :
  digits_only s = true ->
  PyInt.int s = of_option (PyInt.digits s 0 false) (ValueError InvalidIntLiteral).
Proof.
  intros H. unfold PyInt.int. rewrite (strip_digits _ H).
  destruct s as [|c t]; [reflexivity|].
  simpl in H. destruct (PyInt.digit c) as [d|] eqn:Hd; [|discriminate].
  destruct (digit_char _ _ Hd) as (_ & _ & Hm & Hp & _).
  destruct c as [[] [] [] [] [] [] [] []]; try reflexivity; congruence.
Qed.

Lemma digits_uint u : forall a,
  PyInt.digits (NilEmpty.string_of_uint u) (Z.of_nat a) true
  = Some (Z.of_nat (Nat.of_uint_acc u a)).
Proof.
  induction u; intros a; cbn [NilEmpty.string_of_uint PyInt.digits Nat.of_uint_acc];
    try reflexivity;
    match goal with
    | |- context [PyInt.digit ?c] =>
        let d := eval cbv in (PyInt.digit c) in
        change (PyInt.digit c) with d; cbv iota beta
    end;
    rewrite <- IHu; f_equal; rewrite ?Nat.tail_mul_spec; lia.
Qed.

Lemma digits_uint_start u :
  u <> Decimal.Nil ->
  PyInt.digits (NilEmpty.string_of_uint u) 0 false = Some (Z.of_nat (Nat.of_uint u)).
Proof.
  intros Hu. unfold Nat.of_uint.
  destruct u; try congruence;
    cbn [NilEmpty.string_of_uint PyInt.digits Nat.of_uint_acc];
    match goal with
    | |- context [PyInt.digit ?c] =>
        let d := eval cbv in (PyInt.digit c) in
        change (PyInt.digit c) with d; cbv iota beta
    end;
    rewrite <- digits_uint; f_equal.
Qed.

Lemma to_uint_nonnil n : Nat.to_uint n <> Decimal.Nil.
Proof.
  rewrite <- (DecimalNat.Unsigned.of_to n) at 1.
  rewrite DecimalNat.Unsigned.to_of. apply DecimalFacts.unorm_nonnil.
Qed.

(** [int] reads the numeral of [n] as [n]. *)
Lemma int_decimal n : PyInt.int (decimal n) = Ok (Z.of_nat n).
Proof.
  unfold decimal. rewrite int_digits by apply digits_only_uint.
  rewrite digits_uint_start by apply to_uint_nonnil.
  now rewrite DecimalNat.Unsigned.of_to.
Qed.

(** The index the segment [itemN] denotes is [N]. *)
Lemma item_index_decimal n : item_index ("item" ++ decimal n) = Ok (Z.of_nat n).
Proof.
  unfold item_index. rewrite remove_item_prefix by apply digits_only_uint.
  apply int_decimal.
Qed.

End StrFacts.

(** ** Path resolution *)

Lemma getitem_absent self key : Dict.lookup key self = None -> getitem self key = Raise KeyError.
Proof. unfold getitem. now intros ->. Qed.

Lemma get_absent_head self head rest :
  Dict.lookup head self = None -> get_config_item_path self (head :: rest) = Raise KeyError.
Proof.
  intros H. destruct rest as [|second more].
  - rewrite get_single. now apply getitem_absent.
  - cbn [get_config_item_path]. rewrite (getitem_absent _ _ H).
    now destruct (is_item_path (head :: second :: more)).
Qed.

Lemma index_list_nat l n : index (VList l) (Z.of_nat n) = of_option (nth_error l n) IndexError.
Proof.
  cbn [index]. unfold Seq.getitem, Seq.position.
  destruct (Nat.lt_ge_cases n (length l)) as [Hlt|Hge].
  - replace ((0 <=? Z.of_nat n) && (Z.of_nat n <? Z.of_nat (length l))) with true
      by (symmetry; apply andb_true_intro; split; lia).
    cbn [of_option bind]. now rewrite Nat2Z.id.
  - replace ((0 <=? Z.of_nat n) && (Z.of_nat n <? Z.of_nat (length l))) with false
      by (symmetry; apply andb_false_iff; right; lia).
    replace (Z.of_nat n <? 0) with false by lia. cbn [andb of_option bind].
    apply nth_error_None in Hge. now rewrite Hge.
Qed.

(** The recursive call of the source, on the tail joined with ".", is the
    call on the tail of the segments. *)
Lemma get_config_item_join self path :
  path <> [] -> forallb dot_free path = true ->
  get_config_item self (Str.join "." path) = get_config_item_path self path.
Proof.
  intros Hne Hdf. unfold get_config_item. now rewrite StrFacts.split_join.
Qed.

Lemma set_config_item_join E self path v :
  path <> [] -> forallb dot_free path = true ->
  set_config_item E self (Str.join "." path) v = set_config_item_path E self path v.
Proof.
  intros Hne Hdf. unfold set_config_item. now rewrite StrFacts.split_join.
Qed.

(** C7, as the code has it.  [config_item_string] splits at the dots into
    [head :: rest].
    - One segment: the value bound to it, also when it reads [itemN].
    - Two segments, the second [itemN]: the element of index [N] of what
      [head] is bound to; for a list that is its [N]-th element, counted from
      zero, and [IndexError] when [N] is not below its length.
    - Otherwise: [head] is resolved here and the rest of the path, joined
      again, is handed to [get_config_item] of the child namespace; a value
      that is not a namespace has no such method ([AttributeError]), so a
      path never goes on below a list.
    - A [head] that is not bound raises [KeyError]. *)
Theorem get_config_item_resolution (self : bindings) (s head : string) (rest : list string) :
  Str.split "." s = head :: rest ->
  (rest = [] -> get_config_item self s = getitem self head)
  /\
  (forall n, rest = ["item" ++ decimal n] ->
     get_config_item self s = (x <- getitem self head ;; index x (Z.of_nat n)))
  /\
  (forall n l, rest = ["item" ++ decimal n] -> Dict.lookup head self = Some (VList l) ->
     get_config_item self s = of_option (nth_error l n) IndexError)
  /\
  (rest <> [] -> is_item_path (head :: rest) = false ->
     get_config_item self s
     = (x <- getitem self head ;;
        match x with
        | VNS child => get_config_item child (Str.join "." rest)
        | _ => Raise AttributeError
        end))
  /\
  (forall l, rest <> [] -> is_item_path (head :: rest) = false ->
     Dict.lookup head self = Some (VList l) ->
     get_config_item self s = Raise AttributeError)
  /\
  (Dict.lookup head self = None -> get_config_item self s = Raise KeyError).
Proof.
  intros Hsplit.
  assert (Hs : get_config_item self s = get_config_item_path self (head :: rest))
    by (unfold get_config_item; now rewrite Hsplit).
  rewrite Hs. clear Hs.
  assert (Hitem : forall n, get_config_item_path self [head; "item" ++ decimal n]
                            = (x <- getitem self head ;; index x (Z.of_nat n))).
  { intros n. rewrite get_item by apply StrFacts.startswith_app.
    destruct (getitem self head); cbn [bind]; auto.
    now rewrite StrFacts.item_index_decimal. }
  assert (Hdelegate : rest <> [] -> is_item_path (head :: rest) = false ->
     get_config_item_path self (head :: rest)
     = (x <- getitem self head ;;
        match x with
        | VNS child => get_config_item child (Str.join "." rest)
        | _ => Raise AttributeError
        end)).
  { intros Hne Hni. destruct rest as [|second more]; [congruence|].
    rewrite get_delegate by assumption.
    destruct (getitem self head) as [x|]; cbn [bind]; auto.
    destruct x; auto.
    rewrite get_config_item_join; auto.
    pose proof (StrFacts.split_dot_free_parts s) as Hdf.
    rewrite Hsplit in Hdf. simpl in Hdf. now apply andb_prop in Hdf as [_ Hdf]. }
  repeat apply conj.
  - intros ->. apply get_single.
  - intros n ->. apply Hitem.
  - intros n l -> Hl. rewrite Hitem. unfold getitem. rewrite Hl. cbn [of_option bind].
    apply index_list_nat.
  - exact Hdelegate.
  - intros l Hne Hni Hl. rewrite Hdelegate by assumption.
    unfold getitem. now rewrite Hl.
  - intros Hk. now apply get_absent_head.
Qed.

Lemma get_config_item_resolution_witness :
  get_config_item abundances_tree "model.abundances.item2"
  = (x <- getitem abundances_tree "model" ;;
     match x with
     | VNS child => get_config_item child "abundances.item2"
     | _ => Raise AttributeError
     end).
Proof.
  exact (proj1 (proj2 (proj2 (proj2
    (@get_config_item_resolution abundances_tree "model.abundances.item2"
       "model" ["abundances"; "item2"] eq_refl))))
    ltac:(discriminate) eq_refl).
Defined.

(** The spec's own example: [item2] of a three-element sequence is its last
    element and [item3] is out of range. *)
Example get_item2_item3 :
  get_config_item abundances_tree "model.abundances.item2" = Ok (VNum 0.52) /\
  get_config_item abundances_tree "model.abundances.item3" = Raise IndexError /\
  get_config_item abundances_tree "model.missing.item0" = Raise KeyError.
Proof. repeat split. Qed.

(** C7 as stated fails: the element [item0] of [model.shells] is a
    namespace, and the path that goes on below it is refused, because the
    list [model.shells] itself, not its element, is asked to resolve
    ["item0.O"]. *)
Lemma no_continuation_below_index :
  get_config_item abundances_tree "model.shells.item0" = Ok (VNS [("O", VNum 0.19)]) /\
  get_config_item_path [("O", VNum 0.19)] ["O"] = Ok (VNum 0.19) /\
  get_config_item abundances_tree "model.shells.item0.O" = Raise AttributeError.
Proof. repeat split. Qed.

(** ** The section validators *)

Lemma subscript_in_keys x key v ks :
  subscript x key = Ok v -> keys_of x = Ok ks -> in_keys key ks = true.
Proof.
  destruct x; try discriminate; simpl; intros Hs [= <-];
    rewrite DictFacts.in_keys_mem; unfold Dict.mem;
    destruct (Dict.lookup key d); auto; discriminate.
Qed.

Lemma subscript_has_keys x key v : subscript x key = Ok v -> exists ks, keys_of x = Ok ks.
Proof. destruct x; try discriminate; simpl; eauto. Qed.

(** C10. A model section whose [structure.density.type] is none of
    "exponential", "power_law" and "uniform": the density dispatch checks
    nothing and raises nothing, whatever else the density sub-section holds,
    so [validate_model_section] passes or fails by the check on
    [structure.type] alone. *)
Theorem unknown_density_type_passes (E : externals)
    (model_section structure density t : value) :
  subscript model_section "structure" = Ok structure ->
  subscript structure "density" = Ok density ->
  subscript density "type" = Ok t ->
  eq_str t "exponential" = false ->
  eq_str t "power_law" = false ->
  eq_str t "uniform" = false ->
  validate_density E model_section = Ok tt /\
  validate_model_section E model_section = validate_structure_type E model_section.
Proof.
  intros Hs Hd Ht He Hp Hu.
  assert (Hv : validate_density E model_section = Ok tt).
  { unfold validate_density. rewrite Hs. cbn [bind].
    destruct (subscript_has_keys _ _ _ Hd) as [ks Hks]. rewrite Hks. cbn [bind].
    rewrite (subscript_in_keys _ _ _ _ Hd Hks).
    cbn [subscripts]. rewrite Hs. cbn [bind]. rewrite Hd. cbn [bind]. rewrite Ht.
    cbn [bind]. now rewrite He, Hp, Hu. }
  split; auto.
  unfold validate_model_section. rewrite Hv.
  destruct (validate_structure_type E model_section) as [[]|]; reflexivity.
Qed.

Lemma unknown_density_type_passes_witness :
  subscripts w7_model_section ["structure"; "density"; "rho_0"] = Ok (VQuantity (-1) "g/cm^3") /\
  validate_density lab w7_model_section = Ok tt /\
  validate_model_section lab w7_model_section = validate_structure_type lab w7_model_section.
Proof.
  split; [reflexivity|].
  exact (@unknown_density_type_passes lab w7_model_section _ _ (VStr "branch85_w7")
           eq_refl eq_refl eq_refl eq_refl eq_refl eq_refl).
Defined.

(** ** Normalizing the convergence strategy *)

Module ConvergenceFacts.

Lemma set_set key v w d : Dict.set key v (Dict.set key w d) = Dict.set key v d.
Proof.
  induction d as [|[k x] d IH]; simpl.
  - now rewrite String.eqb_refl.
  - destruct (String.eqb key k) eqn:Hk; simpl; rewrite Hk; congruence.
Qed.

Lemma inherited_ext parent parent' m param :
  Dict.lookup param parent = Dict.lookup param parent' ->
  inherited parent m param = inherited parent' m param.
Proof. unfold inherited. now intros ->. Qed.

Lemma fold_inherited_ext params : forall parent parent' m,
  (forall p, In p params -> Dict.lookup p parent = Dict.lookup p parent') ->
  fold_left (inherited parent) params m = fold_left (inherited parent') params m.
Proof.
  induction params as [|p ps IH]; intros parent parent' m H; simpl; auto.
  rewrite (inherited_ext parent parent' m p) by (apply H; now left).
  apply IH. intros q Hq. apply H. now right.
Qed.

Lemma lookup_inherited_other parent m p q :
  q <> p -> Dict.lookup q (inherited parent m p) = Dict.lookup q m.
Proof.
  intros Hne. unfold inherited. destruct (lacks m p); auto.
  destruct (Dict.lookup p parent); auto.
  now apply DictFacts.lookup_set_other.
Qed.

Lemma lookup_inherited_same parent m p :
  Dict.lookup p (inherited parent m p)
  = if lacks m p
    then match Dict.lookup p parent with
         | Some v => Some v
         | None => Dict.lookup p m
         end
    else Dict.lookup p m.
Proof.
  unfold inherited. destruct (lacks m p); auto.
  destruct (Dict.lookup p parent); auto.
  apply DictFacts.lookup_set_same.
Qed.

Lemma lookup_fold_other parent params : forall m q,
  ~ In q params ->
  Dict.lookup q (fold_left (inherited parent) params m) = Dict.lookup q m.
Proof.
  induction params as [|p ps IH]; intros m q Hq; simpl; auto.
  rewrite IH by (intros H; apply Hq; now right).
  apply lookup_inherited_other. intros ->. apply Hq. now left.
Qed.

(** What a sub-mapping holds for a parameter once the inner loop is over. *)
Lemma lookup_fold_inherited parent params : forall m q,
  NoDup params -> In q params ->
  Dict.lookup q (fold_left (inherited parent) params m)
  = if lacks m q
    then match Dict.lookup q parent with
         | Some v => Some v
         | None => Dict.lookup q m
         end
    else Dict.lookup q m.
Proof.
  induction params as [|p ps IH]; intros m q Hnd Hin; [contradiction|].
  inversion Hnd as [|? ? Hp Hps]; subst. simpl.
  destruct Hin as [->|Hin].
  - rewrite lookup_fold_other by assumption. apply lookup_inherited_same.
  - assert (q <> p) by (intros ->; contradiction).
    rewrite IH by assumption. unfold lacks.
    now rewrite lookup_inherited_other by assumption.
Qed.

Section Plain.

Variable E : externals.

(** The inner loop body on plain dicts. *)
Lemma inherit_parameter_plain d variable m param :
  Dict.lookup variable d = Some (VDict m) ->
  inherit_parameter E variable (VDict d) param
  = Ok (VDict (Dict.set variable (VDict (inherited d m param)) d)).
Proof.
  intros Hv. unfold inherit_parameter, inherited, lacks.
  cbn [subscript]. rewrite Hv. cbn [of_option bind get_or_none].
  destruct (Dict.lookup param m) as [cur|] eqn:Hcur.
  - destruct (is_none cur) eqn:Hn.
    + cbn [contains bind]. unfold Dict.mem.
      destruct (Dict.lookup param d) as [v|] eqn:Hp; cbn [of_option bind store_subscript mutated_in_place].
      * reflexivity.
      * now rewrite (DictFacts.set_same_value _ _ _ Hv).
    + now rewrite (DictFacts.set_same_value _ _ _ Hv).
  - cbn [is_none contains bind]. unfold Dict.mem.
    destruct (Dict.lookup param d) as [v|] eqn:Hp; cbn [of_option bind store_subscript mutated_in_place].
    + reflexivity.
    + now rewrite (DictFacts.set_same_value _ _ _ Hv).
Qed.

Lemma inner_loop_plain params variable d : forall m,
  ~ In variable params ->
  for_each params (inherit_parameter E variable) (VDict (Dict.set variable (VDict m) d))
  = Ok (VDict (Dict.set variable (VDict (fold_left (inherited d) params m)) d)).
Proof.
  induction params as [|p ps IH]; intros m Hv; [reflexivity|].
  cbn [for_each fold_left].
  rewrite (inherit_parameter_plain _ _ m) by apply DictFacts.lookup_set_same.
  cbn [bind]. rewrite set_set.
  rewrite (inherited_ext (Dict.set variable (VDict m) d) d).
  - apply IH. intros H. apply Hv. now right.
  - apply DictFacts.lookup_set_other. intros ->. apply Hv. now left.
Qed.

(** The outer loop body: the variable ends up bound to its normalized
    sub-mapping, when it was not bound or was bound to a plain dict. *)
Lemma normalize_variable_plain d variable :
  ~ In variable convergence_parameters ->
  (forall x, Dict.lookup variable d = Some x -> exists m, x = VDict m) ->
  normalize_variable E (VDict d) variable
  = Ok (VDict (Dict.set variable (VDict (normalized_sub d variable)) d)).
Proof.
  intros Hv Hplain. unfold normalize_variable, normalized_sub, sub_mapping.
  cbn [contains bind]. unfold Dict.mem.
  destruct (Dict.lookup variable d) as [x|] eqn:Hx; cbn [negb bind store_subscript].
  - destruct (Hplain x eq_refl) as [m ->].
    rewrite <- (DictFacts.set_same_value _ _ _ Hx) at 1.
    now apply inner_loop_plain.
  - now apply inner_loop_plain.
Qed.

Lemma normalized_sub_ext parent parent' variable :
  (forall p, In p convergence_parameters -> Dict.lookup p parent = Dict.lookup p parent') ->
  Dict.lookup variable parent = Dict.lookup variable parent' ->
  normalized_sub parent variable = normalized_sub parent' variable.
Proof.
  intros Hp Hv. unfold normalized_sub, sub_mapping. rewrite Hv.
  now apply fold_inherited_ext.
Qed.

(** The outer loop over any list of distinct variables that are not
    parameter names. *)
Lemma outer_loop_plain variables : forall d,
  NoDup variables ->
  (forall v, In v variables -> ~ In v convergence_parameters) ->
  (forall v x, In v variables -> Dict.lookup v d = Some x -> exists m, x = VDict m) ->
  exists d',
    for_each variables (normalize_variable E) (VDict d) = Ok (VDict d') /\
    (forall key, ~ In key variables -> Dict.lookup key d' = Dict.lookup key d) /\
    (forall v, In v variables -> Dict.lookup v d' = Some (VDict (normalized_sub d v))).
Proof.
  induction variables as [|v vs IH]; intros d Hnd Hnp Hplain.
  - exists d. repeat split; auto. intros v [].
  - inversion Hnd as [|? ? Hv Hvs]; subst.
    cbn [for_each].
    rewrite normalize_variable_plain
      by (try (apply Hnp; now left); intros x Hx; apply (Hplain v x); auto; now left).
    cbn [bind].
    set (d1 := Dict.set v (VDict (normalized_sub d v)) d).
    assert (Hframe : forall k, k <> v -> Dict.lookup k d1 = Dict.lookup k d).
    { intros k Hk. now apply DictFacts.lookup_set_other. }
    destruct (IH d1 Hvs) as (d' & Hrun & Hrest & Hvars).
    + intros w Hw. apply Hnp. now right.
    + intros w x Hw Hx. rewrite Hframe in Hx by (intros ->; contradiction).
      apply (Hplain w x); auto. now right.
    + exists d'. split; [exact Hrun|]. split.
      * intros key Hkey. rewrite Hrest by (intros H; apply Hkey; now right).
        apply Hframe. intros ->. apply Hkey. now left.
      * intros w [<-|Hw].
        -- rewrite Hrest by assumption. apply DictFacts.lookup_set_same.
        -- rewrite (Hvars w Hw). do 2 f_equal.
           apply normalized_sub_ext.
           ++ intros p Hp. apply Hframe. intros ->. apply (Hnp v); auto. now left.
           ++ apply Hframe. intros ->. contradiction.
Qed.

End Plain.

End ConvergenceFacts.

Lemma convergence_variables_distinct : NoDup convergence_variables.
Proof.
  unfold convergence_variables.
  repeat (constructor; [simpl; intros H; repeat destruct H as [H|H]; discriminate || contradiction|]).
  constructor.
Qed.

Lemma convergence_parameters_distinct : NoDup convergence_parameters.
Proof.
  unfold convergence_parameters.
  repeat (constructor; [simpl; intros H; repeat destruct H as [H|H]; discriminate || contradiction|]).
  constructor.
Qed.

Lemma variable_is_no_parameter v :
  In v convergence_variables -> ~ In v convergence_parameters.
Proof.
  unfold convergence_variables, convergence_parameters. simpl.
  intros Hv Hp.
  repeat destruct Hv as [Hv|Hv]; try contradiction; subst v;
    repeat destruct Hp as [Hp|Hp]; try contradiction; discriminate.
Qed.

Lemma for_each_app {A S : Type} (l1 l2 : list A) (body : S -> A -> result S) (s : S) :
  for_each (l1 ++ l2) body s = (s' <- for_each l1 body s ;; for_each l2 body s').
Proof.
  revert s. induction l1 as [|a l1 IH]; intros s; [reflexivity|].
  cbn [app for_each]. destruct (body s a); cbn [bind]; auto.
Qed.

(** *** Sections and sub-mappings of either kind *)

Module KindFacts.

Lemma is_mapping_kind x :
  is_mapping x = true -> exists m, x = mapping (is_namespace x) m.
Proof. destruct x; try discriminate; simpl; eauto. Qed.

Lemma subscript_mapping ns d key :
  subscript (mapping ns d) key = of_option (Dict.lookup key d) KeyError.
Proof. now destruct ns. Qed.

Lemma contains_mapping ns d key : contains (mapping ns d) key = Ok (Dict.mem key d).
Proof. now destruct ns. Qed.

Lemma get_or_none_mapping ns d key :
  get_or_none (mapping ns d) key
  = Ok (match Dict.lookup key d with Some v => v | None => VNone end).
Proof. now destruct ns. Qed.

Lemma mutated_mapping ns d key v :
  mutated_in_place (mapping ns d) key v = mapping ns (Dict.set key v d).
Proof. now destruct ns. Qed.

Lemma lacks_is_none m param :
  is_none (match Dict.lookup param m with Some v => v | None => VNone end) = lacks m param.
Proof. unfold lacks. now destruct (Dict.lookup param m). Qed.

Lemma is_namespace_mapping ns m : is_namespace (mapping ns m) = ns.
Proof. now destruct ns. Qed.

(** Normalizing a variable changes the kind of no sub-mapping. *)
Lemma sub_kind_set ns d v m w :
  sub_kind ns (Dict.set v (mapping (sub_kind ns d v) m) d) w = sub_kind ns d w.
Proof.
  destruct (String.eqb w v) eqn:Hwv.
  - apply String.eqb_eq in Hwv. subst w. unfold sub_kind at 1.
    rewrite DictFacts.lookup_set_same. apply is_namespace_mapping.
  - apply String.eqb_neq in Hwv. unfold sub_kind at 1 3.
    now rewrite DictFacts.lookup_set_other.
Qed.

Section Kinds.

Variable E : externals.

(** A key that a mapping lacks holds nothing with a unit, and is stored to
    without a conversion. *)
Lemma store_lacking ns m param v :
  lacks m param = true ->
  store_subscript E (mapping ns m) param v
  = (v' <- lowered E ns v ;; Ok (mapping ns (Dict.set param v' m))).
Proof.
  intros Hl. destruct ns; [|reflexivity].
  cbn [mapping lowered store_subscript]. unfold setitem, stored.
  destruct (wrap E v) as [v1|]; cbn [bind]; [|reflexivity].
  unfold coerce, lacks in *.
  destruct (Dict.lookup param m) as [old|]; [|reflexivity].
  destruct old; try discriminate. reflexivity.
Qed.

Lemma inherit_parameter_kind ns d variable ns' m param :
  Dict.lookup variable d = Some (mapping ns' m) ->
  inherit_parameter E variable (mapping ns d) param
  = (m' <- inherit_into E d ns' m param ;;
     Ok (mapping ns (Dict.set variable (mapping ns' m') d))).
Proof.
  intros Hv. unfold inherit_parameter, inherit_into.
  rewrite !subscript_mapping, Hv. cbn [of_option bind].
  rewrite get_or_none_mapping. cbn [bind]. rewrite lacks_is_none.
  destruct (lacks m param) eqn:Hl.
  - rewrite contains_mapping. cbn [bind]. unfold Dict.mem.
    destruct (Dict.lookup param d) as [v|]; cbn [of_option bind].
    + rewrite (store_lacking _ _ _ _ Hl).
      destruct (lowered E ns' v) as [v'|]; cbn [bind]; [|reflexivity].
      now rewrite mutated_mapping.
    + now rewrite (DictFacts.set_same_value _ _ _ Hv).
  - cbn [bind]. now rewrite (DictFacts.set_same_value _ _ _ Hv).
Qed.

Lemma inherit_into_ext parent parent' ns' m param :
  Dict.lookup param parent = Dict.lookup param parent' ->
  inherit_into E parent ns' m param = inherit_into E parent' ns' m param.
Proof. unfold inherit_into. now intros ->. Qed.

Lemma fold_inherit_into_ext params : forall parent parent' ns' m,
  (forall p, In p params -> Dict.lookup p parent = Dict.lookup p parent') ->
  for_each params (inherit_into E parent ns') m
  = for_each params (inherit_into E parent' ns') m.
Proof.
  induction params as [|p ps IH]; intros parent parent' ns' m H; [reflexivity|].
  cbn [for_each]. rewrite (inherit_into_ext parent parent') by (apply H; now left).
  destruct (inherit_into E parent' ns' m p); cbn [bind]; [|reflexivity].
  apply IH. intros q Hq. apply H. now right.
Qed.

(** The inner loop, on the sub-mapping of one variable. *)
Lemma inner_loop_kind params ns d variable ns' : forall m,
  ~ In variable params ->
  for_each params (inherit_parameter E variable)
    (mapping ns (Dict.set variable (mapping ns' m) d))
  = (m' <- for_each params (inherit_into E d ns') m ;;
     Ok (mapping ns (Dict.set variable (mapping ns' m') d))).
Proof.
  induction params as [|p ps IH]; intros m Hv; [reflexivity|].
  cbn [for_each].
  rewrite (inherit_parameter_kind ns _ variable ns' m p)
    by apply DictFacts.lookup_set_same.
  rewrite (inherit_into_ext (Dict.set variable (mapping ns' m) d) d)
    by (apply DictFacts.lookup_set_other; intros ->; apply Hv; now left).
  destruct (inherit_into E d ns' m p) as [m1|]; cbn [bind]; [|reflexivity].
  rewrite ConvergenceFacts.set_set. apply IH. intros H. apply Hv. now right.
Qed.

(** The outer loop body, on a section of either kind: the variable ends up
    bound to its sub-mapping, of its kind, with the parameters inherited. *)
Lemma normalize_variable_kind ns d variable :
  ~ In variable convergence_parameters ->
  (forall x, Dict.lookup variable d = Some x -> is_mapping x = true) ->
  normalize_variable E (mapping ns d) variable
  = (m' <- for_each convergence_parameters
             (inherit_into E d (sub_kind ns d variable)) (sub_mapping d variable) ;;
     Ok (mapping ns (Dict.set variable (mapping (sub_kind ns d variable) m') d))).
Proof.
  intros Hv Hmap. unfold normalize_variable, sub_kind, sub_mapping.
  rewrite contains_mapping. cbn [bind]. unfold Dict.mem.
  destruct (Dict.lookup variable d) as [x|] eqn:Hx; cbn [negb bind].
  - pose proof (Hmap x eq_refl) as Hm.
    rewrite <- (DictFacts.set_same_value _ _ _ Hx) at 1.
    destruct x as [| | | | | |m|m]; try discriminate; cbn [is_namespace].
    + now apply (inner_loop_kind convergence_parameters ns d variable false).
    + now apply (inner_loop_kind convergence_parameters ns d variable true).
  - assert (store_subscript E (mapping ns d) variable (VDict [])
            = Ok (mapping ns (Dict.set variable (mapping ns []) d))) as ->.
    { destruct ns; [|reflexivity].
      cbn [mapping store_subscript]. unfold setitem, stored, coerce. rewrite Hx.
      reflexivity. }
    cbn [bind]. now apply inner_loop_kind.
Qed.

(** A variable bound to something that is not a mapping stops the loop. *)
Lemma normalize_variable_no_mapping ns d variable x :
  Dict.lookup variable d = Some x ->
  is_mapping x = false ->
  normalize_variable E (mapping ns d) variable = Raise AttributeError.
Proof.
  intros Hx Hm. unfold normalize_variable. rewrite contains_mapping. cbn [bind].
  unfold Dict.mem. rewrite Hx. cbn [negb bind convergence_parameters for_each].
  unfold inherit_parameter at 1. rewrite subscript_mapping, Hx. cbn [of_option bind].
  destruct x; try reflexivity; discriminate.
Qed.

(** What a sub-mapping holds once the inner loop is over. *)
Lemma inherit_into_lookup parent ns' m m' p q :
  inherit_into E parent ns' m p = Ok m' ->
  (q <> p -> Dict.lookup q m' = Dict.lookup q m) /\
  (lacks m p = true -> forall v, Dict.lookup p parent = Some v ->
     exists v', lowered E ns' v = Ok v' /\ Dict.lookup p m' = Some v') /\
  (lacks m p = false -> m' = m) /\
  (Dict.lookup p parent = None -> m' = m).
Proof.
  unfold inherit_into. intros H.
  destruct (lacks m p) eqn:Hl.
  - destruct (Dict.lookup p parent) as [v|] eqn:Hp.
    + destruct (lowered E ns' v) as [v'|] eqn:Hw; cbn [bind] in H; [|discriminate].
      injection H as <-. repeat split; try discriminate.
      * intros Hq. now apply DictFacts.lookup_set_other.
      * intros _ v0 [= <-]. exists v'. split; auto. apply DictFacts.lookup_set_same.
    + injection H as <-. repeat split; auto; try discriminate.
  - injection H as <-. repeat split; auto; try discriminate.
Qed.

Lemma inner_loop_lookup parent ns' params : forall m m',
  NoDup params ->
  for_each params (inherit_into E parent ns') m = Ok m' ->
  (forall q, ~ In q params -> Dict.lookup q m' = Dict.lookup q m) /\
  (forall q, In q params ->
     (lacks m q = true -> forall v, Dict.lookup q parent = Some v ->
        exists v', lowered E ns' v = Ok v' /\ Dict.lookup q m' = Some v') /\
     (lacks m q = false -> Dict.lookup q m' = Dict.lookup q m) /\
     (lacks m q = true -> Dict.lookup q parent = None ->
        Dict.lookup q m' = Dict.lookup q m)).
Proof.
  induction params as [|p ps IH]; intros m m' Hnd H.
  - injection H as <-. split; [reflexivity|]. intros q [].
  - inversion Hnd as [|? ? Hp Hps]; subst. cbn [for_each] in H.
    destruct (inherit_into E parent ns' m p) as [m1|] eqn:H1; cbn [bind] in H;
      [|discriminate].
    destruct (inherit_into_lookup parent ns' m m1 p p H1) as (_ & Hcopy & Hkeep & Hnone).
    destruct (IH m1 m' Hps H) as (Hout & Hin).
    assert (Hother : forall q, q <> p -> Dict.lookup q m1 = Dict.lookup q m).
    { intros q Hq.
      destruct (inherit_into_lookup parent ns' m m1 p q H1) as (Ho & _).
      exact (Ho Hq). }
    split.
    + intros q Hq. rewrite Hout by (intros Hin'; apply Hq; now right).
      apply Hother. intros ->. apply Hq. now left.
    + intros q [<-|Hq].
      * rewrite (Hout p Hp). repeat split.
        -- exact Hcopy.
        -- intros Hl. now rewrite (Hkeep Hl).
        -- intros _ Hn. now rewrite (Hnone Hn).
      * assert (q <> p) as Hqp by (intros ->; contradiction).
        assert (lacks m1 q = lacks m q) as Hlq
          by (unfold lacks; now rewrite (Hother q Hqp)).
        destruct (Hin q Hq) as (Ha & Hb & Hc). rewrite Hlq in *.
        rewrite (Hother q Hqp) in *. repeat split; assumption.
Qed.

(** The inner loop returns when every value it copies into a namespace can
    be stored. *)
Lemma inner_loop_total parent ns' params : forall m,
  NoDup params ->
  (forall p v, In p params -> lacks m p = true -> Dict.lookup p parent = Some v ->
     exists v', lowered E ns' v = Ok v') ->
  exists m', for_each params (inherit_into E parent ns') m = Ok m'.
Proof.
  induction params as [|p ps IH]; intros m Hnd H; [eexists; reflexivity|].
  inversion Hnd as [|? ? Hp Hps]; subst.
  cbn [for_each].
  assert (exists m1, inherit_into E parent ns' m p = Ok m1 /\
                     forall q, q <> p -> Dict.lookup q m1 = Dict.lookup q m)
    as (m1 & -> & Hother).
  { unfold inherit_into. destruct (lacks m p) eqn:Hl; [|eauto].
    destruct (Dict.lookup p parent) as [v|] eqn:Hv; [|eauto].
    destruct (H p v (or_introl eq_refl) Hl Hv) as [v' ->]. cbn [bind].
    eexists. split; [reflexivity|].
    intros q Hq. now apply DictFacts.lookup_set_other. }
  cbn [bind]. apply IH; [exact Hps|].
  intros q v Hq Hl. apply H; [now right|].
  unfold lacks in *. rewrite <- (Hother q); [exact Hl|].
  intros ->. contradiction.
Qed.

(** The outer loop over any list of distinct variables that are not
    parameter names. *)
Lemma outer_loop_kind ns variables : forall d,
  NoDup variables ->
  (forall v, In v variables -> ~ In v convergence_parameters) ->
  (forall v x, In v variables -> Dict.lookup v d = Some x -> is_mapping x = true) ->
  (forall v p x, In v variables -> In p convergence_parameters ->
     lacks (sub_mapping d v) p = true -> Dict.lookup p d = Some x ->
     exists x', lowered E (sub_kind ns d v) x = Ok x') ->
  exists d',
    for_each variables (normalize_variable E) (mapping ns d) = Ok (mapping ns d') /\
    (forall key, ~ In key variables -> Dict.lookup key d' = Dict.lookup key d) /\
    (forall v, In v variables ->
       exists m',
         Dict.lookup v d' = Some (mapping (sub_kind ns d v) m') /\
         for_each convergence_parameters (inherit_into E d (sub_kind ns d v))
           (sub_mapping d v) = Ok m').
Proof.
  induction variables as [|v vs IH]; intros d Hnd Hnp Hmap Hwrap.
  - exists d. split; [reflexivity|]. split; [reflexivity|]. intros v [].
  - inversion Hnd as [|? ? Hv Hvs]; subst. cbn [for_each].
    rewrite normalize_variable_kind
      by (try (apply Hnp; now left); intros x Hx; apply (Hmap v x); auto; now left).
    destruct (inner_loop_total d (sub_kind ns d v) convergence_parameters (sub_mapping d v)
                convergence_parameters_distinct)
      as [m1 Hm1].
    { intros p x Hp Hl Hx. apply (Hwrap v p x); auto. now left. }
    rewrite Hm1. cbn [bind].
    set (d1 := Dict.set v (mapping (sub_kind ns d v) m1) d).
    assert (Hframe : forall k, k <> v -> Dict.lookup k d1 = Dict.lookup k d).
    { intros k Hk. now apply DictFacts.lookup_set_other. }
    assert (Hkind : forall w, sub_kind ns d1 w = sub_kind ns d w).
    { intros w. apply sub_kind_set. }
    assert (Hparam : forall p, In p convergence_parameters ->
                               Dict.lookup p d1 = Dict.lookup p d).
    { intros p Hp. apply Hframe. intros ->. apply (Hnp v); auto. now left. }
    destruct (IH d1 Hvs) as (d' & Hrun & Hrest & Hvars).
    + intros w Hw. apply Hnp. now right.
    + intros w x Hw Hx. rewrite Hframe in Hx by (intros ->; contradiction).
      apply (Hmap w x); auto. now right.
    + intros w p x Hw Hp Hl Hx. rewrite Hkind.
      rewrite (Hparam p Hp) in Hx. apply (Hwrap w p x); auto; [now right|].
      unfold sub_mapping in *. rewrite Hframe in Hl; [exact Hl|].
      intros ->. contradiction.
    + exists d'. split; [exact Hrun|]. split.
      * intros key Hkey. rewrite Hrest by (intros H; apply Hkey; now right).
        apply Hframe. intros ->. apply Hkey. now left.
      * intros w [<-|Hw].
        -- exists m1. split; [|exact Hm1].
           rewrite Hrest by assumption. apply DictFacts.lookup_set_same.
        -- assert (w <> v) as Hwv by (intros ->; contradiction).
           destruct (Hvars w Hw) as (m' & Hl & Hm').
           exists m'. rewrite Hkind in *. split; [exact Hl|].
           rewrite (fold_inherit_into_ext convergence_parameters d1 d) in Hm'
             by exact Hparam.
           unfold sub_mapping in *. now rewrite Hframe in Hm' by assumption.
Qed.

(** The outer loop raises [AttributeError] when it meets a variable bound
    to something that is not a mapping. *)
Lemma outer_loop_no_mapping ns variables : forall d w x,
  NoDup variables ->
  (forall v, In v variables -> ~ In v convergence_parameters) ->
  (forall v p y, In v variables -> In p convergence_parameters ->
     lacks (sub_mapping d v) p = true -> Dict.lookup p d = Some y ->
     exists y', lowered E (sub_kind ns d v) y = Ok y') ->
  In w variables ->
  Dict.lookup w d = Some x ->
  is_mapping x = false ->
  for_each variables (normalize_variable E) (mapping ns d) = Raise AttributeError.
Proof.
  induction variables as [|v vs IH]; intros d w x Hnd Hnp Hwrap Hw Hx Hm; [contradiction|].
  inversion Hnd as [|? ? Hv Hvs]; subst.
  cbn [for_each].
  destruct (match Dict.lookup v d with Some y => is_mapping y | None => true end) eqn:Hgood.
  - rewrite normalize_variable_kind.
    2: { apply Hnp. now left. }
    2: { intros y Hy. now rewrite Hy in Hgood. }
    destruct (inner_loop_total d (sub_kind ns d v) convergence_parameters
                (sub_mapping d v) convergence_parameters_distinct) as [m1 Hm1].
    { intros p z Hp Hl Hz. apply (Hwrap v p z); auto. now left. }
    rewrite Hm1. cbn [bind].
    assert (w <> v) as Hwv by (intros ->; rewrite Hx in Hgood; congruence).
    destruct Hw as [->|Hw]; [congruence|].
    apply (IH _ w x).
    + exact Hvs.
    + intros u Hu. apply Hnp. now right.
    + intros u p z Hu Hp Hl Hz. rewrite sub_kind_set.
      assert (p <> v) as Hpv by (intros ->; apply (Hnp v); auto; now left).
      assert (u <> v) as Huv by (intros ->; contradiction).
      rewrite DictFacts.lookup_set_other in Hz by assumption.
      unfold sub_mapping in Hl. rewrite DictFacts.lookup_set_other in Hl by assumption.
      apply (Hwrap u p z); auto. now right.
    + exact Hw.
    + now rewrite DictFacts.lookup_set_other.
    + exact Hm.
  - destruct (Dict.lookup v d) as [y|] eqn:Hy; [|discriminate].
    now rewrite (normalize_variable_no_mapping ns d v y Hy Hgood).
Qed.

(** The outer loop, from the fact that it returned. *)
Lemma outer_loop_returned ns variables : forall d r,
  NoDup variables ->
  (forall v, In v variables -> ~ In v convergence_parameters) ->
  for_each variables (normalize_variable E) (mapping ns d) = Ok r ->
  exists d',
    r = mapping ns d' /\
    (forall key, ~ In key variables -> Dict.lookup key d' = Dict.lookup key d) /\
    (forall v, In v variables ->
       exists m',
         Dict.lookup v d' = Some (mapping (sub_kind ns d v) m') /\
         for_each convergence_parameters (inherit_into E d (sub_kind ns d v))
           (sub_mapping d v) = Ok m').
Proof.
  induction variables as [|v vs IH]; intros d r Hnd Hnp Hrun.
  - injection Hrun as <-. exists d. split; [reflexivity|]. split; [reflexivity|].
    intros v [].
  - inversion Hnd as [|? ? Hv Hvs]; subst. cbn [for_each] in Hrun.
    destruct (match Dict.lookup v d with Some y => is_mapping y | None => true end)
      eqn:Hgood.
    + rewrite normalize_variable_kind in Hrun.
      2: { apply Hnp. now left. }
      2: { intros y Hy. now rewrite Hy in Hgood. }
      destruct (for_each convergence_parameters (inherit_into E d (sub_kind ns d v))
                  (sub_mapping d v)) as [m1|] eqn:Hm1; cbn [bind] in Hrun; [|discriminate].
      set (d1 := Dict.set v (mapping (sub_kind ns d v) m1) d) in *.
      assert (Hframe : forall k, k <> v -> Dict.lookup k d1 = Dict.lookup k d).
      { intros k Hk. now apply DictFacts.lookup_set_other. }
      assert (Hparam : forall p, In p convergence_parameters ->
                                 Dict.lookup p d1 = Dict.lookup p d).
      { intros p Hp. apply Hframe. intros ->. apply (Hnp v); auto. now left. }
      destruct (IH d1 r Hvs) as (d' & -> & Hrest & Hvars).
      * intros w Hw. apply Hnp. now right.
      * exact Hrun.
      * exists d'. split; [reflexivity|]. split.
        -- intros key Hkey. rewrite Hrest by (intros H; apply Hkey; now right).
           apply Hframe. intros ->. apply Hkey. now left.
        -- intros w [<-|Hw].
           ++ exists m1. split; [|exact Hm1].
              rewrite Hrest by assumption. apply DictFacts.lookup_set_same.
           ++ assert (w <> v) as Hwv by (intros ->; contradiction).
              destruct (Hvars w Hw) as (m' & Hl & Hm').
              exists m'. unfold d1 in Hl, Hm'. rewrite sub_kind_set in Hl, Hm'.
              split; [exact Hl|].
              rewrite (fold_inherit_into_ext convergence_parameters d1 d) in Hm'
                by exact Hparam.
              unfold sub_mapping in *. fold d1 in Hm'.
              now rewrite Hframe in Hm' by assumption.
    + destruct (Dict.lookup v d) as [y|] eqn:Hy; [|discriminate].
      rewrite (normalize_variable_no_mapping ns d v y Hy Hgood) in Hrun. discriminate.
Qed.

(** The parameters a sub-mapping binds once the inner loop is over: those
    it bound, and those the section binds. *)
Lemma inner_loop_mem parent ns' m m' q :
  for_each convergence_parameters (inherit_into E parent ns') m = Ok m' ->
  In q convergence_parameters ->
  Dict.mem q m' = Dict.mem q m || Dict.mem q parent.
Proof.
  intros H Hq.
  destruct (inner_loop_lookup parent ns' convergence_parameters m m'
              convergence_parameters_distinct H) as (_ & Hin).
  destruct (Hin q Hq) as (Hcopy & Hkeep & Hnone). unfold Dict.mem.
  destruct (lacks m q) eqn:Hl.
  - destruct (Dict.lookup q parent) as [v|] eqn:Hp.
    + destruct (Hcopy eq_refl v eq_refl) as (v' & _ & ->). now rewrite orb_true_r.
    + rewrite (Hnone eq_refl eq_refl). now rewrite orb_false_r.
  - rewrite (Hkeep eq_refl). unfold lacks in Hl.
    destruct (Dict.lookup q m); [reflexivity|discriminate].
Qed.

(** [parse_convergence_section] on a section of either kind, from the fact
    that it returned. *)
Lemma parse_returned ns d r :
  parse_convergence_section E (mapping ns d) = Ok r ->
  exists d',
    r = mapping ns d' /\
    (forall key, ~ In key convergence_variables -> Dict.lookup key d' = Dict.lookup key d) /\
    (forall v, In v convergence_variables ->
       exists m',
         Dict.lookup v d' = Some (mapping (sub_kind ns d v) m') /\
         forall param, In param convergence_parameters ->
           Dict.mem param m' = Dict.mem param (sub_mapping d v) || Dict.mem param d).
Proof.
  intros Hrun.
  destruct (outer_loop_returned ns convergence_variables d r
              convergence_variables_distinct variable_is_no_parameter Hrun)
    as (d' & -> & Hrest & Hvars).
  exists d'. split; [reflexivity|]. split; [exact Hrest|].
  intros v Hv. destruct (Hvars v Hv) as (m' & Hl & Hm').
  exists m'. split; [exact Hl|].
  intros param Hp. exact (inner_loop_mem _ _ _ _ _ Hm' Hp).
Qed.

End Kinds.

End KindFacts.

(** C2, as the code has it.  The convergence section is a mapping of
    either kind, a plain dict or a namespace, and so is each sub-mapping;
    every value that has to be copied into a sub-mapping that is a namespace
    can be stored there (a namespace stores through [__setitem__], which
    makes a namespace of a plain dict; anything else is stored as it is, and
    so is everything in a plain dict).
    - If every convergence variable that is bound is bound to a mapping,
      [parse_convergence_section] returns the section, of the same kind;
      each of the four variables is then bound to a sub-mapping, of the kind
      it had (a new one is of the kind of the section), and for each of the
      three parameters: a sub-mapping that lacked it (not bound, or bound to
      None) holds what it stores for the value the section binds it to, when
      the section binds it; a sub-mapping that had a value for it still
      holds that value; and where neither has it nothing changes.  The other
      bindings of the section are what they were.
    - If one of the variables is bound to something that is not a mapping,
      [parse_convergence_section] raises [AttributeError]. *)
Theorem parse_convergence_section_inherits (E : externals) (ns : bool) (d : bindings) :
  (forall variable param v,
     In variable convergence_variables -> In param convergence_parameters ->
     lacks (sub_mapping d variable) param = true ->
     Dict.lookup param d = Some v ->
     exists v', lowered E (sub_kind ns d variable) v = Ok v') ->
  ((forall variable x, In variable convergence_variables ->
      Dict.lookup variable d = Some x -> is_mapping x = true) ->
   exists d',
     parse_convergence_section E (mapping ns d) = Ok (mapping ns d') /\
     (forall key, ~ In key convergence_variables -> Dict.lookup key d' = Dict.lookup key d) /\
     (forall variable, In variable convergence_variables ->
        exists m',
          Dict.lookup variable d' = Some (mapping (sub_kind ns d variable) m') /\
          forall param, In param convergence_parameters ->
            let m := sub_mapping d variable in
            (lacks m param = true ->
               forall v, Dict.lookup param d = Some v ->
                 exists v', lowered E (sub_kind ns d variable) v = Ok v' /\
                            Dict.lookup param m' = Some v') /\
            (lacks m param = false -> Dict.lookup param m' = Dict.lookup param m) /\
            (lacks m param = true -> Dict.lookup param d = None ->
               Dict.lookup param m' = Dict.lookup param m)))
  /\
  (forall variable x, In variable convergence_variables ->
     Dict.lookup variable d = Some x -> is_mapping x = false ->
     parse_convergence_section E (mapping ns d) = Raise AttributeError).
Proof.
  intros Hwrap. split.
  - intros Hmap.
    destruct (KindFacts.outer_loop_kind E ns convergence_variables d
                convergence_variables_distinct variable_is_no_parameter Hmap Hwrap)
      as (d' & Hrun & Hrest & Hvars).
    exists d'. split; [exact Hrun|]. split; [exact Hrest|].
    intros variable Hv. destruct (Hvars variable Hv) as (m' & Hl & Hm').
    exists m'. split; [exact Hl|].
    intros param Hp m.
    destruct (KindFacts.inner_loop_lookup E d _ convergence_parameters _ _
                convergence_parameters_distinct Hm') as (_ & Hin).
    exact (Hin param Hp).
  - intros variable x Hv Hx Hm. unfold parse_convergence_section.
    exact (KindFacts.outer_loop_no_mapping E ns convergence_variables d variable x
             convergence_variables_distinct variable_is_no_parameter Hwrap Hv Hx Hm).
Qed.

Lemma parse_convergence_section_inherits_witness :
  exists d',
    parse_convergence_section lab (VNS damped_namespace) = Ok (VNS d') /\
    (exists m', Dict.lookup "t_inner" d' = Some (VNS m') /\
                Dict.lookup "threshold" m' = Some (VNum 0.01)) /\
    (exists m', Dict.lookup "w" d' = Some (VNS m') /\
                Dict.lookup "threshold" m' = Some (VNum 0.05)).
Proof.
  destruct (parse_convergence_section_inherits lab true damped_namespace) as [Hreturns _].
  - intros variable param v Hv Hp _ Hl. simpl in Hp.
    repeat destruct Hp as [Hp|Hp]; try contradiction; subst param;
      simpl in Hl; try discriminate; injection Hl as <-;
      destruct (sub_kind true damped_namespace variable); simpl; eauto.
  - destruct Hreturns as (d' & Hrun & _ & Hvars).
    + intros variable x Hv Hx. simpl in Hv.
      repeat destruct Hv as [Hv|Hv]; try contradiction; subst variable;
        simpl in Hx; try discriminate.
      now injection Hx as <-.
    + exists d'. split; [exact Hrun|]. split.
      * destruct (Hvars "t_inner") as (m' & Hm & Hp); [simpl; auto|].
        exists m'. split; [exact Hm|].
        destruct (Hp "threshold") as (_ & Hkeep & _); [simpl; auto|].
        exact (Hkeep eq_refl).
      * destruct (Hvars "w") as (m' & Hm & Hp); [simpl; auto 6|].
        exists m'. split; [exact Hm|].
        destruct (Hp "threshold") as (Hcopy & _); [simpl; auto|].
        destruct (Hcopy eq_refl _ eq_refl) as (v' & Hv' & Hl).
        injection Hv' as <-. exact Hl.
Defined.

(** With [t_inner] bound to a number the normalization does not return a
    section: it raises [AttributeError] at [.get]. *)
Example parse_convergence_section_number_raises :
  Dict.lookup "type" numeric_t_inner = Some (VStr "damped") /\
  parse_convergence_section lab (VDict numeric_t_inner) = Raise AttributeError /\
  parse_convergence_section lab (VNS numeric_t_inner) = Raise AttributeError.
Proof. repeat split. Qed.

(** ** Building a namespace *)

(** Induction over values, through the lists and the mappings. *)
Section ValueInduction.

Variable P : value -> Prop.
Hypothesis HNone : P VNone.
Hypothesis HBool : forall b, P (VBool b).
Hypothesis HNum : forall x, P (VNum x).
Hypothesis HStr : forall s, P (VStr s).
Hypothesis HQuantity : forall m u, P (VQuantity m u).
Hypothesis HList : forall l, Forall P l -> P (VList l).
Hypothesis HDict : forall d, Forall (fun kv => P (snd kv)) d -> P (VDict d).
Hypothesis HNS : forall d, Forall (fun kv => P (snd kv)) d -> P (VNS d).

Fixpoint value_induction (v : value) : P v :=
  match v with
  | VNone => HNone
  | VBool b => HBool b
  | VNum x => HNum x
  | VStr s => HStr s
  | VQuantity m u => HQuantity m u
  | VList l =>
      HList l ((fix all (l : list value) : Forall P l :=
                match l with
                | [] => Forall_nil _
                | x :: t => Forall_cons x (value_induction x) (all t)
                end) l)
  | VDict d =>
      HDict d ((fix all (d : bindings) : Forall (fun kv => P (snd kv)) d :=
                match d with
                | [] => Forall_nil _
                | kv :: t => Forall_cons kv (value_induction (snd kv)) (all t)
                end) d)
  | VNS d =>
      HNS d ((fix all (d : bindings) : Forall (fun kv => P (snd kv)) d :=
              match d with
              | [] => Forall_nil _
              | kv :: t => Forall_cons kv (value_induction (snd kv)) (all t)
              end) d)
  end.

End ValueInduction.

Section Building.

Variable E : externals.

(** [wrap] of a plain dict is the constructor call of the source. *)
Lemma wrap_dict d :
  wrap E (VDict d)
  = (self <- ConfigurationNameSpace E (VDict d) ;; Ok (VNS self)).
Proof.
  cbn [wrap ConfigurationNameSpace].
  assert (Hfill : forall items self,
    (fix fill (items self : bindings) {struct items} : result bindings :=
       match items with
       | [] => Ok self
       | (k, v) :: rest =>
           if Dict.mem k self then fill rest self
           else v1 <- wrap E v ;; v2 <- coerce E self k v1 ;; fill rest (Dict.set k v2 self)
       end) items self = fill E items self).
  { induction items as [|[k v] rest IH]; intros self; [reflexivity|].
    cbn [fill]. destruct (Dict.mem k self); [apply IH|].
    unfold setitem, stored.
    destruct (wrap E v) as [v1|]; cbn [bind]; [|reflexivity].
    destruct (coerce E self k v1) as [v2|]; cbn [bind]; [|reflexivity].
    apply IH. }
  rewrite Hfill.
  destruct (fill E d []) as [self|]; cbn [bind]; [|reflexivity].
  destruct (init_tail E self); reflexivity.
Qed.

(** A key that [self] does not bind yet is stored as [wrap] leaves it. *)
Lemma stored_fresh self key x :
  Dict.mem key self = false -> stored E self key x = wrap E x.
Proof.
  intros H. unfold stored, coerce. apply DictFacts.mem_false in H. rewrite H.
  now destruct (wrap E x).
Qed.

(** What the loop of [__init__] leaves in [self]: the bindings [self] had,
    and each key of [items] it did not have, bound to what [wrap] makes of
    the first value [items] binds it to. *)
Lemma fill_lookup items : forall self self',
  fill E items self = Ok self' ->
  forall key,
    match Dict.lookup key self with
    | Some v => Dict.lookup key self' = Some v
    | None =>
        match Dict.lookup key items with
        | Some x => exists v, wrap E x = Ok v /\ Dict.lookup key self' = Some v
        | None => Dict.lookup key self' = None
        end
    end.
Proof.
  induction items as [|[k x] rest IH]; intros self self' Hfill key.
  - injection Hfill as <-. destruct (Dict.lookup key self); reflexivity.
  - cbn [fill] in Hfill. cbn [Dict.lookup].
    destruct (Dict.mem k self) eqn:Hmem.
    + specialize (IH _ _ Hfill key).
      destruct (Dict.lookup key self) eqn:Hkey; [exact IH|].
      destruct (String.eqb key k) eqn:Hk; [|exact IH].
      apply String.eqb_eq in Hk. subst k.
      apply DictFacts.mem_lookup in Hmem as [v Hv]. congruence.
    + unfold setitem in Hfill. rewrite (stored_fresh _ _ x Hmem) in Hfill.
      destruct (wrap E x) as [v|] eqn:Hw; [|discriminate].
      specialize (IH _ _ Hfill key).
      destruct (String.eqb key k) eqn:Hk.
      * apply String.eqb_eq in Hk. subst k.
        rewrite DictFacts.lookup_set_same in IH.
        apply DictFacts.mem_false in Hmem. rewrite Hmem. eauto.
      * apply String.eqb_neq in Hk.
        now rewrite DictFacts.lookup_set_other in IH by assumption.
Qed.

Lemma fill_mem items self' key :
  fill E items [] = Ok self' -> Dict.mem key self' = Dict.mem key items.
Proof.
  intros H. pose proof (fill_lookup _ _ _ H key) as Hk. cbn [Dict.lookup] in Hk.
  unfold Dict.mem. destruct (Dict.lookup key items).
  - destruct Hk as (w & _ & ->). reflexivity.
  - now rewrite Hk.
Qed.

(** [init_tail] keeps every binding it finds. *)
Lemma init_tail_lookup self self' key v :
  init_tail E self = Ok self' ->
  Dict.lookup key self = Some v -> Dict.lookup key self' = Some v.
Proof.
  unfold init_tail. intros H Hk.
  destruct (Dict.mem "csvy_model" self) eqn:Hc; cbn [andb] in H.
  - destruct (Dict.mem "model" self) eqn:Hm; [discriminate|].
    inv_bind H. inv_bind H. destruct x; try discriminate.
    destruct x0; try discriminate. inv_bind H. injection H as <-.
    rewrite DictFacts.lookup_set_other; auto.
    intros ->. apply DictFacts.mem_false in Hm. congruence.
  - injection H as <-. exact Hk.
Qed.

(** A key of a plain dict, after the dict was stored in a namespace. *)
Lemma wrap_dict_lookup d v key x :
  wrap E (VDict d) = Ok v ->
  Dict.lookup key d = Some x ->
  exists self x', v = VNS self /\ wrap E x = Ok x' /\ Dict.lookup key self = Some x'.
Proof.
  rewrite wrap_dict. cbn [ConfigurationNameSpace]. intros H Hk.
  destruct (fill E d []) as [self|] eqn:Hfill; cbn [bind] in H; [|discriminate].
  destruct (init_tail E self) as [self'|] eqn:Htail; cbn [bind] in H; [|discriminate].
  injection H as <-.
  pose proof (fill_lookup _ _ _ Hfill key) as Hf. cbn [Dict.lookup] in Hf. rewrite Hk in Hf.
  destruct Hf as (x' & Hw & Hl).
  exists self', x'. repeat split; auto. eapply init_tail_lookup; eauto.
Qed.

End Building.

(** ** Stored values *)

Section Stored.

Variable E : externals.

Lemma all_converted_set self key v :
  all_converted self = true -> converted v = true ->
  all_converted (Dict.set key v self) = true.
Proof.
  intros Hs Hv. induction self as [|[k x] self IH]; simpl in *.
  - now rewrite Hv.
  - apply andb_prop in Hs as [Hx Hs].
    destruct (String.eqb key k); simpl.
    + now rewrite Hv, Hs.
    + now rewrite Hx, IH.
Qed.

Lemma all_converted_lookup self key v :
  all_converted self = true -> Dict.lookup key self = Some v -> converted v = true.
Proof.
  intros Hs. induction self as [|[k x] self IH]; simpl in *; [discriminate|].
  apply andb_prop in Hs as [Hx Hs].
  destruct (String.eqb key k).
  - now intros [= <-].
  - now apply IH.
Qed.

Lemma converted_not_dict v : converted v = true -> forall d, v <> VDict d.
Proof. intros H d ->. discriminate. Qed.

Lemma coerce_converted self key v v' :
  converted v = true -> coerce E self key v = Ok v' -> converted v' = true.
Proof.
  unfold coerce. intros Hv H.
  destruct (Dict.lookup key self) as [old|]; [|now injection H as <-].
  destruct (attr_unit E old) as [unit|]; [|now injection H as <-].
  inv_bind H. destruct (Quantity_unit _ _ _ _ H) as [m ->]. reflexivity.
Qed.

Hypothesis csvy_model_converted :
  forall dir name model, csvy_model_section E dir name = Ok model -> all_converted model = true.

Lemma init_tail_converted self self' :
  all_converted self = true -> init_tail E self = Ok self' -> all_converted self' = true.
Proof.
  unfold init_tail. intros Hs H.
  destruct (Dict.mem "csvy_model" self && Dict.mem "model" self); [discriminate|].
  destruct (Dict.mem "csvy_model" self); [|now injection H as <-].
  inv_bind H. inv_bind H. destruct x; try discriminate.
  destruct x0; try discriminate. inv_bind H. injection H as <-.
  apply all_converted_set; auto. simpl. eapply csvy_model_converted; eauto.
Qed.

Lemma fill_converted items : forall self self',
  Forall (fun kv => forall v, wrap E (snd kv) = Ok v -> converted v = true) items ->
  all_converted self = true ->
  fill E items self = Ok self' -> all_converted self' = true.
Proof.
  induction items as [|[k x] rest IH]; intros self self' Hall Hs Hfill.
  - now injection Hfill as <-.
  - inversion Hall as [|? ? Hx Hrest]; subst. cbn [fill] in Hfill.
    destruct (Dict.mem k self) eqn:Hmem; [now apply (IH self self')|].
    unfold setitem in Hfill. rewrite (stored_fresh _ _ _ x Hmem) in Hfill.
    destruct (wrap E x) as [v|] eqn:Hw; [|discriminate].
    apply (IH (Dict.set k v self) self'); auto.
    apply all_converted_set; auto.
Qed.

(** What [wrap] returns is fit to be stored. *)
Lemma wrap_converted x : forall v,
  incoming x = true -> wrap E x = Ok v -> converted v = true.
Proof.
  induction x as [| | | | |l IH|d IH|d IH] using value_induction;
    intros v Hin Hw; try (injection Hw as <-; reflexivity).
  - rewrite wrap_dict in Hw. cbn [ConfigurationNameSpace] in Hw.
    destruct (fill E d []) as [self|] eqn:Hfill; cbn [bind] in Hw; [|discriminate].
    destruct (init_tail E self) as [self'|] eqn:Htail; cbn [bind] in Hw; [|discriminate].
    injection Hw as <-.
    change (all_converted self' = true).
    apply (init_tail_converted self self'); [|exact Htail].
    apply (fill_converted d [] self); [|reflexivity|exact Hfill].
    cbn [incoming] in Hin. rewrite forallb_forall in Hin.
    rewrite Forall_forall in IH |- *.
    intros kv Hkv w Hw. apply (IH kv Hkv w); auto.
  - injection Hw as <-. exact Hin.
Qed.

Lemma stored_converted self key x v :
  incoming x = true -> stored E self key x = Ok v -> converted v = true.
Proof.
  unfold stored. intros Hin H. inv_bind H.
  eapply coerce_converted; eauto. eapply wrap_converted; eauto.
Qed.

Lemma setitem_converted self key x :
  all_converted self = true -> incoming x = true ->
  all_converted (after (setitem E self key x)) = true.
Proof.
  intros Hs Hin. unfold setitem.
  destruct (stored E self key x) as [v|] eqn:Hst; cbn [after]; auto.
  apply all_converted_set; auto. eapply stored_converted; eauto.
Qed.

Lemma construction_converted x self :
  incoming x = true -> ConfigurationNameSpace E x = Ok self -> all_converted self = true.
Proof.
  intros Hin H.
  assert (Hd : forall d, forallb (fun kv => incoming (snd kv)) d = true ->
                 (self0 <- fill E d [] ;; init_tail E self0) = Ok self ->
                 all_converted self = true).
  { intros d Hd Hrun.
    destruct (fill E d []) as [self0|] eqn:Hfill; cbn [bind] in Hrun; [|discriminate].
    apply (init_tail_converted self0 self); [|exact Hrun].
    apply (fill_converted d [] self0); [|reflexivity|exact Hfill].
    rewrite forallb_forall in Hd. rewrite Forall_forall.
    intros kv Hkv w Hw.
    apply (wrap_converted (snd kv) w); [exact (Hd kv Hkv)|exact Hw]. }
  destruct x; try discriminate.
  - cbn in H. now injection H as <-.
  - apply (Hd d); auto.
  - apply (Hd d); auto. cbn [incoming] in Hin.
    rewrite forallb_forall in Hin |- *. intros kv Hkv.
    specialize (Hin kv Hkv). destruct (snd kv); auto; discriminate.
Qed.

Lemma set_path_converted path : forall self x,
  all_converted self = true -> incoming x = true ->
  all_converted (after (set_config_item_path E self path x)) = true.
Proof.
  induction path as [|head rest IH]; intros self x Hs Hin; [exact Hs|].
  destruct rest as [|second more].
  - now apply setitem_converted.
  - destruct (is_item_path (head :: second :: more)) eqn:Hitem.
    + assert (more = [] /\ Str.startswith "item" second = true) as [-> Hsw].
      { simpl in Hitem. destruct more; [auto|discriminate]. }
      rewrite set_item by assumption.
      match goal with |- context [match ?c with Ok _ => _ | Raise _ => _ end] =>
        destruct c as [x'|] eqn:Hrun end; cbn [after raising]; auto.
      apply all_converted_set; auto.
      inv_bind Hrun. inv_bind Hrun. inv_bind Hrun. inv_bind Hrun.
      destruct x0; try discriminate. cbn [store_index] in Hrun.
      inv_bind Hrun. now injection Hrun as <-.
    + rewrite set_delegate by assumption.
      destruct (getitem self head) as [child|] eqn:Hg; cbn [after raising]; auto.
      destruct child; cbn [after raising]; auto.
      apply all_converted_set; auto.
      change (all_converted (after (set_config_item_path E d (second :: more) x)) = true).
      apply IH; auto.
      unfold getitem in Hg. destruct (Dict.lookup head self) eqn:Hl; [|discriminate].
      injection Hg as ->. exact (all_converted_lookup _ _ _ Hs Hl).
Qed.

Lemma get_path_converted path : forall self v,
  all_converted self = true -> ends_in_item path = false ->
  get_config_item_path self path = Ok v -> converted v = true.
Proof.
  induction path as [|head rest IH]; intros self v Hs He Hget; [discriminate|].
  cbn [ends_in_item] in He. apply orb_false_iff in He as [Hitem Hrest].
  destruct rest as [|second more].
  - rewrite get_single in Hget. unfold getitem in Hget.
    destruct (Dict.lookup head self) eqn:Hl; [|discriminate].
    injection Hget as ->. exact (all_converted_lookup _ _ _ Hs Hl).
  - rewrite get_delegate in Hget by assumption.
    inv_bind Hget. destruct x; try discriminate.
    apply (IH d v); auto.
    unfold getitem in Hx. destruct (Dict.lookup head self) eqn:Hl; [|discriminate].
    injection Hx as ->. exact (all_converted_lookup _ _ _ Hs Hl).
Qed.

End Stored.

(** C8, as the code has it.  Every value a namespace holds under a key is
    converted: it is no plain dict, and if it is a namespace the same holds
    of its values, to any depth.  Construction from a mapping, assignment to
    a key and [set_config_item] establish and keep this, so that reading a
    key, or a path of keys, never yields a plain dict.  Lists are stored and
    assigned into as they are: nothing is said of their elements, and a path
    that ends in [itemN] is left out.  (The values that come in are plain
    data or namespaces built by this class; the namespace of the CSVY model
    is built by this class too.) *)
Theorem stored_mappings_are_converted (E : externals) :
  (forall dir name model,
     csvy_model_section E dir name = Ok model -> converted (VNS model) = true) ->
  (forall x self,
     incoming x = true -> ConfigurationNameSpace E x = Ok self ->
     converted (VNS self) = true)
  /\
  (forall self key x,
     converted (VNS self) = true -> incoming x = true ->
     converted (VNS (after (setitem E self key x))) = true)
  /\
  (forall self path x,
     converted (VNS self) = true -> incoming x = true ->
     converted (VNS (after (set_config_item E self path x))) = true)
  /\
  (forall self key v,
     converted (VNS self) = true -> getitem self key = Ok v ->
     forall d, v <> VDict d)
  /\
  (forall self path v,
     converted (VNS self) = true -> ends_in_item (Str.split "." path) = false ->
     get_config_item self path = Ok v ->
     forall d, v <> VDict d).
Proof.
  intros Hcsvy. repeat apply conj.
  - intros x self Hin H. exact (construction_converted E Hcsvy x self Hin H).
  - intros self key x Hs Hin. exact (setitem_converted E Hcsvy self key x Hs Hin).
  - intros self path x Hs Hin. exact (set_path_converted E Hcsvy _ self x Hs Hin).
  - intros self key v Hs Hg. apply converted_not_dict.
    unfold getitem in Hg. destruct (Dict.lookup key self) eqn:Hl; [|discriminate].
    injection Hg as ->. exact (all_converted_lookup self key v Hs Hl).
  - intros self path v Hs He Hg. apply converted_not_dict.
    exact (get_path_converted _ self v Hs He Hg).
Qed.

Lemma stored_mappings_are_converted_witness :
  exists self,
    ConfigurationNameSpace lab nested_document = Ok self /\
    converted (VNS self) = true /\
    get_config_item self "plasma.nlte" = Ok (VNS [("species", VList [VStr "He"])]).
Proof.
  assert (Hcsvy : forall dir name model,
            csvy_model_section lab dir name = Ok model -> converted (VNS model) = true).
  { intros dir name model. cbn [csvy_model_section lab].
    destruct (String.eqb name "model.csvy"); [|discriminate].
    intros [= <-]. reflexivity. }
  destruct (ConfigurationNameSpace lab nested_document) as [self|] eqn:Hrun;
    [|discriminate Hrun].
  exists self. split; [reflexivity|]. split.
  - exact (proj1 (@stored_mappings_are_converted lab Hcsvy) nested_document self eq_refl Hrun).
  - injection Hrun as <-. reflexivity.
Defined.

(** C8 as stated fails: a plain dict inside a list is stored as it is and a
    path read returns it; a path set that ends in [itemN] stores a plain
    dict as it is. *)
Lemma plain_dict_in_sequence :
  ConfigurationNameSpace lab (VDict [("shells", VList [VDict [("O", VNum 0.19)]])])
  = Ok [("shells", VList [VDict [("O", VNum 0.19)]])] /\
  get_config_item [("shells", VList [VDict [("O", VNum 0.19)]])] "shells.item0"
  = Ok (VDict [("O", VNum 0.19)]) /\
  set_config_item lab [("shells", VList [VNum 1])] "shells.item0" (VDict [("C", VNum 1)])
  = {| after := [("shells", VList [VDict [("C", VNum 1)]])]; raised := None |}.
Proof. repeat split. Qed.

(** ** Mutual exclusion of [model] and [csvy_model] *)

Section Exclusion.

Variable E : externals.

Lemma fill_total items : forall self,
  Forall (fun kv => exists v, wrap E (snd kv) = Ok v) items ->
  exists self', fill E items self = Ok self'.
Proof.
  induction items as [|[k x] rest IH]; intros self Hall; [eexists; reflexivity|].
  inversion Hall as [|? ? [v Hv] Hrest]; subst. cbn [fill].
  destruct (Dict.mem k self) eqn:Hmem; [now apply IH|].
  unfold setitem. rewrite (stored_fresh E self k x Hmem).
  cbn [snd] in Hv. rewrite Hv. now apply IH.
Qed.

(** Storing a value in which no nested dict names a CSVY model succeeds. *)
Lemma wrap_csvy_free x : csvy_free x = true -> exists v, wrap E x = Ok v.
Proof.
  induction x as [| | | | |l IH|d IH|d IH] using value_induction;
    intros Hfree; try (eexists; reflexivity).
  cbn [csvy_free] in Hfree. apply andb_prop in Hfree as [Hno Hall].
  apply negb_true_iff in Hno.
  rewrite wrap_dict. cbn [ConfigurationNameSpace].
  destruct (fill_total d []) as [self Hfill].
  { rewrite forallb_forall in Hall. rewrite Forall_forall in IH |- *.
    intros kv Hkv. apply (IH kv Hkv). exact (Hall kv Hkv). }
  rewrite Hfill. cbn [bind]. unfold init_tail.
  rewrite (fill_mem E d self "csvy_model" Hfill), Hno. cbn [andb bind].
  eexists; reflexivity.
Qed.

Lemma both_keys_raise d self :
  Dict.mem "model" d = true -> Dict.mem "csvy_model" d = true ->
  fill E d [] = Ok self ->
  ConfigurationNameSpace E (VDict d) = Raise (ValueError BothModelAndCsvyModel).
Proof.
  intros Hm Hc Hfill. cbn [ConfigurationNameSpace]. rewrite Hfill. cbn [bind].
  unfold init_tail.
  now rewrite (fill_mem E d self "csvy_model" Hfill), (fill_mem E d self "model" Hfill), Hm, Hc.
Qed.

End Exclusion.

(** C6, as the code has it.  A raw document that binds both "model" and
    "csvy_model" never yields a namespace.  Its entries are stored first: if
    that succeeds the constructor raises the mutual-exclusion error, and it
    does succeed whenever no mapping nested in the entries binds
    "csvy_model" itself; if storing an entry fails, that failure is what the
    constructor raises. *)
Theorem model_and_csvy_model_exclusive (E : externals) (d : bindings) :
  Dict.mem "model" d = true ->
  Dict.mem "csvy_model" d = true ->
  (exists e, ConfigurationNameSpace E (VDict d) = Raise e)
  /\
  (forall self, fill E d [] = Ok self ->
     ConfigurationNameSpace E (VDict d) = Raise (ValueError BothModelAndCsvyModel))
  /\
  (forallb (fun kv => csvy_free (snd kv)) d = true ->
     ConfigurationNameSpace E (VDict d) = Raise (ValueError BothModelAndCsvyModel))
  /\
  (forall e, fill E d [] = Raise e -> ConfigurationNameSpace E (VDict d) = Raise e).
Proof.
  intros Hm Hc.
  assert (Hok : forall self, fill E d [] = Ok self ->
            ConfigurationNameSpace E (VDict d) = Raise (ValueError BothModelAndCsvyModel)).
  { intros self. now apply both_keys_raise. }
  assert (Hfail : forall e, fill E d [] = Raise e ->
            ConfigurationNameSpace E (VDict d) = Raise e).
  { intros e He. cbn [ConfigurationNameSpace]. now rewrite He. }
  repeat apply conj; auto.
  - destruct (fill E d []) as [self|e] eqn:Hfill; eauto.
  - intros Hfree. destruct (fill_total E d []) as [self Hfill]; eauto.
    rewrite forallb_forall in Hfree. rewrite Forall_forall.
    intros kv Hkv. apply wrap_csvy_free. exact (Hfree kv Hkv).
Qed.

Lemma model_and_csvy_model_exclusive_witness :
  ConfigurationNameSpace lab (VDict both_sources) = Raise (ValueError BothModelAndCsvyModel).
Proof.
  exact (proj1 (proj2 (proj2
    (@model_and_csvy_model_exclusive lab both_sources eq_refl eq_refl))) eq_refl).
Defined.

(** C6 as stated fails: here the "model" entry is itself a mapping that
    names a CSVY model and has no "config_dirname"; building its namespace
    fails first, with the attribute error of [self.config_dirname]. *)
Lemma exclusion_depends_on_contents :
  Dict.mem "model" [("model", VDict [("csvy_model", VStr "inner.csvy")]);
                    ("csvy_model", VStr "model.csvy")] = true /\
  Dict.mem "csvy_model" [("model", VDict [("csvy_model", VStr "inner.csvy")]);
                         ("csvy_model", VStr "model.csvy")] = true /\
  ConfigurationNameSpace lab
    (VDict [("model", VDict [("csvy_model", VStr "inner.csvy")]);
            ("csvy_model", VStr "model.csvy")])
  = Raise AttributeError.
Proof. repeat split. Qed.

(** ** The convergence strategy of an accepted configuration *)

Section Facade.

Variable E : externals.

Lemma plain_lookup d key x :
  plain (VDict d) = true -> Dict.lookup key d = Some x -> plain x = true.
Proof.
  cbn [plain]. induction d as [|[k y] d IH]; simpl; [discriminate|].
  intros H. apply andb_prop in H as [Hy Hd].
  destruct (String.eqb key k); [now intros [= <-]|now apply IH].
Qed.

Lemma plain_set d key x :
  plain (VDict d) = true -> plain x = true -> plain (VDict (Dict.set key x d)) = true.
Proof.
  cbn [plain]. induction d as [|[k y] d IH]; simpl; intros H Hx.
  - now rewrite Hx.
  - apply andb_prop in H as [Hy Hd]. destruct (String.eqb key k); simpl.
    + now rewrite Hx, Hd.
    + now rewrite Hy, IH.
Qed.

Lemma plain_subscript x key y :
  plain x = true -> subscript x key = Ok y ->
  exists d, x = VDict d /\ Dict.lookup key d = Some y /\ plain y = true.
Proof.
  destruct x; try discriminate. intros Hp H. cbn [subscript] in H.
  destruct (Dict.lookup key d) eqn:Hl; [|discriminate]. injection H as ->.
  exists d. repeat split; auto. eapply plain_lookup; eauto.
Qed.

Lemma plain_fold_inherited d params : forall m,
  plain (VDict d) = true -> plain (VDict m) = true ->
  plain (VDict (fold_left (inherited d) params m)) = true.
Proof.
  induction params as [|p ps IH]; intros m Hd Hm; [exact Hm|].
  cbn [fold_left]. apply IH; auto. unfold inherited.
  destruct (lacks m p); auto.
  destruct (Dict.lookup p d) as [y|] eqn:Hy; auto.
  apply plain_set; [exact Hm|exact (plain_lookup d p y Hd Hy)].
Qed.

(** A variable bound to something that is not a mapping stops the loop. *)
Lemma normalize_variable_not_mapping d variable x :
  Dict.lookup variable d = Some x ->
  (forall m, x <> VDict m) -> (forall m, x <> VNS m) ->
  normalize_variable E (VDict d) variable = Raise AttributeError.
Proof.
  intros Hx Hd Hn. unfold normalize_variable. cbn [contains bind]. unfold Dict.mem.
  rewrite Hx. cbn [negb bind convergence_parameters for_each].
  unfold inherit_parameter at 1. cbn [subscript]. rewrite Hx. cbn [of_option bind].
  destruct x; try reflexivity.
  - now destruct (Hd d0).
  - now destruct (Hn d0).
Qed.

(** If the loop runs to its end on plain data, the variables that were
    bound were bound to plain dicts. *)
Lemma outer_loop_subs variables : forall d r,
  NoDup variables ->
  (forall v, In v variables -> ~ In v convergence_parameters) ->
  plain (VDict d) = true ->
  for_each variables (normalize_variable E) (VDict d) = Ok r ->
  forall v x, In v variables -> Dict.lookup v d = Some x -> exists m, x = VDict m.
Proof.
  induction variables as [|v vs IH]; intros d r Hnd Hnp Hplain Hrun w x Hw Hx;
    [contradiction|].
  inversion Hnd as [|? ? Hv Hvs]; subst.
  assert (Hhead : forall y, Dict.lookup v d = Some y -> exists m, y = VDict m).
  { intros y Hy. pose proof (plain_lookup _ _ _ Hplain Hy) as Hpy.
    destruct y; try discriminate Hpy; eauto;
      cbn [for_each] in Hrun;
      rewrite (normalize_variable_not_mapping _ _ _ Hy) in Hrun by discriminate;
      discriminate Hrun. }
  destruct Hw as [<-|Hw]; [now apply Hhead|].
  cbn [for_each] in Hrun.
  rewrite ConvergenceFacts.normalize_variable_plain in Hrun
    by (try (apply Hnp; now left); exact Hhead).
  cbn [bind] in Hrun.
  apply (IH (Dict.set v (VDict (normalized_sub d v)) d) r Hvs) with (v := w); auto.
  - intros u Hu. apply Hnp. now right.
  - apply plain_set; auto. unfold normalized_sub.
    apply plain_fold_inherited; auto.
    unfold sub_mapping. destruct (Dict.lookup v d) as [y|] eqn:Hy; [|reflexivity].
    pose proof (plain_lookup _ _ _ Hplain Hy) as Hpy.
    destruct y; try reflexivity; auto; discriminate.
  - rewrite DictFacts.lookup_set_other; auto. intros ->. contradiction.
Qed.

(** [parse_convergence_section] on plain data, from the fact that it
    returned. *)
Lemma parse_plain d r :
  plain (VDict d) = true ->
  parse_convergence_section E (VDict d) = Ok r ->
  exists d',
    r = VDict d' /\
    (forall key, ~ In key convergence_variables -> Dict.lookup key d' = Dict.lookup key d) /\
    (forall v, In v convergence_variables ->
       Dict.lookup v d' = Some (VDict (normalized_sub d v))).
Proof.
  intros Hplain Hrun.
  destruct (ConvergenceFacts.outer_loop_plain E convergence_variables d
              convergence_variables_distinct variable_is_no_parameter)
    as (d' & Hrun' & Hrest & Hvars).
  - intros v x Hv Hx.
    exact (outer_loop_subs convergence_variables d r
             convergence_variables_distinct variable_is_no_parameter
             Hplain Hrun v x Hv Hx).
  - unfold parse_convergence_section in Hrun. rewrite Hrun' in Hrun.
    injection Hrun as <-. exists d'. auto.
Qed.

Lemma mem_normalized_sub d variable param :
  In param convergence_parameters ->
  Dict.mem param (normalized_sub d variable)
  = Dict.mem param (sub_mapping d variable) || Dict.mem param d.
Proof.
  intros Hp. unfold normalized_sub, Dict.mem.
  rewrite (ConvergenceFacts.lookup_fold_inherited d convergence_parameters _ param
             convergence_parameters_distinct Hp).
  unfold lacks.
  destruct (Dict.lookup param (sub_mapping d variable)) as [x|];
    destruct (Dict.lookup param d); try reflexivity;
    destruct (is_none x); reflexivity.
Qed.

Lemma init_tail_mem self self' key :
  init_tail E self = Ok self' -> key <> "model" ->
  Dict.mem key self' = Dict.mem key self.
Proof.
  unfold init_tail. intros H Hk.
  destruct (Dict.mem "csvy_model" self && Dict.mem "model" self); [discriminate|].
  destruct (Dict.mem "csvy_model" self); [|now injection H as <-].
  inv_bind H. inv_bind H. destruct x; try discriminate.
  destruct x0; try discriminate. inv_bind H. injection H as <-.
  now apply DictFacts.mem_set_other.
Qed.

(** The keys of a plain dict, after the dict was stored in a namespace. *)
Lemma wrap_dict_mem d self key :
  wrap E (VDict d) = Ok (VNS self) -> key <> "model" ->
  Dict.mem key self = Dict.mem key d.
Proof.
  rewrite wrap_dict. cbn [ConfigurationNameSpace]. intros H Hk.
  destruct (fill E d []) as [self0|] eqn:Hfill; cbn [bind] in H; [|discriminate].
  destruct (init_tail E self0) as [self'|] eqn:Htail; cbn [bind] in H; [|discriminate].
  injection H as <-.
  rewrite (init_tail_mem _ _ _ Htail Hk). exact (fill_mem E d self0 key Hfill).
Qed.

Lemma construction_lookup d cfg key x :
  ConfigurationNameSpace E (VDict d) = Ok cfg ->
  Dict.lookup key d = Some x ->
  exists x', wrap E x = Ok x' /\ Dict.lookup key cfg = Some x'.
Proof.
  intros H Hk.
  assert (Hw : wrap E (VDict d) = Ok (VNS cfg)) by (rewrite (wrap_dict E d); now rewrite H).
  destruct (wrap_dict_lookup E d (VNS cfg) key x Hw Hk) as (self & x' & Heq & Hx' & Hl).
  injection Heq as <-. eauto.
Qed.

End Facade.

Section Accepted.

Variable E : externals.

Lemma eq_str_true x s : eq_str x s = true -> x = VStr s.
Proof.
  destruct x; try discriminate. simpl. intros H.
  apply String.eqb_eq in H. now subst.
Qed.

(** [validate_montecarlo_section] on plain data, from the fact that it
    returned. *)
Lemma validate_montecarlo_plain mc0 mc :
  plain mc0 = true ->
  validate_montecarlo_section E mc0 = Ok mc ->
  exists section strategy0 strategy1,
    mc0 = VDict section /\
    Dict.lookup "convergence_strategy" section = Some (VDict strategy0) /\
    Dict.lookup "type" strategy0 = Some (VStr "damped") /\
    mc = VDict (Dict.set "convergence_strategy" (VDict strategy1) section) /\
    Dict.lookup "type" strategy1 = Some (VStr "damped") /\
    (forall v, In v convergence_variables ->
       Dict.lookup v strategy1 = Some (VDict (normalized_sub strategy0 v))).
Proof.
  intros Hplain H. unfold validate_montecarlo_section in H.
  cbn [subscripts] in H.
  destruct (subscript mc0 "convergence_strategy") as [s0|] eqn:Hs0; cbn [bind] in H;
    [|discriminate].
  destruct (plain_subscript _ _ _ Hplain Hs0) as (section & -> & Hl & Hps0).
  destruct (subscript s0 "type") as [t|] eqn:Ht; cbn [bind] in H; [|discriminate].
  destruct (plain_subscript _ _ _ Hps0 Ht) as (strategy0 & -> & Hlt & _).
  destruct (eq_str t "damped") eqn:Hd.
  - apply eq_str_true in Hd. subst t.
    destruct (parse_convergence_section E (VDict strategy0)) as [s1|] eqn:Hparse;
      cbn [bind] in H; [|discriminate].
    destruct (parse_plain E _ _ Hps0 Hparse) as (strategy1 & -> & Hrest & Hvars).
    cbn [mutated_in_place store_subscript] in H. injection H as <-.
    exists section, strategy0, strategy1. repeat split; auto.
    + now rewrite ConvergenceFacts.set_set.
    + rewrite Hrest; auto. simpl. intros H.
      repeat destruct H as [H|H]; try discriminate; contradiction.
  - cbn [bind] in H. destruct (eq_str t "custom"); discriminate.
Qed.

Lemma validate_montecarlo_rejects mc0 t :
  subscripts mc0 ["convergence_strategy"; "type"] = Ok t ->
  eq_str t "damped" = false ->
  validate_montecarlo_section E mc0
  = Raise (if eq_str t "custom"
           then NotImplementedError CustomConvergenceStrategy
           else ValueError ConvergenceStrategyNotDampedOrCustom).
Proof.
  intros Ht Hd. unfold validate_montecarlo_section. rewrite Ht. cbn [bind].
  rewrite Hd. cbn [bind]. now destruct (eq_str t "custom").
Qed.

(** A mapping of either kind, stored in a namespace: a plain dict is
    built into a namespace, binding by binding; a namespace is stored as it
    is. *)
Lemma wrap_mapping_lookup k d r key x :
  wrap E (mapping k d) = Ok r ->
  Dict.lookup key d = Some x ->
  exists self x',
    r = VNS self /\ Dict.lookup key self = Some x' /\
    (if k then x' = x else wrap E x = Ok x').
Proof.
  destruct k; cbn [mapping]; intros H Hk.
  - injection H as <-. exists d, x. auto.
  - destruct (wrap_dict_lookup E d r key x H Hk) as (self & x' & -> & Hw & Hl).
    exists self, x'. auto.
Qed.

Lemma wrap_mapping_mem k m sub key :
  wrap E (mapping k m) = Ok (VNS sub) -> key <> "model" ->
  Dict.mem key sub = Dict.mem key m.
Proof.
  destruct k; cbn [mapping]; intros H Hk.
  - now injection H as <-.
  - exact (wrap_dict_mem E m sub key H Hk).
Qed.

Lemma wrap_mapping_kind k m r : wrap E (mapping k m) = Ok r -> exists sub, r = VNS sub.
Proof.
  destruct k; cbn [mapping]; intros H.
  - injection H as <-. eauto.
  - rewrite wrap_dict in H.
    destruct (ConfigurationNameSpace E (VDict m)); cbn [bind] in H; [|discriminate].
    injection H as <-. eauto.
Qed.

(** [x[key] = v] leaves the other keys of [x] alone. *)
Lemma store_subscript_kind x key v x1 :
  store_subscript E x key v = Ok x1 ->
  exists k d d1,
    x = mapping k d /\ x1 = mapping k d1 /\
    forall key', key' <> key -> Dict.lookup key' d1 = Dict.lookup key' d.
Proof.
  destruct x; try discriminate; cbn [store_subscript]; intros H.
  - injection H as <-. exists false, d, (Dict.set key v d).
    split; [reflexivity|]. split; [reflexivity|].
    intros key' Hk. now apply DictFacts.lookup_set_other.
  - unfold setitem in H. destruct (stored E d key v) as [v'|]; [|discriminate].
    injection H as <-. exists true, d, (Dict.set key v' d).
    split; [reflexivity|]. split; [reflexivity|].
    intros key' Hk. now apply DictFacts.lookup_set_other.
Qed.

Lemma subscript_returned x key y :
  subscript x key = Ok y -> exists k d, x = mapping k d /\ Dict.lookup key d = Some y.
Proof.
  destruct x; try discriminate; cbn [subscript]; intros H;
    (destruct (Dict.lookup key d) eqn:Hl; [|discriminate]); injection H as ->.
  - exists false, d. auto.
  - exists true, d. auto.
Qed.

(** [validate_montecarlo_section], from the fact that it returned: the
    strategy is of type "damped", it was normalized, and the section holds
    what the assignment [montecarlo_section["convergence_strategy"] = ...]
    stored. *)
Lemma validate_montecarlo_returned mc0 mc :
  validate_montecarlo_section E mc0 = Ok mc ->
  exists k1 section k2 strategy0 strategy1 s,
    mc0 = mapping k1 section /\
    Dict.lookup "convergence_strategy" section = Some (mapping k2 strategy0) /\
    Dict.lookup "type" strategy0 = Some (VStr "damped") /\
    parse_convergence_section E (mapping k2 strategy0) = Ok (mapping k2 strategy1) /\
    mc = mapping k1 (Dict.set "convergence_strategy" s section) /\
    (if k1
     then stored E (Dict.set "convergence_strategy" (mapping k2 strategy1) section)
            "convergence_strategy" (mapping k2 strategy1) = Ok s
     else s = mapping k2 strategy1).
Proof.
  intros H. unfold validate_montecarlo_section in H. cbn [subscripts] in H.
  destruct (subscript mc0 "convergence_strategy") as [s0|] eqn:Hs0; cbn [bind] in H;
    [|discriminate].
  destruct (subscript_returned _ _ _ Hs0) as (k1 & section & -> & Hl).
  destruct (subscript s0 "type") as [t|] eqn:Ht; cbn [bind] in H; [|discriminate].
  destruct (subscript_returned _ _ _ Ht) as (k2 & strategy0 & -> & Hlt).
  destruct (eq_str t "damped") eqn:Hd.
  - apply eq_str_true in Hd. subst t.
    destruct (parse_convergence_section E (mapping k2 strategy0)) as [r|] eqn:Hparse;
      cbn [bind] in H; [|discriminate].
    destruct (KindFacts.parse_returned E _ _ _ Hparse) as (strategy1 & -> & _).
    rewrite KindFacts.mutated_mapping in H.
    destruct k1; cbn [mapping store_subscript] in H.
    + unfold setitem in H.
      destruct (stored E (Dict.set "convergence_strategy" (mapping k2 strategy1) section)
                  "convergence_strategy" (mapping k2 strategy1)) as [s|] eqn:Hs;
        [|discriminate].
      injection H as <-. rewrite ConvergenceFacts.set_set.
      exists true, section, k2, strategy0, strategy1, s. repeat split; auto.
    + injection H as <-. rewrite ConvergenceFacts.set_set.
      exists false, section, k2, strategy0, strategy1, (mapping k2 strategy1).
      repeat split; auto.
  - cbn [bind] in H. destruct (eq_str t "custom"); discriminate.
Qed.

(** The normalized strategy once it is held by a namespace. *)
Lemma strategy_in_namespace k strategy0 strategy1 s' :
  Dict.lookup "type" strategy0 = Some (VStr "damped") ->
  parse_convergence_section E (mapping k strategy0) = Ok (mapping k strategy1) ->
  wrap E (mapping k strategy1) = Ok s' ->
  exists strategy,
    s' = VNS strategy /\
    Dict.lookup "type" strategy = Some (VStr "damped") /\
    forall variable, In variable convergence_variables ->
      exists sub,
        Dict.lookup variable strategy
        = Some (mapping (negb k || sub_kind k strategy0 variable) sub) /\
        Dict.mem "type" sub = true /\
        forall param, In param convergence_parameters ->
          Dict.mem param sub
          = Dict.mem param (sub_mapping strategy0 variable) || Dict.mem param strategy0.
Proof.
  intros Ht0 Hparse Hw.
  destruct (KindFacts.parse_returned E _ _ _ Hparse) as (d' & Heq & Hrest & Hvars).
  assert (d' = strategy1) as -> by (destruct k; now injection Heq).
  assert (Ht1 : Dict.lookup "type" strategy1 = Some (VStr "damped")).
  { rewrite Hrest; auto. simpl. intros H.
    repeat destruct H as [H|H]; try discriminate; contradiction. }
  destruct (wrap_mapping_lookup _ _ _ _ _ Hw Ht1) as (strategy & t' & -> & Hlt & Hwt).
  assert (t' = VStr "damped") as -> by (destruct k; [exact Hwt|now injection Hwt]).
  exists strategy. split; [reflexivity|]. split; [exact Hlt|].
  intros variable Hvar.
  destruct (Hvars variable Hvar) as (m' & Hl & Hmem).
  destruct (wrap_mapping_lookup _ _ _ _ _ Hw Hl) as (strategy' & x' & Heq' & Hlx & Hwx).
  injection Heq' as <-.
  assert (Hparam : forall param, In param convergence_parameters -> param <> "model").
  { intros param Hp. simpl in Hp.
    repeat destruct Hp as [Hp|Hp]; try contradiction; subst; discriminate. }
  assert (Hsub : exists sub,
             x' = mapping (negb k || sub_kind k strategy0 variable) sub /\
             forall param, In param convergence_parameters ->
               Dict.mem param sub = Dict.mem param m').
  { destruct k; cbn [negb orb].
    - subst x'. exists m'. auto.
    - destruct (wrap_mapping_kind _ _ _ Hwx) as [sub ->].
      exists sub. split; [reflexivity|].
      intros param Hp. exact (wrap_mapping_mem _ _ _ _ Hwx (Hparam param Hp)). }
  destruct Hsub as (sub & -> & Hsame).
  assert (Hall : forall param, In param convergence_parameters ->
            Dict.mem param sub
            = Dict.mem param (sub_mapping strategy0 variable) || Dict.mem param strategy0).
  { intros param Hp. rewrite (Hsame param Hp). now apply Hmem. }
  exists sub. split; [exact Hlx|]. split; [|exact Hall].
  rewrite Hall by (simpl; auto).
  unfold Dict.mem at 2. rewrite Ht0. apply orb_true_r.
Qed.

End Accepted.

(** C3, as the code has it.  The document that reaches the rules (the raw
    one, or the schema validator's answer) is made of plain dicts, of
    namespaces, or of both.  If the facade returns a configuration, the
    document's [montecarlo.convergence_strategy] is a mapping of type
    "damped" and the configuration's [montecarlo] is a namespace.  Its
    [convergence_strategy] is a namespace of type "damped" in which each of
    the four variables is a sub-section (a namespace; a plain dict only
    where a namespace strategy held the sub-section as a plain dict) that
    binds "type", and binds "damping_constant" or "threshold" exactly when
    the variable's own mapping or the strategy bound it in the document:
    nothing else fills them in.  One case apart: a namespace strategy that
    binds "unit", in a namespace [montecarlo], is replaced by the quantity
    [u.Quantity] makes of it.
    A strategy whose type is "custom" is refused with [NotImplementedError],
    any other type that is not "damped" with [ValueError], once the
    document has taken [config_dirname]. *)
Theorem convergence_strategy_of_accepted (E : externals)
    (config_dict validated : value) (validate : bool) (config_dirname : string) :
  (if validate then validate_dict E config_dict else Ok config_dict) = Ok validated ->
  (forall cfg,
     from_config_dict E config_dict validate config_dirname = Ok cfg ->
     exists k strategy0 montecarlo,
       subscripts validated ["montecarlo"; "convergence_strategy"]
       = Ok (mapping k strategy0) /\
       Dict.lookup "type" strategy0 = Some (VStr "damped") /\
       Dict.lookup "montecarlo" cfg = Some (VNS montecarlo) /\
       if strategy_with_unit validated
       then exists m u,
              Dict.lookup "convergence_strategy" montecarlo = Some (VQuantity m u)
       else exists strategy,
              Dict.lookup "convergence_strategy" montecarlo = Some (VNS strategy) /\
              Dict.lookup "type" strategy = Some (VStr "damped") /\
              forall variable, In variable convergence_variables ->
                exists sub,
                  Dict.lookup variable strategy
                  = Some (mapping (negb k || sub_kind k strategy0 variable) sub) /\
                  Dict.mem "type" sub = true /\
                  forall param, In param convergence_parameters ->
                    Dict.mem param sub
                    = Dict.mem param (sub_mapping strategy0 variable)
                      || Dict.mem param strategy0)
  /\
  (forall t validated1,
     subscripts validated ["montecarlo"; "convergence_strategy"; "type"] = Ok t ->
     eq_str t "damped" = false ->
     store_subscript E validated "config_dirname" (VStr config_dirname) = Ok validated1 ->
     from_config_dict E config_dict validate config_dirname
     = Raise (if eq_str t "custom"
              then NotImplementedError CustomConvergenceStrategy
              else ValueError ConvergenceStrategyNotDampedOrCustom)).
Proof.
  intros Hv. split.
  - intros cfg H. unfold from_config_dict in H. rewrite Hv in H. cbn [bind] in H.
    destruct (store_subscript E validated "config_dirname" (VStr config_dirname))
      as [v1|] eqn:Hst; cbn [bind] in H; [|discriminate].
    destruct (store_subscript_kind E _ _ _ _ Hst) as (k0 & d0 & d1 & -> & -> & Hframe).
    rewrite KindFacts.subscript_mapping in H.
    rewrite (Hframe "montecarlo") in H by discriminate.
    destruct (Dict.lookup "montecarlo" d0) as [mc0|] eqn:Hmc0; cbn [of_option bind] in H;
      [|discriminate].
    destruct (validate_montecarlo_section E mc0) as [mc|] eqn:Hvm; cbn [bind] in H;
      [|discriminate].
    destruct (validate_montecarlo_returned E mc0 mc Hvm)
      as (k1 & section & k2 & strategy0 & strategy1 & s & -> & Hs0 & Ht0 & Hparse & -> & Hs).
    rewrite KindFacts.mutated_mapping in H.
    set (mc := mapping k1 (Dict.set "convergence_strategy" s section)) in *.
    set (vcd := Dict.set "montecarlo" mc d1) in *.
    do 5 step_bind H.
    assert (Hc : ConfigurationNameSpace E (VDict vcd) = Ok cfg) by (destruct k0; exact H).
    destruct (construction_lookup E vcd cfg "montecarlo" mc Hc) as (mc' & Hwmc & Hlmc).
    { apply DictFacts.lookup_set_same. }
    assert (Hunit : strategy_with_unit (mapping k0 d0)
                    = k1 && k2 && Dict.mem "unit" strategy0).
    { unfold strategy_with_unit. rewrite KindFacts.subscript_mapping, Hmc0.
      cbn [of_option]. destruct k1; [|reflexivity]. cbn [mapping andb].
      rewrite Hs0. now destruct k2. }
    assert (Hsub : subscripts (mapping k0 d0) ["montecarlo"; "convergence_strategy"]
                   = Ok (mapping k2 strategy0)).
    { cbn [subscripts]. rewrite KindFacts.subscript_mapping, Hmc0. cbn [of_option bind].
      rewrite KindFacts.subscript_mapping, Hs0. reflexivity. }
    destruct (KindFacts.parse_returned E _ _ _ Hparse) as (d' & Heq & Hrest & _).
    assert (d' = strategy1) as -> by (destruct k2; now injection Heq).
    assert (Hu1 : Dict.lookup "unit" strategy1 = Dict.lookup "unit" strategy0).
    { apply Hrest. simpl. intros Hin.
      repeat destruct Hin as [Hin|Hin]; try discriminate; contradiction. }
    destruct (wrap_mapping_lookup E k1 _ mc' "convergence_strategy" s Hwmc)
      as (montecarlo & s' & -> & Hls & Hws).
    { apply DictFacts.lookup_set_same. }
    exists k2, strategy0, montecarlo.
    split; [exact Hsub|]. split; [exact Ht0|]. split; [exact Hlmc|].
    rewrite Hunit.
    destruct k1; cbn [andb].
    + subst s'. unfold stored in Hs.
      destruct (wrap E (mapping k2 strategy1)) as [w|] eqn:Hw; cbn [bind] in Hs;
        [|discriminate].
      unfold coerce in Hs. rewrite DictFacts.lookup_set_same in Hs.
      destruct k2; cbn [andb mapping attr_unit] in Hs |- *.
      * rewrite Hu1 in Hs. unfold Dict.mem.
        destruct (Dict.lookup "unit" strategy0) as [named|]; cbn [option_map] in Hs.
        -- destruct (unit_of E named) as [u|]; cbn [bind] in Hs; [|discriminate].
           cbn [mapping wrap] in Hw. injection Hw as <-. cbn [Quantity] in Hs.
           destruct (quantity_of E (VNS strategy1) u) as [m|]; cbn [bind] in Hs;
             [|discriminate].
           injection Hs as <-. eauto.
        -- injection Hs as <-.
           destruct (strategy_in_namespace E true strategy0 strategy1 w Ht0 Hparse Hw)
             as (strategy & -> & Hrest').
           exists strategy. split; [exact Hls|exact Hrest'].
      * injection Hs as <-.
        destruct (strategy_in_namespace E false strategy0 strategy1 w Ht0 Hparse Hw)
          as (strategy & -> & Hrest').
        exists strategy. split; [exact Hls|exact Hrest'].
    + subst s.
      destruct (strategy_in_namespace E k2 strategy0 strategy1 s' Ht0 Hparse Hws)
        as (strategy & -> & Hrest').
      exists strategy. split; [exact Hls|exact Hrest'].
  - intros t validated1 Ht Hd Hst. unfold from_config_dict. rewrite Hv. cbn [bind].
    rewrite Hst. cbn [bind].
    destruct (store_subscript_kind E _ _ _ _ Hst) as (k0 & d0 & d1 & -> & -> & Hframe).
    cbn [subscripts] in Ht. rewrite KindFacts.subscript_mapping in Ht |- *.
    rewrite (Hframe "montecarlo") by discriminate.
    destruct (Dict.lookup "montecarlo" d0) as [mc0|]; cbn [of_option bind] in Ht |- *;
      [|discriminate].
    rewrite (validate_montecarlo_rejects E mc0 t); auto.
Qed.

Lemma convergence_strategy_of_accepted_witness :
  exists cfg,
    from_config_dict lab namespace_document false "runs" = Ok cfg /\
    get_config_item cfg "montecarlo.convergence_strategy.w.threshold" = Ok (VNum 0.05) /\
    exists montecarlo strategy,
      Dict.lookup "montecarlo" cfg = Some (VNS montecarlo) /\
      Dict.lookup "convergence_strategy" montecarlo = Some (VNS strategy) /\
      Dict.lookup "type" strategy = Some (VStr "damped") /\
      forall variable, In variable convergence_variables ->
        exists sub,
          Dict.lookup variable strategy
          = Some (mapping (sub_kind true damped_namespace variable) sub) /\
          Dict.mem "type" sub = true /\
          forall param, In param convergence_parameters ->
            Dict.mem param sub
            = Dict.mem param (sub_mapping damped_namespace variable)
              || Dict.mem param damped_namespace.
Proof.
  eexists. split; [reflexivity|]. split; [reflexivity|].
  destruct (proj1 (convergence_strategy_of_accepted lab
                     namespace_document namespace_document false "runs" eq_refl)
              _ eq_refl)
    as (k & strategy0 & montecarlo & Hs & _ & Hm & H).
  vm_compute in Hs. destruct k; [|discriminate Hs]. injection Hs as <-.
  destruct H as (strategy & H).
  exists montecarlo, strategy. split; [exact Hm|exact H].
Defined.

(** C3 as stated fails: this document is accepted, with the schema
    validator left out and with one that has nothing to add, and in the
    finished tree the sub-section [t_inner] holds "type" only: no
    "damping_constant" and no "threshold", which neither it nor the strategy
    bound. *)
Lemma accepted_strategy_not_fully_populated :
  exists cfg,
    from_config_dict lab (document (VDict [("type", VStr "damped")]) 500 "virtual" false) false ""
    = Ok cfg /\
    from_config_dict lab (document (VDict [("type", VStr "damped")]) 500 "virtual" false) true ""
    = Ok cfg /\
    get_config_item cfg "montecarlo.convergence_strategy.t_inner"
    = Ok (VNS [("type", VStr "damped")]) /\
    get_config_item cfg "montecarlo.convergence_strategy.t_inner.damping_constant"
    = Raise KeyError.
Proof. eexists. repeat split. Qed.

(** A namespace strategy with a key "unit", in a namespace [montecarlo]:
    the assignment of the normalized strategy asks astropy for a quantity,
    and an astropy that makes no quantity of a namespace refuses the
    document. *)
Example namespace_strategy_with_unit :
  strategy_with_unit unit_strategy_document = true /\
  from_config_dict lab unit_strategy_document false "runs" = Raise TypeError.
Proof. split; reflexivity. Qed.

(** ** The [validate] flag *)



(** ** Unsupported features *)

Section Unsupported.

Variable E : externals.







End Unsupported.

Section OtherwiseAccepted.

Variable E : externals.





End OtherwiseAccepted.


(** The spec's example, and the same document with a custom strategy. *)
Example integrated_relativistic_document :
  from_config_dict lab (document (VDict damped_section) 500 "integrated" true) false ""
  = Raise (NotImplementedError IntegratedWithFullRelativity) /\
  from_config_dict lab (document (VDict [("type", VStr "custom")]) 500 "integrated" true) false ""
  = Raise (NotImplementedError CustomConvergenceStrategy).
Proof. split; reflexivity. Qed.


(** * Further properties *)

(** ** [set_config_item]: failure, success, other paths *)

Section PathSet.

Variable E : externals.

Lemma set_path_failure_unchanged path : forall self v e,
  raised (set_config_item_path E self path v) = Some e ->
  after (set_config_item_path E self path v) = self.
Proof.
  induction path as [|head rest IH]; intros self v e Hr; [reflexivity|].
  destruct rest as [|second more].
  - change (set_config_item_path E self [head] v) with (setitem E self head v) in *.
    unfold setitem in *. destruct (stored E self head v); [discriminate|reflexivity].
  - destruct (is_item_path (head :: second :: more)) eqn:Hitem.
    + assert (more = [] /\ Str.startswith "item" second = true) as [-> Hs].
      { simpl in Hitem. destruct more; [auto|discriminate]. }
      rewrite set_item in * by assumption.
      match goal with |- context [match ?c with Ok _ => _ | Raise _ => _ end] =>
        destruct c end; [discriminate|reflexivity].
    + rewrite set_delegate in * by assumption.
      destruct (getitem self head) as [x|] eqn:Hg; [|reflexivity].
      destruct x; try reflexivity.
      cbn [after raised] in *. rewrite (IH d v e Hr).
      unfold getitem in Hg. destruct (Dict.lookup head self) eqn:Hl; [|discriminate].
      injection Hg as ->. now apply DictFacts.set_same_value.
Qed.

End PathSet.

(** X1. Whenever [set_config_item] raises, whatever the path, the value and
    the exception, the namespace is left exactly as it was. *)
Theorem set_config_item_failure_atomic (E : externals) (self : bindings)
    (path : string) (v : value) (e : exn) :
  raised (set_config_item E self path v) = Some e ->
  after (set_config_item E self path v) = self.
Proof. unfold set_config_item. apply set_path_failure_unchanged. Qed.

Lemma set_config_item_failure_atomic_witness :
  raised (set_config_item lab velocity_tree "model.structure.missing.start" (VNum 1))
  = Some KeyError /\
  after (set_config_item lab velocity_tree "model.structure.missing.start" (VNum 1))
  = velocity_tree.
Proof.
  split; [reflexivity|].
  exact (@set_config_item_failure_atomic lab velocity_tree
           "model.structure.missing.start" (VNum 1) KeyError eq_refl).
Defined.

Section PathAssignment.

Variable E : externals.

Lemma item_path_inv head second more :
  is_item_path (head :: second :: more) = true ->
  more = [] /\ Str.startswith "item" second = true.
Proof. simpl. destruct more; [auto|discriminate]. Qed.

Lemma getitem_lookup self key x : getitem self key = Ok x -> Dict.lookup key self = Some x.
Proof.
  unfold getitem. destruct (Dict.lookup key self); simpl; congruence.
Qed.

Lemma set_path_keeps_unit path : forall self m u v,
  get_config_item_path self path = Ok (VQuantity m u) ->
  raised (set_config_item_path E self path v) = None ->
  exists m',
    get_config_item_path (after (set_config_item_path E self path v)) path
    = Ok (VQuantity m' u).
Proof.
  induction path as [|head rest IH]; intros self m u v Hget Hr; [discriminate|].
  destruct rest as [|second more].
  - rewrite get_single in Hget. apply getitem_lookup in Hget.
    change (set_config_item_path E self [head] v) with (setitem E self head v) in *.
    unfold setitem, stored in *.
    destruct (wrap E v) as [w|]; cbn [bind] in *; [|discriminate].
    unfold coerce in *. rewrite Hget in *. cbn [attr_unit bind] in *.
    destruct (Quantity E w u) as [q|] eqn:Hq; [|discriminate].
    destruct (Quantity_unit _ _ _ _ Hq) as [m' ->].
    exists m'. cbn [after]. rewrite get_single. unfold getitem.
    now rewrite DictFacts.lookup_set_same.
  - destruct (is_item_path (head :: second :: more)) eqn:Hitem.
    + destruct (item_path_inv _ _ _ Hitem) as [-> Hs].
      rewrite (get_item _ _ _ Hs) in Hget. rewrite (set_item _ _ _ _ _ Hs) in *.
      inv_bind Hget. inv_bind Hget.
      destruct (index_quantity _ _ _ _ Hget) as [l ->].
      cbn [bind] in *. rewrite Hget in *. cbn [bind attr_unit] in *.
      destruct (Quantity E v u) as [q|] eqn:Hq; [|discriminate].
      destruct (Quantity_unit _ _ _ _ Hq) as [m' ->].
      cbn [bind store_index] in *.
      destruct (Seq.setitem l x0 (VQuantity m' u)) as [l'|] eqn:Hset; [|discriminate].
      cbn [bind after] in *. exists m'.
      rewrite (get_item _ _ _ Hs). unfold getitem.
      rewrite DictFacts.lookup_set_same. cbn [of_option bind].
      rewrite Hx0. cbn [bind index]. eapply SeqFacts.getitem_setitem; eauto.
    + rewrite (get_delegate _ _ _ _ Hitem) in Hget.
      rewrite (set_delegate _ _ _ _ _ _ Hitem) in *.
      inv_bind Hget. destruct x; try discriminate. cbn [after raised] in *.
      destruct (IH d m u v Hget Hr) as [m' Hm']. exists m'.
      rewrite (get_delegate _ _ _ _ Hitem). unfold getitem.
      rewrite DictFacts.lookup_set_same. cbn [of_option bind]. exact Hm'.
Qed.

Lemma wrap_not_dict v : is_dict v = false -> wrap E v = Ok v.
Proof. destruct v; try reflexivity. discriminate. Qed.

Lemma set_path_reads_back path : forall self v,
  is_dict v = false ->
  (forall old, get_config_item_path self path = Ok old -> attr_unit E old = None) ->
  raised (set_config_item_path E self path v) = None ->
  get_config_item_path (after (set_config_item_path E self path v)) path = Ok v.
Proof.
  induction path as [|head rest IH]; intros self v Hv Hold Hr; [discriminate|].
  destruct rest as [|second more].
  - change (set_config_item_path E self [head] v) with (setitem E self head v) in *.
    rewrite get_single. unfold setitem, stored in *.
    rewrite (wrap_not_dict _ Hv) in *. cbn [bind] in *.
    assert (coerce E self head v = Ok v) as Hc.
    { unfold coerce. destruct (Dict.lookup head self) as [old|] eqn:Hk; auto.
      rewrite (Hold old); auto. rewrite get_single. unfold getitem. now rewrite Hk. }
    rewrite Hc in *. cbn [after]. unfold getitem.
    now rewrite DictFacts.lookup_set_same.
  - destruct (is_item_path (head :: second :: more)) eqn:Hitem.
    + destruct (item_path_inv _ _ _ Hitem) as [-> Hs].
      rewrite (get_item _ _ _ Hs) in Hold. rewrite (set_item _ _ _ _ _ Hs) in *.
      destruct (getitem self head) as [x|] eqn:Hx; cbn [bind] in *; [|discriminate].
      destruct (item_index second) as [i|] eqn:Hi; cbn [bind] in *; [|discriminate].
      destruct (index x i) as [current|] eqn:Hcur; cbn [bind] in *; [|discriminate].
      rewrite (Hold current eq_refl) in *. cbn [bind] in *.
      destruct (store_index x i v) as [x'|] eqn:Hst; [|discriminate].
      cbn [after]. rewrite (get_item _ _ _ Hs). unfold getitem.
      rewrite DictFacts.lookup_set_same. cbn [of_option bind]. rewrite Hi. cbn [bind].
      destruct x; try discriminate. cbn [store_index] in Hst.
      destruct (Seq.setitem l i v) as [l'|] eqn:Hset; [|discriminate].
      cbn [bind] in Hst. injection Hst as <-. cbn [index].
      eapply SeqFacts.getitem_setitem; eauto.
    + rewrite (get_delegate _ _ _ _ Hitem) in Hold.
      rewrite (set_delegate _ _ _ _ _ _ Hitem) in *.
      destruct (getitem self head) as [x|] eqn:Hx; [|discriminate].
      destruct x; try discriminate. cbn [after raised bind] in *.
      rewrite (get_delegate _ _ _ _ Hitem). unfold getitem.
      rewrite DictFacts.lookup_set_same. cbn [of_option bind].
      apply IH; auto.
Qed.

End PathAssignment.

(** X2. A path that holds a quantity of unit [u] still holds a quantity of
    unit [u] after any [set_config_item] on that path, whatever value is
    assigned and whether or not the call raises: an assignment changes the
    magnitude, never the unit. *)
Theorem set_config_item_keeps_unit (E : externals) (self : bindings)
    (path : string) (m : number) (u : unit_name) (v : value) :
  get_config_item self path = Ok (VQuantity m u) ->
  exists m',
    get_config_item (after (set_config_item E self path v)) path = Ok (VQuantity m' u).
Proof.
  unfold get_config_item, set_config_item. intros Hget.
  destruct (raised (set_config_item_path E self (Str.split "." path) v)) as [e|] eqn:Hr.
  - rewrite (set_path_failure_unchanged _ _ _ _ _ Hr). eauto.
  - eapply set_path_keeps_unit; eauto.
Qed.

Lemma set_config_item_keeps_unit_witness :
  get_config_item velocity_tree "shells.item-1" = Ok (VQuantity 4 "m") /\
  exists m',
    get_config_item
      (after (set_config_item lab velocity_tree "shells.item-1" (VQuantity 2 "km")))
      "shells.item-1"
    = Ok (VQuantity m' "m").
Proof.
  split; [reflexivity|].
  exact (@set_config_item_keeps_unit lab velocity_tree "shells.item-1" 4 "m"
           (VQuantity 2 "km") eq_refl).
Defined.

(** X3. A value that is not a plain dict, assigned by path where no value
    with a unit is held (a new key included), is read back by the same path
    exactly as it was assigned, whenever the assignment does not raise. *)
Theorem set_config_item_reads_back (E : externals) (self : bindings)
    (path : string) (v : value) :
  is_dict v = false ->
  (forall old, get_config_item self path = Ok old -> attr_unit E old = None) ->
  raised (set_config_item E self path v) = None ->
  get_config_item (after (set_config_item E self path v)) path = Ok v.
Proof. unfold get_config_item, set_config_item. apply set_path_reads_back. Qed.

Lemma set_config_item_reads_back_witness :
  raised (set_config_item lab velocity_tree "model.structure.velocity.stop" (VStr "auto"))
  = None /\
  get_config_item
    (after (set_config_item lab velocity_tree "model.structure.velocity.stop" (VStr "auto")))
    "model.structure.velocity.stop"
  = Ok (VStr "auto").
Proof.
  split; [reflexivity|].
  apply (@set_config_item_reads_back lab velocity_tree
           "model.structure.velocity.stop" (VStr "auto") eq_refl).
  - intros old H. vm_compute in H. discriminate H.
  - reflexivity.
Defined.

(** ** Paths that part ways *)

Section OtherPaths.

Variable E : externals.

Lemma set_path_other_key head rest self v key :
  key <> head ->
  Dict.lookup key (after (set_config_item_path E self (head :: rest) v))
  = Dict.lookup key self.
Proof.
  intros Hne. destruct rest as [|second more].
  - change (set_config_item_path E self [head] v) with (setitem E self head v).
    unfold setitem. destruct (stored E self head v); cbn [after]; auto.
    now apply DictFacts.lookup_set_other.
  - destruct (is_item_path (head :: second :: more)) eqn:Hitem.
    + destruct (item_path_inv _ _ _ Hitem) as [-> Hs].
      rewrite (set_item _ _ _ _ _ Hs).
      match goal with |- context [match ?c with Ok _ => _ | Raise _ => _ end] =>
        destruct c end; cbn [after raising]; auto.
      now apply DictFacts.lookup_set_other.
    + rewrite (set_delegate _ _ _ _ _ _ Hitem).
      destruct (getitem self head) as [x|]; [|reflexivity].
      destruct x; try reflexivity. cbn [after].
      now apply DictFacts.lookup_set_other.
Qed.

Lemma get_path_head head rest self self' :
  Dict.lookup head self = Dict.lookup head self' ->
  get_config_item_path self (head :: rest) = get_config_item_path self' (head :: rest).
Proof.
  intros H. destruct rest as [|second more].
  - rewrite !get_single. unfold getitem. now rewrite H.
  - destruct (is_item_path (head :: second :: more)) eqn:Hitem.
    + destruct (item_path_inv _ _ _ Hitem) as [-> Hs].
      rewrite !(get_item _ _ _ Hs). unfold getitem. now rewrite H.
    + rewrite !(get_delegate _ _ _ _ Hitem). unfold getitem. now rewrite H.
Qed.

Lemma set_path_frame p : forall q self v,
  diverge p q = true ->
  get_config_item_path (after (set_config_item_path E self p v)) q
  = get_config_item_path self q.
Proof.
  induction p as [|h p' IH]; intros q self v Hd; [discriminate|].
  destruct q as [|h' q']; [discriminate|].
  cbn [diverge] in Hd. destruct (String.eqb h h') eqn:Hh.
  - apply String.eqb_eq in Hh. subst h'.
    apply andb_prop in Hd as [Hd Hrest]. apply andb_prop in Hd as [Hp Hq].
    apply negb_true_iff in Hp. apply negb_true_iff in Hq.
    destruct p' as [|p1 p2]; [discriminate|].
    destruct q' as [|q1 q2]; [destruct p2; discriminate|].
    rewrite (set_delegate _ _ _ _ _ _ Hp).
    destruct (getitem self h) as [x|] eqn:Hx; [|reflexivity].
    destruct x; try reflexivity. cbn [after].
    rewrite !(get_delegate _ _ _ _ Hq). unfold getitem at 1.
    rewrite DictFacts.lookup_set_same, Hx. cbn [of_option bind].
    now apply IH.
  - apply get_path_head. apply set_path_other_key.
    intros ->. now rewrite String.eqb_refl in Hh.
Qed.

End OtherPaths.

(** X4. In a namespace that is a tree (no list and no namespace object is
    held under two keys at once), an assignment by path changes nothing that
    is read by a path which parts ways with it at some key (the two heads
    differ, or they go on through the same child namespaces and differ
    further down): the read returns, or raises, what it did before, whether
    or not the assignment raised. *)
Theorem set_config_item_frame (E : externals) (self : bindings)
    (p q : string) (v : value) :
  diverge (Str.split "." p) (Str.split "." q) = true ->
  get_config_item (after (set_config_item E self p v)) q = get_config_item self q.
Proof. unfold get_config_item, set_config_item. apply set_path_frame. Qed.

Lemma set_config_item_frame_witness :
  get_config_item
    (after (set_config_item lab abundances_tree "model.abundances" (VList [])))
    "model.shells.item0"
  = get_config_item abundances_tree "model.shells.item0".
Proof.
  exact (@set_config_item_frame lab abundances_tree
           "model.abundances" "model.shells.item0" (VList []) eq_refl).
Defined.

(** ** Indices counted from the end *)

Module NegativeIndex.

Lemma lstrip_nospace s : nospace_head s = true -> PyInt.lstrip s = s.
Proof.
  destruct s as [|c t]; simpl; auto. intros H. apply negb_true_iff in H. now rewrite H.
Qed.

Lemma rev_onto_nospace s : forall acc,
  digits_only s = true -> nospace_head acc = true ->
  nospace_head (Str.rev_onto s acc) = true.
Proof.
  induction s as [|c t IH]; simpl; auto.
  intros acc H Ha. destruct (PyInt.digit c) as [d|] eqn:Hd; [|discriminate].
  apply IH; auto. simpl. destruct (StrFacts.digit_char _ _ Hd) as (Hs & _). now rewrite Hs.
Qed.

Lemma strip_minus s : digits_only s = true -> PyInt.strip (String "-" s) = String "-" s.
Proof.
  intros H. unfold PyInt.strip, Str.rev.
  rewrite (lstrip_nospace (String "-" s)) by reflexivity.
  cbn [Str.rev_onto].
  rewrite lstrip_nospace by (apply rev_onto_nospace; [assumption|reflexivity]).
  rewrite StrFacts.rev_onto_rev_onto. simpl.
  now rewrite StrFacts.app_empty.
Qed.

Lemma remove_item_minus s :
  digits_only s = true ->
  Str.remove_all "item" ("item-" ++ s) = String "-" s.
Proof.
  intros H. unfold Str.remove_all.
  change (Str.remove_all_fuel (String.length ("item-" ++ s)) "item" ("item-" ++ s))
    with (String "-" (Str.remove_all_fuel (S (S (S (String.length s)))) "item" s)).
  now rewrite StrFacts.remove_item_digits.
Qed.

(** The index the segment [item-N] denotes is [-N]. *)
Lemma item_index_minus n : item_index ("item-" ++ decimal n) = Ok (- Z.of_nat n).
Proof.
  unfold item_index, decimal.
  rewrite remove_item_minus by apply StrFacts.digits_only_uint.
  unfold PyInt.int. rewrite strip_minus by apply StrFacts.digits_only_uint.
  rewrite StrFacts.digits_uint_start by apply StrFacts.to_uint_nonnil.
  now rewrite DecimalNat.Unsigned.of_to.
Qed.

Lemma getitem_from_end {A} (l : list A) n :
  Seq.getitem l (- Z.of_nat n)
  = if (n =? 0)%nat then of_option (nth_error l 0) IndexError
    else if (n <=? length l)%nat then of_option (nth_error l (length l - n)) IndexError
    else Raise IndexError.
Proof.
  unfold Seq.getitem, Seq.position.
  destruct (n =? 0)%nat eqn:H0.
  - apply Nat.eqb_eq in H0. subst n. simpl.
    destruct l; reflexivity.
  - apply Nat.eqb_neq in H0.
    replace (0 <=? - Z.of_nat n) with false by (symmetry; apply Z.leb_gt; lia).
    cbn [andb].
    replace (- Z.of_nat n <? 0) with true by (symmetry; apply Z.ltb_lt; lia).
    cbn [andb].
    destruct (n <=? length l)%nat eqn:Hle.
    + apply Nat.leb_le in Hle.
      replace (0 <=? Z.of_nat (length l) + - Z.of_nat n) with true
        by (symmetry; apply Z.leb_le; lia).
      cbn [of_option bind]. f_equal. f_equal. lia.
    + apply Nat.leb_gt in Hle.
      replace (0 <=? Z.of_nat (length l) + - Z.of_nat n) with false
        by (symmetry; apply Z.leb_gt; lia).
      reflexivity.
Qed.

End NegativeIndex.

(** X5. A segment [item-N] counts from the end of the list, as Python's
    negative indices do: [key.item-1] reads the last element,
    [key.item-N] the N-th from the end, and [IndexError] is raised when the
    list has fewer than N elements; [item-0] is [item0]. *)
Theorem get_config_item_from_end (self : bindings) (path head : string)
    (n : nat) (l : list value) :
  Str.split "." path = [head; "item-" ++ decimal n] ->
  Dict.lookup head self = Some (VList l) ->
  get_config_item self path
  = if (n =? 0)%nat then of_option (nth_error l 0) IndexError
    else if (n <=? length l)%nat then of_option (nth_error l (length l - n)) IndexError
    else Raise IndexError.
Proof.
  intros Hs Hl. unfold get_config_item. rewrite Hs.
  rewrite get_item by (apply (StrFacts.startswith_app "item")).
  unfold getitem. rewrite Hl. cbn [of_option bind].
  rewrite NegativeIndex.item_index_minus. cbn [bind index].
  apply NegativeIndex.getitem_from_end.
Qed.

Lemma get_config_item_from_end_witness :
  get_config_item [("abundances", VList [VNum 0.19; VNum 0.03; VNum 0.52])]
    "abundances.item-2"
  = Ok (VNum 0.03).
Proof.
  exact (@get_config_item_from_end
           [("abundances", VList [VNum 0.19; VNum 0.03; VNum 0.52])]
           "abundances.item-2" "abundances" 2
           [VNum 0.19; VNum 0.03; VNum 0.52] eq_refl eq_refl).
Defined.

(** ** Keys that start with "item" *)

Section ItemKeys.

Variable E : externals.

Lemma app_not_item_path p1 p2 head second :
  is_item_path (p1 :: (p2 ++ [head; second]))%list = false.
Proof. destruct p2 as [|a [|b p2]]; reflexivity. Qed.

Lemma item_key_paths keys : forall self ns head second child v,
  descend self keys = Some ns ->
  Dict.lookup head ns = Some (VNS child) ->
  Str.startswith "item" second = true ->
  exists e,
    (e = KeyError \/ e = ValueError InvalidIntLiteral) /\
    get_config_item_path self (keys ++ [head; second])%list = Raise e /\
    set_config_item_path E self (keys ++ [head; second])%list v
    = {| after := self; raised := Some e |}.
Proof.
  induction keys as [|k keys IH]; intros self ns head second child v Hd Hl Hs.
  - injection Hd as <-. cbn [app]. rewrite (get_item _ _ _ Hs), (set_item _ _ _ _ _ Hs).
    unfold getitem. rewrite Hl. cbn [of_option bind].
    unfold item_index, PyInt.int.
    match goal with |- context [of_option ?o _] => destruct o end;
      cbn [of_option bind index]; eauto 6.
  - cbn [descend] in Hd.
    destruct (Dict.lookup k self) as [x|] eqn:Hk; [|discriminate].
    destruct x; try discriminate.
    change ((k :: keys) ++ [head; second])%list with (k :: (keys ++ [head; second]))%list.
    destruct (IH d ns head second child v Hd Hl Hs) as (e & He & Hg & Hset).
    destruct (keys ++ [head; second])%list as [|a rest] eqn:Happ.
    { destruct keys; discriminate. }
    rewrite get_delegate by (rewrite <- Happ; apply app_not_item_path).
    rewrite set_delegate by (rewrite <- Happ; apply app_not_item_path).
    unfold getitem. rewrite Hk. cbn [of_option bind]. rewrite Hset.
    exists e. cbn [after raised]. split; [exact He|]. split; [exact Hg|].
    now rewrite (DictFacts.set_same_value _ _ _ Hk).
Qed.

End ItemKeys.

(** X6. A key that starts with "item" and is bound in a nested namespace
    cannot be reached by path: where the path goes through namespaces to a
    namespace [child] and ends in a segment that starts with "item", the
    segment is taken for an index into [child], so [get_config_item] raises
    [KeyError] (or [ValueError] when the rest of the segment is no integer)
    whatever [child] binds, and [set_config_item] raises the same and
    changes nothing. *)
Theorem item_named_key_unreachable (E : externals) (self ns child : bindings)
    (path head second : string) (keys : list string) (v : value) :
  Str.split "." path = (keys ++ [head; second])%list ->
  descend self keys = Some ns ->
  Dict.lookup head ns = Some (VNS child) ->
  Str.startswith "item" second = true ->
  exists e,
    (e = KeyError \/ e = ValueError InvalidIntLiteral) /\
    get_config_item self path = Raise e /\
    set_config_item E self path v = {| after := self; raised := Some e |}.
Proof.
  intros Hp Hd Hl Hs. unfold get_config_item, set_config_item. rewrite Hp.
  eapply item_key_paths; eauto.
Qed.

Lemma item_named_key_unreachable_witness :
  subscripts (VNS [("plasma", VNS [("nlte", VNS [("items", VNum 3)])])])
    ["plasma"; "nlte"; "items"] = Ok (VNum 3) /\
  exists e,
    (e = KeyError \/ e = ValueError InvalidIntLiteral) /\
    get_config_item [("plasma", VNS [("nlte", VNS [("items", VNum 3)])])]
      "plasma.nlte.items" = Raise e /\
    set_config_item lab [("plasma", VNS [("nlte", VNS [("items", VNum 3)])])]
      "plasma.nlte.items" (VNum 4)
    = {| after := [("plasma", VNS [("nlte", VNS [("items", VNum 3)])])];
         raised := Some e |}.
Proof.
  split; [reflexivity|].
  exact (@item_named_key_unreachable lab
           [("plasma", VNS [("nlte", VNS [("items", VNum 3)])])]
           [("nlte", VNS [("items", VNum 3)])] [("items", VNum 3)]
           "plasma.nlte.items" "nlte" "items" ["plasma"] (VNum 4)
           eq_refl eq_refl eq_refl eq_refl).
Defined.

(** ** Paths of keys and chained subscripts *)

Lemma split_nonempty sep s : Str.split sep s <> [].
Proof.
  destruct s as [|c t]; simpl; [discriminate|].
  destruct (Ascii.eqb c sep); [discriminate|].
  destruct (Str.split sep t); discriminate.
Qed.

Lemma get_path_subscripts path : forall self v,
  ends_in_item path = false ->
  get_config_item_path self path = Ok v ->
  subscripts (VNS self) path = Ok v.
Proof.
  induction path as [|head rest IH]; intros self v He Hg; [discriminate|].
  destruct rest as [|second more].
  - rewrite get_single in Hg. unfold getitem in Hg. cbn [subscripts subscript].
    rewrite Hg. reflexivity.
  - cbn [ends_in_item] in He. apply orb_false_iff in He as [Hitem He].
    rewrite (get_delegate _ _ _ _ Hitem) in Hg.
    unfold getitem in Hg.
    change (subscripts (VNS self) (head :: second :: more))
      with (y <- of_option (Dict.lookup head self) KeyError ;;
            subscripts y (second :: more)).
    destruct (of_option (Dict.lookup head self) KeyError) as [x|]; [|discriminate].
    cbn [bind] in *. destruct x; try discriminate. now apply IH.
Qed.

Lemma subscripts_get_path path : forall self v,
  all_converted self = true ->
  path <> [] ->
  ends_in_item path = false ->
  subscripts (VNS self) path = Ok v ->
  get_config_item_path self path = Ok v.
Proof.
  induction path as [|head rest IH]; intros self v Hc Hne He Hs; [congruence|].
  destruct rest as [|second more].
  - rewrite get_single. unfold getitem. cbn [subscripts subscript] in Hs.
    destruct (of_option (Dict.lookup head self) KeyError); [exact Hs|discriminate].
  - cbn [ends_in_item] in He. apply orb_false_iff in He as [Hitem He].
    rewrite (get_delegate _ _ _ _ Hitem). unfold getitem.
    change (subscripts (VNS self) (head :: second :: more))
      with (y <- of_option (Dict.lookup head self) KeyError ;;
            subscripts y (second :: more)) in Hs.
    destruct (Dict.lookup head self) as [x|] eqn:Hk; [|discriminate].
    cbn [of_option bind] in *.
    pose proof (all_converted_lookup _ _ _ Hc Hk) as Hx.
    destruct x; try discriminate.
    apply IH; [exact Hx|discriminate|exact He|exact Hs].
Qed.

(** X7. On a namespace whose nested mappings are all namespaces, a path of
    keys (one that does not end in an [itemN] segment) reads exactly what
    the chained subscripts [self[k1][k2]...] read: [get_config_item] returns
    a value if and only if the chain returns it. *)
Theorem get_config_item_is_chained_subscript (self : bindings) (path : string)
    (v : value) :
  all_converted self = true ->
  ends_in_item (Str.split "." path) = false ->
  get_config_item self path = Ok v <-> subscripts (VNS self) (Str.split "." path) = Ok v.
Proof.
  intros Hc He. unfold get_config_item. split.
  - now apply get_path_subscripts.
  - apply subscripts_get_path; auto. apply split_nonempty.
Qed.

Lemma get_config_item_is_chained_subscript_witness :
  get_config_item velocity_tree "model.structure.velocity.start" = Ok (VQuantity 1 "km")
  <-> subscripts (VNS velocity_tree) ["model"; "structure"; "velocity"; "start"]
      = Ok (VQuantity 1 "km").
Proof.
  exact (@get_config_item_is_chained_subscript velocity_tree
           "model.structure.velocity.start" (VQuantity 1 "km") eq_refl eq_refl).
Defined.

(** ** [deepcopy] *)

Module TidyFacts.

Lemma lookup_app key a b :
  Dict.lookup key (a ++ b)%list
  = match Dict.lookup key a with Some v => Some v | None => Dict.lookup key b end.
Proof.
  induction a as [|[k x] a IH]; simpl; auto.
  destruct (String.eqb key k); auto.
Qed.

Lemma set_fresh key v d :
  Dict.mem key d = false -> Dict.set key v d = (d ++ [(key, v)])%list.
Proof.
  unfold Dict.mem. induction d as [|[k x] d IH]; simpl; auto.
  destruct (String.eqb key k); [discriminate|].
  intros H. now rewrite IH.
Qed.

Lemma mem_set key key' v d :
  Dict.mem key (Dict.set key' v d) = String.eqb key key' || Dict.mem key d.
Proof.
  destruct (String.eqb key key') eqn:Hk.
  - apply String.eqb_eq in Hk. subst key'. unfold Dict.mem.
    now rewrite DictFacts.lookup_set_same.
  - apply DictFacts.mem_set_other. intros ->. now rewrite String.eqb_refl in Hk.
Qed.

Lemma distinct_keys_set key v d :
  distinct_keys d = true -> distinct_keys (Dict.set key v d) = true.
Proof.
  induction d as [|[k x] d IH]; simpl; auto.
  intros H. apply andb_prop in H as [Hk Hd].
  destruct (String.eqb key k) eqn:Hkey; simpl.
  - now rewrite Hk, Hd.
  - rewrite mem_set, (IH Hd). rewrite String.eqb_sym, Hkey. simpl. now rewrite Hk.
Qed.

Lemma no_plain_dict_set key v d :
  no_plain_dict d = true -> is_dict v = false -> no_plain_dict (Dict.set key v d) = true.
Proof.
  intros Hd Hv. induction d as [|[k x] d IH]; simpl in *.
  - now rewrite Hv.
  - apply andb_prop in Hd as [Hx Hd].
    destruct (String.eqb key k); simpl.
    + now rewrite Hv, Hd.
    + now rewrite Hx, IH.
Qed.

Lemma tidy_set key v d :
  tidy d = true -> is_dict v = false -> tidy (Dict.set key v d) = true.
Proof.
  unfold tidy. intros H Hv. apply andb_prop in H as [Hk Hd].
  now rewrite distinct_keys_set, no_plain_dict_set.
Qed.

Lemma no_plain_dict_lookup d key v :
  no_plain_dict d = true -> Dict.lookup key d = Some v -> is_dict v = false.
Proof.
  induction d as [|[k x] d IH]; simpl; [discriminate|].
  intros H. apply andb_prop in H as [Hx Hd].
  destruct (String.eqb key k).
  - intros [= <-]. now apply negb_true_iff in Hx.
  - now apply IH.
Qed.

End TidyFacts.

Section Tidy.

Variable E : externals.

Lemma wrap_is_no_dict x v : wrap E x = Ok v -> is_dict v = false.
Proof.
  destruct x; try (intros [= <-]; reflexivity).
  rewrite wrap_dict. intros H. inv_bind H. now injection H as <-.
Qed.

Lemma Quantity_is_no_dict x u q : Quantity E x u = Ok q -> is_dict q = false.
Proof. intros H. now destruct (Quantity_unit _ _ _ _ H) as [m ->]. Qed.

Lemma stored_is_no_dict self key x v : stored E self key x = Ok v -> is_dict v = false.
Proof.
  unfold stored. intros H. inv_bind H.
  apply wrap_is_no_dict in Hx. unfold coerce in H.
  destruct (Dict.lookup key self) as [old|]; [|now injection H as <-].
  destruct (attr_unit E old) as [unit|]; [|now injection H as <-].
  inv_bind H. eapply Quantity_is_no_dict; eauto.
Qed.

Lemma setitem_tidy self key x :
  tidy self = true -> tidy (after (setitem E self key x)) = true.
Proof.
  intros H. unfold setitem. destruct (stored E self key x) as [v|] eqn:Hs; cbn [after]; auto.
  apply TidyFacts.tidy_set; auto. eapply stored_is_no_dict; eauto.
Qed.

Lemma fill_tidy items : forall self self',
  tidy self = true -> fill E items self = Ok self' -> tidy self' = true.
Proof.
  induction items as [|[k v] items IH]; intros self self' Ht; cbn [fill].
  - now intros [= <-].
  - destruct (Dict.mem k self); [now apply IH|].
    pose proof (setitem_tidy self k v Ht) as Hs.
    destruct (setitem E self k v) as [self1 [e|]]; [discriminate|].
    now apply IH.
Qed.

Lemma init_tail_tidy self self' :
  tidy self = true -> init_tail E self = Ok self' -> tidy self' = true.
Proof.
  intros Ht. unfold init_tail.
  destruct (Dict.mem "csvy_model" self && Dict.mem "model" self); [discriminate|].
  destruct (Dict.mem "csvy_model" self); [|now intros [= <-]].
  intros H. inv_bind H. inv_bind H.
  destruct x; try discriminate. destruct x0; try discriminate.
  inv_bind H. injection H as <-. now apply TidyFacts.tidy_set.
Qed.

Lemma construction_tidy x self :
  ConfigurationNameSpace E x = Ok self -> tidy self = true.
Proof.
  destruct x; try discriminate; cbn [ConfigurationNameSpace].
  - now apply init_tail_tidy.
  - intros H. inv_bind H. eapply init_tail_tidy; [|eauto]. eapply fill_tidy; [|eauto]. reflexivity.
  - intros H. inv_bind H. eapply init_tail_tidy; [|eauto]. eapply fill_tidy; [|eauto]. reflexivity.
Qed.

Lemma set_path_tidy path : forall self v,
  tidy self = true -> tidy (after (set_config_item_path E self path v)) = true.
Proof.
  induction path as [|head rest IH]; intros self v Ht; [exact Ht|].
  destruct rest as [|second more].
  - now apply setitem_tidy.
  - destruct (is_item_path (head :: second :: more)) eqn:Hitem.
    + destruct (item_path_inv _ _ _ Hitem) as [-> Hs].
      rewrite (set_item _ _ _ _ _ Hs).
      destruct (getitem self head) as [x|]; cbn [bind after raising]; auto.
      destruct (item_index second) as [i|]; cbn [bind after raising]; auto.
      destruct (index x i) as [current|]; cbn [bind after raising]; auto.
      match goal with |- context [bind ?c _] => destruct c as [new|] end;
        cbn [bind after raising]; auto.
      destruct x; cbn [store_index after raising]; auto.
      destruct (Seq.setitem l i new); cbn [bind after raising]; auto.
      now apply TidyFacts.tidy_set.
    + rewrite (set_delegate _ _ _ _ _ _ Hitem).
      destruct (getitem self head) as [x|]; cbn [after raising]; auto.
      destruct x; cbn [after raising]; auto.
      now apply TidyFacts.tidy_set.
Qed.

Lemma fill_append items : forall self,
  tidy (self ++ items)%list = true ->
  fill E items self = Ok (self ++ items)%list.
Proof.
  induction items as [|[k v] items IH]; intros self Ht; cbn [fill].
  - now rewrite List.app_nil_r.
  - assert (Dict.mem k self = false /\ is_dict v = false) as [Hk Hv].
    { clear IH. unfold tidy in Ht. apply andb_prop in Ht as [Hd Hn]. split.
      - induction self as [|[k' x] self IHs]; [reflexivity|].
        simpl in Hd. apply andb_prop in Hd as [Hk' Hd].
        simpl in Hn. apply andb_prop in Hn as [_ Hn].
        specialize (IHs Hd Hn). unfold Dict.mem in *. simpl.
        destruct (String.eqb k k') eqn:Hkk; auto.
        apply String.eqb_eq in Hkk. subst k'.
        apply negb_true_iff in Hk'.
        rewrite TidyFacts.lookup_app in Hk'. simpl in Hk'.
        rewrite String.eqb_refl in Hk'.
        destruct (Dict.lookup k self); discriminate.
      - unfold no_plain_dict in Hn. rewrite forallb_app in Hn.
        apply andb_prop in Hn as [_ Hn]. simpl in Hn.
        apply andb_prop in Hn as [Hn _]. now apply negb_true_iff in Hn. }
    rewrite Hk. unfold setitem.
    rewrite stored_fresh by assumption. rewrite (wrap_not_dict _ _ Hv).
    rewrite (TidyFacts.set_fresh _ _ _ Hk).
    rewrite IH; rewrite <- List.app_assoc; [reflexivity|exact Ht].
Qed.

End Tidy.

Section Copies.

Variable E : externals.

Lemma init_tail_csvy self self' :
  init_tail E self = Ok self' ->
  Dict.mem "csvy_model" self' = true ->
  Dict.mem "model" self' = true.
Proof.
  unfold init_tail.
  destruct (Dict.mem "csvy_model" self && Dict.mem "model" self); [discriminate|].
  destruct (Dict.mem "csvy_model" self) eqn:Hc.
  - intros H _. inv_bind H. inv_bind H.
    destruct x; try discriminate. destruct x0; try discriminate.
    inv_bind H. injection H as <-.
    unfold Dict.mem. now rewrite DictFacts.lookup_set_same.
  - intros [= <-]. congruence.
Qed.

Lemma construction_csvy x self :
  ConfigurationNameSpace E x = Ok self ->
  Dict.mem "csvy_model" self = true ->
  Dict.mem "model" self = true.
Proof.
  destruct x; try discriminate; cbn [ConfigurationNameSpace].
  - apply init_tail_csvy.
  - intros H. inv_bind H. eapply init_tail_csvy; eauto.
  - intros H. inv_bind H. eapply init_tail_csvy; eauto.
Qed.

Lemma construction_of_tidy self :
  tidy self = true ->
  ConfigurationNameSpace E (VDict self) = init_tail E self.
Proof.
  intros Ht. cbn [ConfigurationNameSpace].
  now rewrite (fill_append E self [] Ht).
Qed.

End Copies.

(** X8. [deepcopy] returns a namespace equal to the one it is called on,
    for every namespace without a "csvy_model" key that the constructor
    built or that [set_config_item] changed afterwards: such a namespace
    binds each key once and no plain dict, and copying the bindings and
    constructing again stores them unchanged.  ([copy_deepcopy] returns a
    tree equal to its argument.) *)
Theorem deepcopy_returns_equal_namespace (E : externals)
    (copy_deepcopy : value -> result value) :
  (forall x self, ConfigurationNameSpace E x = Ok self -> tidy self = true)
  /\
  (forall self path v,
     tidy self = true -> tidy (after (set_config_item E self path v)) = true)
  /\
  (forall self,
     tidy self = true ->
     Dict.mem "csvy_model" self = false ->
     copy_deepcopy (VDict self) = Ok (VDict self) ->
     deepcopy E copy_deepcopy self = Ok self).
Proof.
  split; [|split].
  - apply construction_tidy.
  - intros self path v. apply set_path_tidy.
  - intros self Ht Hc Hcopy. unfold deepcopy. rewrite Hcopy. cbn [bind].
    rewrite (construction_of_tidy E self Ht). unfold init_tail. now rewrite Hc.
Qed.

(** X9. [deepcopy] of a namespace that was built with a "csvy_model" key
    always raises: construction added "model" beside "csvy_model", and the
    constructor that [deepcopy] calls on the copied bindings refuses the two
    together. *)
Theorem deepcopy_with_csvy_model_raises (E : externals)
    (copy_deepcopy : value -> result value) (x : value) (self : bindings) :
  ConfigurationNameSpace E x = Ok self ->
  Dict.mem "csvy_model" self = true ->
  copy_deepcopy (VDict self) = Ok (VDict self) ->
  deepcopy E copy_deepcopy self = Raise (ValueError BothModelAndCsvyModel).
Proof.
  intros Hb Hc Hcopy. unfold deepcopy. rewrite Hcopy. cbn [bind].
  rewrite (construction_of_tidy E self (construction_tidy E x self Hb)).
  unfold init_tail. now rewrite Hc, (construction_csvy E x self Hb Hc).
Qed.

Lemma deepcopy_with_csvy_model_raises_witness :
  ConfigurationNameSpace lab
    (VDict [("config_dirname", VStr "runs"); ("csvy_model", VStr "model.csvy")])
  = Ok [("config_dirname", VStr "runs"); ("csvy_model", VStr "model.csvy");
        ("model", VNS [("v_inner_boundary", VQuantity 9000 "km/s")])] /\
  deepcopy lab (fun x => Ok x)
    [("config_dirname", VStr "runs"); ("csvy_model", VStr "model.csvy");
     ("model", VNS [("v_inner_boundary", VQuantity 9000 "km/s")])]
  = Raise (ValueError BothModelAndCsvyModel).
Proof.
  split; [reflexivity|].
  exact (@deepcopy_with_csvy_model_raises lab (fun x => Ok x)
           (VDict [("config_dirname", VStr "runs"); ("csvy_model", VStr "model.csvy")])
           [("config_dirname", VStr "runs"); ("csvy_model", VStr "model.csvy");
            ("model", VNS [("v_inner_boundary", VQuantity 9000 "km/s")])]
           eq_refl eq_refl eq_refl).
Defined.

(** X10. A mapping that names a CSVY model but binds neither "model" nor
    "config_dirname" cannot be made a namespace: once its entries are
    stored, the constructor asks for [self.config_dirname] and raises
    [AttributeError].  The same holds of [ConfigurationNameSpace.from_config_dict]
    when the validator hands back such a mapping; only
    [Configuration.from_config_dict] binds "config_dirname" itself. *)
Theorem csvy_model_needs_config_dirname (E : externals) (d : bindings) :
  Dict.mem "csvy_model" d = true ->
  Dict.mem "model" d = false ->
  Dict.mem "config_dirname" d = false ->
  forallb (fun kv => csvy_free (snd kv)) d = true ->
  ConfigurationNameSpace E (VDict d) = Raise AttributeError /\
  (forall config_dict,
     validate_dict E config_dict = Ok (VDict d) ->
     namespace_from_config_dict E config_dict = Raise AttributeError).
Proof.
  intros Hc Hm Hd Hfree.
  assert (ConfigurationNameSpace E (VDict d) = Raise AttributeError) as H.
  { cbn [ConfigurationNameSpace].
    destruct (fill_total E d []) as [self Hself].
    { apply Forall_forall. intros kv Hin. apply wrap_csvy_free.
      rewrite forallb_forall in Hfree. now apply Hfree. }
    rewrite Hself. cbn [bind]. unfold init_tail.
    rewrite !(fill_mem E d self _ Hself), Hc, Hm. cbn [andb].
    apply DictFacts.mem_false in Hd.
    unfold Dict.mem in Hd.
    assert (Dict.lookup "config_dirname" self = None) as ->.
    { pose proof (fill_mem E d self "config_dirname" Hself) as Hmem.
      unfold Dict.mem in Hmem.
      destruct (Dict.lookup "config_dirname" self); auto.
      destruct (Dict.lookup "config_dirname" d); discriminate. }
    reflexivity. }
  split; [exact H|].
  intros config_dict Hv. unfold namespace_from_config_dict. now rewrite Hv.
Qed.

Lemma csvy_model_needs_config_dirname_witness :
  ConfigurationNameSpace lab (VDict [("csvy_model", VStr "model.csvy")])
  = Raise AttributeError.
Proof.
  exact (proj1 (@csvy_model_needs_config_dirname lab [("csvy_model", VStr "model.csvy")]
                  eq_refl eq_refl eq_refl eq_refl)).
Defined.

(** ** The rules read magnitudes only *)

Module UnitFacts.

Lemma lookup_map (f : value -> value) key d :
  Dict.lookup key (map (fun kv => (fst kv, f (snd kv))) d)
  = option_map f (Dict.lookup key d).
Proof.
  induction d as [|[k x] d IH]; simpl; auto.
  destruct (String.eqb key k); auto.
Qed.

Lemma keys_map (f : value -> value) d :
  Dict.keys (map (fun kv => (fst kv, f (snd kv))) d) = Dict.keys d.
Proof. unfold Dict.keys. rewrite map_map. reflexivity. Qed.

Lemma subscript_with_unit u x key :
  subscript (with_unit u x) key = result_map (with_unit u) (subscript x key).
Proof.
  destruct x; try reflexivity; cbn [with_unit subscript]; rewrite lookup_map;
    now destruct (Dict.lookup key d).
Qed.

Lemma subscripts_with_unit u path : forall x,
  subscripts (with_unit u x) path = result_map (with_unit u) (subscripts x path).
Proof.
  induction path as [|k rest IH]; intros x; cbn [subscripts]; [reflexivity|].
  rewrite subscript_with_unit. destruct (subscript x k); cbn [result_map bind]; auto.
Qed.

Lemma attr_value_with_unit u x :
  plain x = true -> attr_value (with_unit u x) = attr_value x.
Proof. destruct x; try reflexivity. discriminate. Qed.

Lemma eq_str_with_unit u x s : eq_str (with_unit u x) s = eq_str x s.
Proof. now destruct x. Qed.

Lemma keys_of_with_unit u x : keys_of (with_unit u x) = keys_of x.
Proof. destruct x; try reflexivity; cbn [with_unit keys_of]; now rewrite keys_map. Qed.

Lemma plain_subscript_value x key y :
  plain x = true -> subscript x key = Ok y -> plain y = true.
Proof.
  intros Hx H. now destruct (plain_subscript x key y Hx H) as (d & _ & _ & Hy).
Qed.

Lemma plain_subscripts path : forall x y,
  plain x = true -> subscripts x path = Ok y -> plain y = true.
Proof.
  induction path as [|k rest IH]; intros x y Hx; cbn [subscripts].
  - now intros [= <-].
  - intros H. step_bind H. apply (IH x0 y); auto.
    eapply plain_subscript_value; eauto.
Qed.

End UnitFacts.

Ltac unit_step :=
  rewrite ?UnitFacts.subscript_with_unit, ?UnitFacts.subscripts_with_unit,
    ?UnitFacts.eq_str_with_unit, ?UnitFacts.keys_of_with_unit;
  match goal with
  | Hp : plain ?x = true |- context [result_map _ (subscripts ?x ?p)] =>
      let H := fresh "H" in
      let v := fresh "v" in
      destruct (subscripts x p) as [v|] eqn:H; cbn [result_map bind];
        [pose proof (UnitFacts.plain_subscripts p x v Hp H)|]; try reflexivity
  | Hp : plain ?x = true |- context [result_map _ (subscript ?x ?k)] =>
      let H := fresh "H" in
      let v := fresh "v" in
      destruct (subscript x k) as [v|] eqn:H; cbn [result_map bind];
        [pose proof (UnitFacts.plain_subscript_value x k v Hp H)|]; try reflexivity
  | |- context [attr_value (with_unit ?u ?v)] =>
      rewrite (UnitFacts.attr_value_with_unit u v) by assumption
  | |- bind ?c _ = bind ?c _ => destruct c; cbn [bind]; try reflexivity
  | |- (if ?b then _ else _) = (if ?b then _ else _) => destruct b; try reflexivity
  end.

Section Magnitudes.

Variable E : externals.

Lemma require_positive_with_unit u x why :
  plain x = true ->
  require_positive E (with_unit u x) why = require_positive E x why.
Proof. intros Hx. unfold require_positive. now rewrite UnitFacts.attr_value_with_unit. Qed.

Lemma check_time_0_with_unit u x :
  plain x = true -> check_time_0 E (with_unit u x) = check_time_0 E x.
Proof.
  intros Hx. unfold check_time_0. repeat unit_step. now apply require_positive_with_unit.
Qed.

Lemma check_rho_0_v_0_with_unit u x :
  plain x = true -> check_rho_0_v_0 E (with_unit u x) = check_rho_0_v_0 E x.
Proof.
  intros Hx. unfold check_rho_0_v_0. do 2 unit_step.
  rewrite !require_positive_with_unit by assumption.
  repeat unit_step. now apply check_time_0_with_unit.
Qed.

Lemma validate_structure_type_with_unit u x :
  plain x = true ->
  validate_structure_type E (with_unit u x) = validate_structure_type E x.
Proof. intros Hx. unfold validate_structure_type. repeat unit_step. Qed.

Lemma validate_density_with_unit u x :
  plain x = true -> validate_density E (with_unit u x) = validate_density E x.
Proof.
  intros Hx. unfold validate_density. repeat unit_step;
    try (now apply check_rho_0_v_0_with_unit).
  rewrite require_positive_with_unit by assumption. unit_step.
  now apply check_time_0_with_unit.
Qed.

Lemma validate_supernova_plasma_with_unit u x :
  plain x = true ->
  validate_supernova_plasma E (with_unit u x) = validate_supernova_plasma E x.
Proof.
  intros Hx. unfold validate_supernova_plasma. do 4 unit_step.
  rewrite require_positive_with_unit by assumption. repeat unit_step.
Qed.

Lemma validate_spectrum_section_with_unit u x relativity :
  plain x = true ->
  validate_spectrum_section E (with_unit u x) relativity
  = validate_spectrum_section E x relativity.
Proof. intros Hx. unfold validate_spectrum_section. repeat unit_step. Qed.

End Magnitudes.

(** X11. On plain data (quantities stand where the rules read a [.value],
    no namespace does) the physical rules read magnitudes only: replacing
    every unit in a section by any other unit changes nothing in what
    [validate_model_section], the supernova and plasma rules and
    [validate_spectrum_section] return or raise.  A stop velocity of
    500 m/s after a start of 1 km/s passes as 500 after 1. *)
Theorem rules_ignore_units (E : externals) (u : unit_name) (x : value) :
  plain x = true ->
  validate_model_section E (with_unit u x) = validate_model_section E x /\
  validate_supernova_plasma E (with_unit u x) = validate_supernova_plasma E x /\
  (forall relativity,
     validate_spectrum_section E (with_unit u x) relativity
     = validate_spectrum_section E x relativity).
Proof.
  intros Hx. split; [|split].
  - unfold validate_model_section.
    now rewrite validate_structure_type_with_unit, validate_density_with_unit.
  - now apply validate_supernova_plasma_with_unit.
  - intros relativity. now apply validate_spectrum_section_with_unit.
Qed.

Lemma rules_ignore_units_witness :
  validate_model_section lab
    (VDict [("structure",
             VDict [("type", VStr "specific");
                    ("velocity", VDict [("start", VQuantity 1 "km/s");
                                        ("stop", VQuantity 500 "m/s")])])])
  = Ok tt /\
  validate_model_section lab
    (VDict [("structure",
             VDict [("type", VStr "specific");
                    ("velocity", VDict [("start", VQuantity 1 "m/s");
                                        ("stop", VQuantity 500 "m/s")])])])
  = Ok tt.
Proof.
  split; [reflexivity|].
  exact (eq_trans
           (proj1 (@rules_ignore_units lab "m/s"
                     (VDict [("structure",
                              VDict [("type", VStr "specific");
                                     ("velocity", VDict [("start", VQuantity 1 "km/s");
                                                         ("stop", VQuantity 500 "m/s")])])])
                     eq_refl))
           eq_refl).
Defined.

(** ** What an accepted configuration satisfies *)

Module NumFacts.

Lemma lt_false a b : Num.lt a b = false -> ordered_or_nan b a.
Proof.
  unfold ordered_or_nan.
  destruct a, b; simpl; intros H; auto; try discriminate.
  right. right. now apply negb_false_iff in H.
Qed.

Lemma le_zero_false t : Num.le t 0 = false -> positive_or_nan t.
Proof.
  unfold positive_or_nan. destruct t; simpl; intros H; auto; try discriminate.
  right. now rewrite H.
Qed.

(** On rationals the two notions are the order of the rationals. *)
Lemma ordered_finite (p q : Q) : ordered_or_nan p q <-> (p <= q)%Q.
Proof.
  unfold ordered_or_nan. simpl. rewrite Qle_bool_iff. split.
  - intros [H|[H|H]]; [discriminate|discriminate|exact H].
  - auto.
Qed.

Lemma positive_finite (q : Q) : positive_or_nan q <-> (0 < q)%Q.
Proof.
  unfold positive_or_nan. simpl. split.
  - intros [H|H]; [discriminate|].
    apply negb_true_iff in H. apply Qnot_le_lt. intros Hle.
    apply Qle_bool_iff in Hle. congruence.
  - intros H. right. apply negb_true_iff.
    destruct (Qle_bool q 0) eqn:Hc; auto.
    apply Qle_bool_iff in Hc. exfalso. exact (Qlt_not_le _ _ H Hc).
Qed.

End NumFacts.

Section Obeyed.

Variable E : externals.

Lemma init_tail_other self self' key :
  init_tail E self = Ok self' -> key <> "model" ->
  Dict.lookup key self' = Dict.lookup key self.
Proof.
  unfold init_tail. intros H Hk.
  destruct (Dict.mem "csvy_model" self && Dict.mem "model" self); [discriminate|].
  destruct (Dict.mem "csvy_model" self); [|now injection H as <-].
  inv_bind H. inv_bind H. destruct x; try discriminate.
  destruct x0; try discriminate. inv_bind H. injection H as <-.
  now apply DictFacts.lookup_set_other.
Qed.

Lemma init_tail_without_csvy self self' :
  init_tail E self = Ok self' -> Dict.mem "csvy_model" self' = false -> self' = self.
Proof.
  intros H Hc. pose proof (init_tail_mem E self self' "csvy_model" H ltac:(discriminate)) as Hm.
  unfold init_tail in H. rewrite <- Hm, Hc in H. cbn [andb] in H. now injection H as <-.
Qed.

Lemma fill_reads d s key v' :
  fill E d [] = Ok s -> Dict.lookup key s = Some v' ->
  exists v, Dict.lookup key d = Some v /\ wrap E v = Ok v'.
Proof.
  intros H Hk. pose proof (fill_lookup E d [] s H key) as Hf. cbn [Dict.lookup] in Hf.
  destruct (Dict.lookup key d) as [x|].
  - destruct Hf as (v & Hw & Hv). exists x. split; auto. congruence.
  - congruence.
Qed.

Lemma settled_subscript x x' key v' :
  x' = x \/ wrap E x = Ok x' ->
  key <> "model" ->
  subscript x' key = Ok v' ->
  exists v, subscript x key = Ok v /\ (v' = v \/ wrap E v = Ok v').
Proof.
  intros [->|Hw] Hk Hs; [eauto|].
  destruct x; try (injection Hw as <-; eauto).
  rewrite wrap_dict in Hw. cbn [ConfigurationNameSpace] in Hw.
  destruct (fill E d []) as [s0|] eqn:Hfill; cbn [bind] in Hw; [|discriminate].
  destruct (init_tail E s0) as [s1|] eqn:Htail; cbn [bind] in Hw; [|discriminate].
  injection Hw as <-. cbn [subscript] in *.
  destruct (Dict.lookup key s1) as [w|] eqn:Hl; [|discriminate].
  injection Hs as <-.
  rewrite (init_tail_other _ _ _ Htail Hk) in Hl.
  destruct (fill_reads _ _ _ _ Hfill Hl) as (v & Hv & Hwv).
  exists v. rewrite Hv. auto.
Qed.

Lemma settled_subscripts path : forall x x' v',
  x' = x \/ wrap E x = Ok x' ->
  ~ In "model" path ->
  subscripts x' path = Ok v' ->
  exists v, subscripts x path = Ok v /\ (v' = v \/ wrap E v = Ok v').
Proof.
  induction path as [|k rest IH]; intros x x' v' Hx Hm Hs.
  - injection Hs as <-. exists x. split; [reflexivity|]. destruct Hx; auto.
  - cbn [subscripts] in *. step_bind Hs.
    destruct (settled_subscript x x' k x0 Hx) as (y & Hy & Hxy); auto.
    { intros ->. apply Hm. now left. }
    rewrite Hy. cbn [bind]. apply (IH y x0); auto.
    intros Hin. apply Hm. now right.
Qed.

Lemma settled_quantity v m u :
  VQuantity m u = v \/ wrap E v = Ok (VQuantity m u) -> v = VQuantity m u.
Proof.
  intros [<-|Hw]; [reflexivity|].
  destruct v; try (injection Hw; congruence).
  rewrite wrap_dict in Hw. inv_bind Hw. discriminate.
Qed.

Lemma settled_str v s : VStr s = v \/ wrap E v = Ok (VStr s) -> v = VStr s.
Proof.
  intros [<-|Hw]; [reflexivity|].
  destruct v; try (injection Hw; congruence).
  rewrite wrap_dict in Hw. inv_bind Hw. discriminate.
Qed.

Lemma construction_reads vcd cfg key v' :
  ConfigurationNameSpace E vcd = Ok cfg ->
  key <> "model" \/ Dict.mem "csvy_model" cfg = false ->
  Dict.lookup key cfg = Some v' ->
  exists v, subscript vcd key = Ok v /\ wrap E v = Ok v'.
Proof.
  intros Hb Hk Hl.
  assert (forall d, (self <- fill E d [] ;; init_tail E self) = Ok cfg ->
                    exists v, Dict.lookup key d = Some v /\ wrap E v = Ok v') as Hd.
  { intros d H. inv_bind H.
    assert (Dict.lookup key x = Some v') as Hx0.
    { destruct Hk as [Hk|Hk].
      - now rewrite <- (init_tail_other _ _ _ H Hk).
      - now rewrite <- (init_tail_without_csvy _ _ H Hk). }
    eapply fill_reads; eauto. }
  destruct vcd; try discriminate; cbn [ConfigurationNameSpace subscript] in *.
  - assert (cfg = []) as ->; [|discriminate].
    unfold init_tail in Hb. cbn in Hb. now injection Hb as <-.
  - destruct (Hd _ Hb) as (v & -> & Hv). cbn [of_option]. eauto.
  - destruct (Hd _ Hb) as (v & -> & Hv). cbn [of_option]. eauto.
Qed.

(** A path of keys read from the configuration reads, in the document the
    rules saw, the value it was made from. *)
Lemma accepted_reads vcd cfg head rest v' :
  ConfigurationNameSpace E vcd = Ok cfg ->
  head <> "model" \/ Dict.mem "csvy_model" cfg = false ->
  ~ In "model" rest ->
  ends_in_item (head :: rest) = false ->
  get_config_item_path cfg (head :: rest) = Ok v' ->
  exists v, subscripts vcd (head :: rest) = Ok v /\ (v' = v \/ wrap E v = Ok v').
Proof.
  intros Hb Hk Hm He Hg.
  apply get_path_subscripts in Hg; [|exact He].
  cbn [subscripts] in *. step_bind Hg. cbn [subscript] in Hx.
  destruct (Dict.lookup head cfg) as [w|] eqn:Hl; [|discriminate].
  injection Hx as ->.
  destruct (construction_reads vcd cfg head x Hb Hk Hl) as (v & Hv & Hw).
  rewrite Hv. cbn [bind]. apply (settled_subscripts rest v x); auto.
Qed.

Lemma construction_keys vcd cfg :
  ConfigurationNameSpace E vcd = Ok cfg ->
  Dict.mem "csvy_model" cfg = false ->
  forall ks key, keys_of vcd = Ok ks -> in_keys key ks = Dict.mem key cfg.
Proof.
  intros Hb Hc ks key Hks.
  assert (forall d, (self <- fill E d [] ;; init_tail E self) = Ok cfg ->
                    Dict.mem key cfg = Dict.mem key d) as Hd.
  { intros d H. inv_bind H. rewrite (init_tail_without_csvy _ _ H Hc).
    eapply fill_mem; eauto. }
  destruct vcd; try discriminate; cbn [ConfigurationNameSpace keys_of] in *;
    injection Hks as <-; rewrite DictFacts.in_keys_mem; symmetry; now apply Hd.
Qed.

(** What the facade has checked when it returns. *)
Lemma from_config_dict_checked config_dict validate config_dirname cfg :
  from_config_dict E config_dict validate config_dirname = Ok cfg ->
  exists vcd,
    ConfigurationNameSpace E vcd = Ok cfg /\
    (exists spectrum relativity,
       subscript vcd "spectrum" = Ok spectrum /\
       validate_spectrum_section E spectrum relativity = Ok tt) /\
    (forall ks, keys_of vcd = Ok ks ->
       in_keys "csvy_model" ks = false -> in_keys "model" ks = true ->
       exists model_section,
         subscript vcd "model" = Ok model_section /\
         validate_model_section E model_section = Ok tt /\
         validate_supernova_plasma E vcd = Ok tt).
Proof.
  unfold from_config_dict. intros H.
  step_bind H. step_bind H. step_bind H. step_bind H.
  cbv zeta in H. set (vcd := mutated_in_place x0 "montecarlo" x2) in *.
  destruct (keys_of vcd) as [ks|] eqn:Hks; cbn [bind] in H; [|discriminate].
  match type of H with
  | bind ?pre _ = _ => destruct pre as [[]|] eqn:Hpre; cbn [bind] in H; [|discriminate]
  end.
  destruct (subscript vcd "spectrum") as [spectrum|] eqn:Hsp; cbn [bind] in H; [|discriminate].
  destruct (subscript x2 "enable_full_relativity") as [relativity|] eqn:Hrel;
    cbn [bind] in H; [|discriminate].
  destruct (validate_spectrum_section E spectrum relativity) as [[]|] eqn:Hspec;
    cbn [bind] in H; [|discriminate].
  exists vcd. split; [exact H|]. split; [eauto|].
  intros ks' Hks' Hc Hm. rewrite Hks in Hks'. injection Hks' as <-.
  rewrite Hc in Hpre. cbn [bind] in Hpre. rewrite Hm in Hpre.
  destruct (subscript vcd "model") as [model_section|] eqn:Hmodel; cbn [bind] in Hpre;
    [|discriminate].
  destruct (validate_model_section E model_section) as [[]|] eqn:Hrules; cbn [bind] in Hpre;
    [|discriminate].
  exists model_section. repeat split; assumption.
Qed.

Lemma require_positive_quantity {A} m u why (k : result A) r :
  (require_positive E (VQuantity m u) why ;;; k) = Ok r -> positive_or_nan m /\ k = Ok r.
Proof.
  unfold require_positive, le. cbn [attr_value compare as_number bind].
  destruct (Num.le m 0) eqn:Hc; [discriminate|]. cbn [raise_if bind]. intros H.
  split; [|exact H]. now apply NumFacts.le_zero_false.
Qed.

Lemma passed_gt {A} a b e (k : result A) r :
  (c <- gt E (VNum a) (VNum b) ;; raise_if c e ;;; k) = Ok r -> ordered_or_nan a b /\ k = Ok r.
Proof.
  unfold gt, lt. cbn [compare as_number bind].
  destruct (Num.lt b a) eqn:Hc; [discriminate|]. cbn [raise_if bind]. intros H.
  split; [|exact H]. now apply NumFacts.lt_false.
Qed.

Lemma passed_lt {A} a b e (k : result A) r :
  (c <- lt E (VNum a) (VNum b) ;; raise_if c e ;;; k) = Ok r -> ordered_or_nan b a /\ k = Ok r.
Proof.
  unfold lt. cbn [compare as_number bind].
  destruct (Num.lt a b) eqn:Hc; [discriminate|]. cbn [raise_if bind]. intros H.
  split; [|exact H]. now apply NumFacts.lt_false.
Qed.

Lemma passed_lt_last a b e r :
  (c <- lt E (VNum a) (VNum b) ;; raise_if c e) = Ok r -> ordered_or_nan b a.
Proof.
  unfold lt. cbn [compare as_number bind].
  destruct (Num.lt a b) eqn:Hc; [discriminate|]. intros _. now apply NumFacts.lt_false.
Qed.

Lemma accepted_quantity vcd cfg head rest m u :
  ConfigurationNameSpace E vcd = Ok cfg ->
  head <> "model" \/ Dict.mem "csvy_model" cfg = false ->
  ~ In "model" rest ->
  ends_in_item (head :: rest) = false ->
  get_config_item_path cfg (head :: rest) = Ok (VQuantity m u) ->
  subscripts vcd (head :: rest) = Ok (VQuantity m u).
Proof.
  intros Hb Hk Hm He Hg.
  destruct (accepted_reads vcd cfg head rest _ Hb Hk Hm He Hg) as (v & Hv & Hs).
  now rewrite (settled_quantity v m u Hs) in Hv.
Qed.

Lemma accepted_str vcd cfg head rest s :
  ConfigurationNameSpace E vcd = Ok cfg ->
  head <> "model" \/ Dict.mem "csvy_model" cfg = false ->
  ~ In "model" rest ->
  ends_in_item (head :: rest) = false ->
  get_config_item_path cfg (head :: rest) = Ok (VStr s) ->
  subscripts vcd (head :: rest) = Ok (VStr s).
Proof.
  intros Hb Hk Hm He Hg.
  destruct (accepted_reads vcd cfg head rest _ Hb Hk Hm He Hg) as (v & Hv & Hs).
  now rewrite (settled_str v s Hs) in Hv.
Qed.

Lemma subscripts_two x a b v :
  subscripts x [a; b] = Ok v ->
  exists y, subscript x a = Ok y /\ subscript y b = Ok v.
Proof.
  cbn [subscripts]. intros H. step_bind H. step_bind H. injection H as <-. eauto.
Qed.

Lemma spectrum_passed spectrum relativity a ua b ub :
  validate_spectrum_section E spectrum relativity = Ok tt ->
  subscript spectrum "start" = Ok (VQuantity a ua) ->
  subscript spectrum "stop" = Ok (VQuantity b ub) ->
  ordered_or_nan a b.
Proof.
  unfold validate_spectrum_section. intros H Ha Hb.
  rewrite Ha, Hb in H. cbn [bind attr_value] in H.
  now apply passed_gt in H as [H _].
Qed.

Lemma supernova_plasma_passed vcd :
  validate_supernova_plasma E vcd = Ok tt ->
  (forall t u,
     subscripts vcd ["supernova"; "time_explosion"] = Ok (VQuantity t u) -> positive_or_nan t)
  /\
  (forall a ua b ub,
     subscripts vcd ["supernova"; "luminosity_wavelength_start"] = Ok (VQuantity a ua) ->
     subscripts vcd ["supernova"; "luminosity_wavelength_end"] = Ok (VQuantity b ub) ->
     ordered_or_nan a b)
  /\
  (forall t u,
     subscripts vcd ["plasma"; "initial_t_inner"] = Ok (VQuantity t u) -> ordered_or_nan (-1) t)
  /\
  (forall t u,
     subscripts vcd ["plasma"; "initial_t_rad"] = Ok (VQuantity t u) -> ordered_or_nan (-1) t).
Proof.
  unfold validate_supernova_plasma. intros H.
  step_bind H. step_bind H. step_bind H. step_bind H.
  split; [|split; [|split]].
  - intros t u Ht. apply subscripts_two in Ht as (y & Hy & Ht).
    rewrite Hx in Hy. injection Hy as <-. rewrite Hx0 in Ht. injection Ht as ->.
    now apply require_positive_quantity in H as [H _].
  - intros a ua b ub Ha Hb.
    apply subscripts_two in Ha as (y & Hy & Ha).
    rewrite Hx in Hy. injection Hy as <-. rewrite Hx1 in Ha. injection Ha as ->.
    apply subscripts_two in Hb as (y & Hy & Hb).
    rewrite Hx in Hy. injection Hy as <-. rewrite Hx2 in Hb. injection Hb as ->.
    step_bind H. cbn [bind attr_value] in H.
    now apply passed_gt in H as [H _].
  - intros t u Ht. apply subscripts_two in Ht as (y & Hy & Ht).
    do 6 step_bind H. injection Hy as <-.
    rewrite Ht in H. cbn [bind] in H.
    step_bind H. cbn [bind attr_value] in H.
    now apply passed_lt in H as [H _].
  - intros t u Ht. apply subscripts_two in Ht as (y & Hy & Ht).
    do 6 step_bind H. injection Hy as <-.
    step_bind H. rewrite Ht in H. cbn [bind] in H.
    do 3 step_bind H. cbn [bind attr_value] in H.
    now apply passed_lt_last in H.
Qed.

Lemma require_positive_last m u why r :
  require_positive E (VQuantity m u) why = Ok r -> positive_or_nan m.
Proof.
  unfold require_positive, le. cbn [attr_value compare as_number bind].
  destruct (Num.le m 0) eqn:Hc; [discriminate|]. intros _.
  now apply NumFacts.le_zero_false.
Qed.

Lemma subscripts_three x a b c v :
  subscripts x [a; b; c] = Ok v ->
  exists y, subscripts x [a; b] = Ok y /\ subscript y c = Ok v.
Proof.
  cbn [subscripts]. intros H. step_bind H. step_bind H. step_bind H.
  injection H as <-. exists x1. cbn [bind]. rewrite Hx0. auto.
Qed.

Lemma check_time_0_passed ms t u :
  check_time_0 E ms = Ok tt ->
  subscripts ms ["structure"; "density"; "time_0"] = Ok (VQuantity t u) ->
  positive_or_nan t.
Proof.
  unfold check_time_0. intros H Ht.
  destruct (subscripts_three _ _ _ _ _ Ht) as (y & Hy & Hk).
  rewrite Hy in H. cbn [bind] in H. step_bind H.
  rewrite (subscript_in_keys _ _ _ _ Hk Hx) in H.
  rewrite Ht in H. cbn [bind] in H.
  now apply require_positive_last in H.
Qed.

Lemma check_rho_0_v_0_passed ms :
  check_rho_0_v_0 E ms = Ok tt ->
  (forall m u,
     subscripts ms ["structure"; "density"; "rho_0"] = Ok (VQuantity m u) -> positive_or_nan m) /\
  (forall m u,
     subscripts ms ["structure"; "density"; "v_0"] = Ok (VQuantity m u) -> positive_or_nan m) /\
  (forall m u,
     subscripts ms ["structure"; "density"; "time_0"] = Ok (VQuantity m u) -> positive_or_nan m).
Proof.
  unfold check_rho_0_v_0. intros H. split; [|split]; intros m u Hm.
  - rewrite Hm in H. cbn [bind] in H. step_bind H.
    now apply require_positive_quantity in H as [H _].
  - step_bind H. rewrite Hm in H. cbn [bind] in H. step_bind H.
    now apply require_positive_quantity in H as [H _].
  - do 4 step_bind H. destruct x2. eapply check_time_0_passed; eauto.
Qed.

Lemma validate_structure_type_passed ms :
  validate_structure_type E ms = Ok tt ->
  (subscripts ms ["structure"; "type"] = Ok (VStr "specific") ->
   forall a ua b ub,
     subscripts ms ["structure"; "velocity"; "start"] = Ok (VQuantity a ua) ->
     subscripts ms ["structure"; "velocity"; "stop"] = Ok (VQuantity b ub) ->
     ordered_or_nan a b) /\
  (subscripts ms ["structure"; "type"] = Ok (VStr "file") ->
   forall a ua b ub,
     subscripts ms ["structure"; "v_inner_boundary"] = Ok (VQuantity a ua) ->
     subscripts ms ["structure"; "v_outer_boundary"] = Ok (VQuantity b ub) ->
     ordered_or_nan a b).
Proof.
  unfold validate_structure_type. intros H. split; intros Ht a ua b ub Ha Hb;
    rewrite Ht in H; cbn [bind] in H.
  - change (eq_str (VStr "specific") "specific") with true in H. cbv iota in H.
    rewrite Ha, Hb in H. cbn [bind attr_value] in H.
    now apply passed_lt_last in H.
  - change (eq_str (VStr "file") "specific") with false in H. cbv iota in H.
    change (eq_str (VStr "file") "file") with true in H. cbv iota in H.
    rewrite Ha, Hb in H. cbn [bind attr_value] in H.
    now apply passed_lt_last in H.
Qed.

Lemma validate_density_passed ms t :
  validate_density E ms = Ok tt ->
  subscripts ms ["structure"; "density"; "type"] = Ok (VStr t) ->
  (t = "exponential" \/ t = "power_law" ->
   (forall m u,
      subscripts ms ["structure"; "density"; "rho_0"] = Ok (VQuantity m u) -> positive_or_nan m) /\
   (forall m u,
      subscripts ms ["structure"; "density"; "v_0"] = Ok (VQuantity m u) -> positive_or_nan m) /\
   (forall m u,
      subscripts ms ["structure"; "density"; "time_0"] = Ok (VQuantity m u) -> positive_or_nan m))
  /\
  (t = "uniform" ->
   (forall m u,
      subscripts ms ["structure"; "density"; "value"] = Ok (VQuantity m u) -> positive_or_nan m) /\
   (forall m u,
      subscripts ms ["structure"; "density"; "time_0"] = Ok (VQuantity m u) -> positive_or_nan m)).
Proof.
  unfold validate_density. intros H Ht.
  assert (exists s d, subscript ms "structure" = Ok s /\ subscript s "density" = Ok d)
    as (s & d & Hs & Hd).
  { cbn [subscripts] in Ht. do 2 step_bind Ht. eauto. }
  rewrite Hs in H. cbn [bind] in H. step_bind H.
  rewrite (subscript_in_keys _ _ _ _ Hd Hx) in H.
  rewrite Ht in H. cbn [bind] in H.
  split.
  - intros [->| ->].
    + change (eq_str (VStr "exponential") "exponential") with true in H. cbv iota in H.
      now apply check_rho_0_v_0_passed.
    + change (eq_str (VStr "power_law") "exponential") with false in H. cbv iota in H.
      change (eq_str (VStr "power_law") "power_law") with true in H. cbv iota in H.
      now apply check_rho_0_v_0_passed.
  - intros ->.
    change (eq_str (VStr "uniform") "exponential") with false in H. cbv iota in H.
    change (eq_str (VStr "uniform") "power_law") with false in H. cbv iota in H.
    change (eq_str (VStr "uniform") "uniform") with true in H. cbv iota in H.
    split; intros m u Hm.
    + rewrite Hm in H. cbn [bind] in H.
      now apply require_positive_quantity in H as [H _].
    + step_bind H. step_bind H. destruct x1. eapply check_time_0_passed; eauto.
Qed.

Lemma validate_model_section_passed ms :
  validate_model_section E ms = Ok tt ->
  validate_structure_type E ms = Ok tt /\ validate_density E ms = Ok tt.
Proof.
  unfold validate_model_section. intros H.
  destruct (validate_structure_type E ms) as [[]|]; [|discriminate]. auto.
Qed.

Lemma accepted_model config_dict validate config_dirname cfg :
  from_config_dict E config_dict validate config_dirname = Ok cfg ->
  Dict.mem "csvy_model" cfg = false ->
  exists vcd,
    (forall ms, subscript vcd "model" = Ok ms -> validate_model_section E ms = Ok tt) /\
    (forall rest m u,
       ~ In "model" rest -> ends_in_item ("model" :: rest) = false ->
       get_config_item_path cfg ("model" :: rest) = Ok (VQuantity m u) ->
       exists ms, subscript vcd "model" = Ok ms /\ subscripts ms rest = Ok (VQuantity m u)) /\
    (forall rest s,
       ~ In "model" rest -> ends_in_item ("model" :: rest) = false ->
       get_config_item_path cfg ("model" :: rest) = Ok (VStr s) ->
       exists ms, subscript vcd "model" = Ok ms /\ subscripts ms rest = Ok (VStr s)).
Proof.
  intros Hacc Hc.
  destruct (from_config_dict_checked _ _ _ _ Hacc)
    as (vcd & Hb & (spectrum & rel & Hsp & Hspec) & Hmodel).
  exists vcd. split; [|split].
  - intros ms Hms. destruct (subscript_has_keys _ _ _ Hms) as [ks Hks].
    destruct (Hmodel ks Hks) as (ms' & Hms' & Hrules & _).
    + now rewrite (construction_keys vcd cfg Hb Hc ks "csvy_model" Hks).
    + eapply subscript_in_keys; eauto.
    + congruence.
  - intros rest m u Hm He Hg.
    pose proof (accepted_quantity vcd cfg "model" rest m u Hb (or_intror Hc) Hm He Hg) as H.
    cbn [subscripts] in H. destruct (subscript vcd "model") as [ms|]; [|discriminate].
    eauto.
  - intros rest s Hm He Hg.
    pose proof (accepted_str vcd cfg "model" rest s Hb (or_intror Hc) Hm He Hg) as H.
    cbn [subscripts] in H. destruct (subscript vcd "model") as [ms|]; [|discriminate].
    eauto.
Qed.

End Obeyed.

Ltac no_model := cbn [In]; intuition discriminate.

Ltac read_path H :=
  unfold get_config_item in H;
  match type of H with
  | get_config_item_path _ (Str.split "." ?s) = _ =>
      let p := eval vm_compute in (Str.split "." s) in
      change (Str.split "." s) with p in H
  end.

(** X12. A configuration that [Configuration.from_config_dict] returns
    satisfies the rules, as read back from the configuration itself: where
    [spectrum.start] and [spectrum.stop] are quantities, start is at most
    stop; and when the configuration has a "model" and no "csvy_model", the
    time of explosion is positive, the luminosity wavelengths are in order,
    and the two initial temperatures are at least -1 (the magnitudes are
    compared, whatever the units).  The rules raise when a comparison is
    true, so a magnitude that is not-a-number passes each of them:
    "positive" and "at most" are [positive_or_nan] and [ordered_or_nan]. *)
Theorem accepted_configuration_obeys_rules (E : externals) (config_dict : value)
    (validate : bool) (config_dirname : string) (cfg : bindings) :
  from_config_dict E config_dict validate config_dirname = Ok cfg ->
  (forall a ua b ub,
     get_config_item cfg "spectrum.start" = Ok (VQuantity a ua) ->
     get_config_item cfg "spectrum.stop" = Ok (VQuantity b ub) ->
     ordered_or_nan a b)
  /\
  (Dict.mem "csvy_model" cfg = false ->
   Dict.mem "model" cfg = true ->
   (forall t u,
      get_config_item cfg "supernova.time_explosion" = Ok (VQuantity t u) -> positive_or_nan t)
   /\
   (forall a ua b ub,
      get_config_item cfg "supernova.luminosity_wavelength_start" = Ok (VQuantity a ua) ->
      get_config_item cfg "supernova.luminosity_wavelength_end" = Ok (VQuantity b ub) ->
      ordered_or_nan a b)
   /\
   (forall t u,
      get_config_item cfg "plasma.initial_t_inner" = Ok (VQuantity t u) -> ordered_or_nan (-1) t)
   /\
   (forall t u,
      get_config_item cfg "plasma.initial_t_rad" = Ok (VQuantity t u) -> ordered_or_nan (-1) t)).
Proof.
  intros Hacc.
  destruct (from_config_dict_checked _ _ _ _ _ Hacc)
    as (vcd & Hb & (spectrum & rel & Hsp & Hspec) & Hmodel).
  assert (forall head key m u,
            head <> "model" -> key <> "model" ->
            get_config_item_path cfg [head; key] = Ok (VQuantity m u) ->
            Str.startswith "item" key = false ->
            subscripts vcd [head; key] = Ok (VQuantity m u)) as Hread.
  { intros head key m u Hh Hkey Hg Hk.
    apply (accepted_quantity E vcd cfg head [key] m u Hb (or_introl Hh)); auto.
    - cbn [In]. intros [Heq|[]]. congruence.
    - cbn [ends_in_item is_item_path]. now rewrite Hk. }
  split.
  - intros a ua b ub Ha Hb'. read_path Ha. read_path Hb'.
    apply Hread in Ha; [|discriminate|discriminate|reflexivity].
    apply Hread in Hb'; [|discriminate|discriminate|reflexivity].
    apply subscripts_two in Ha as (y & Hy & Ha). rewrite Hsp in Hy. injection Hy as <-.
    apply subscripts_two in Hb' as (y & Hy & Hb'). rewrite Hsp in Hy. injection Hy as <-.
    eapply spectrum_passed; eauto.
  - intros Hc Hm.
    destruct (subscript_has_keys _ _ _ Hsp) as [ks Hks].
    destruct (Hmodel ks Hks) as (ms & _ & _ & Hrules).
    { now rewrite (construction_keys E vcd cfg Hb Hc ks "csvy_model" Hks). }
    { now rewrite (construction_keys E vcd cfg Hb Hc ks "model" Hks). }
    destruct (supernova_plasma_passed E vcd Hrules) as (H1 & H2 & H3 & H4).
    split; [|split; [|split]].
    + intros t u Ht. read_path Ht. apply Hread in Ht; [|discriminate|discriminate|reflexivity]. eauto.
    + intros a ua b ub Ha Hb'. read_path Ha. read_path Hb'.
      apply Hread in Ha; [|discriminate|discriminate|reflexivity].
      apply Hread in Hb'; [|discriminate|discriminate|reflexivity]. eauto.
    + intros t u Ht. read_path Ht. apply Hread in Ht; [|discriminate|discriminate|reflexivity]. eauto.
    + intros t u Ht. read_path Ht. apply Hread in Ht; [|discriminate|discriminate|reflexivity]. eauto.
Qed.

Lemma accepted_configuration_obeys_rules_witness :
  from_config_dict lab full_document false "runs" = Ok full_configuration /\
  get_config_item full_configuration "plasma.initial_t_inner" = Ok (VQuantity (-1) "K") /\
  ordered_or_nan (-1) (-1).
Proof.
  split; [reflexivity|]. split; [reflexivity|].
  exact (proj1 (proj2 (proj2
           (proj2 (@accepted_configuration_obeys_rules lab full_document false "runs"
                     full_configuration eq_refl) eq_refl eq_refl)))
           (-1)%Q "K" eq_refl).
Defined.

(** Not-a-number passes the rules: no comparison with it is true. *)
Example nan_passes_the_rules :
  require_positive lab (VQuantity NaN "day") TimeOfExplosionInvalid = Ok tt /\
  validate_spectrum_section lab
    (VDict [("start", VQuantity NaN "angstrom"); ("stop", VQuantity 500 "angstrom");
            ("method", VStr "virtual")]) (VBool false) = Ok tt.
Proof. split; reflexivity. Qed.

(** X13. A configuration that [Configuration.from_config_dict] returns
    without a "csvy_model" satisfies the rules of the model section, as read
    back from the configuration: with structure type "specific" the velocity
    start is at most the stop, with "file" the inner boundary is at most the
    outer one; with density type "exponential" or "power_law" the quantities
    [rho_0], [v_0] and (when bound) [time_0] are positive, with "uniform"
    the quantities [value] and [time_0] are.  As in X12 a magnitude that is
    not-a-number passes: "positive" and "at most" are [positive_or_nan] and
    [ordered_or_nan]. *)
Theorem accepted_model_obeys_rules (E : externals) (config_dict : value)
    (validate : bool) (config_dirname : string) (cfg : bindings) :
  from_config_dict E config_dict validate config_dirname = Ok cfg ->
  Dict.mem "csvy_model" cfg = false ->
  (get_config_item cfg "model.structure.type" = Ok (VStr "specific") ->
   forall a ua b ub,
     get_config_item cfg "model.structure.velocity.start" = Ok (VQuantity a ua) ->
     get_config_item cfg "model.structure.velocity.stop" = Ok (VQuantity b ub) ->
     ordered_or_nan a b)
  /\
  (get_config_item cfg "model.structure.type" = Ok (VStr "file") ->
   forall a ua b ub,
     get_config_item cfg "model.structure.v_inner_boundary" = Ok (VQuantity a ua) ->
     get_config_item cfg "model.structure.v_outer_boundary" = Ok (VQuantity b ub) ->
     ordered_or_nan a b)
  /\
  (forall t,
     get_config_item cfg "model.structure.density.type" = Ok (VStr t) ->
     t = "exponential" \/ t = "power_law" ->
     forall name m u,
       name = "rho_0" \/ name = "v_0" \/ name = "time_0" ->
       get_config_item_path cfg ["model"; "structure"; "density"; name]
       = Ok (VQuantity m u) ->
       positive_or_nan m)
  /\
  (get_config_item cfg "model.structure.density.type" = Ok (VStr "uniform") ->
   forall name m u,
     name = "value" \/ name = "time_0" ->
     get_config_item_path cfg ["model"; "structure"; "density"; name]
     = Ok (VQuantity m u) ->
     positive_or_nan m).
Proof.
  intros Hacc Hc.
  destruct (accepted_model E _ _ _ _ Hacc Hc) as (vcd & Hrules & Hq & Hs).
  assert (forall rest s ms,
            ~ In "model" rest -> ends_in_item ("model" :: rest) = false ->
            get_config_item_path cfg ("model" :: rest) = Ok (VStr s) ->
            subscript vcd "model" = Ok ms -> subscripts ms rest = Ok (VStr s)) as Hs'.
  { intros rest s ms H1 H2 H3 H4. destruct (Hs rest s H1 H2 H3) as (ms' & Hms' & Hr).
    congruence. }
  assert (forall rest m u ms,
            ~ In "model" rest -> ends_in_item ("model" :: rest) = false ->
            get_config_item_path cfg ("model" :: rest) = Ok (VQuantity m u) ->
            subscript vcd "model" = Ok ms -> subscripts ms rest = Ok (VQuantity m u)) as Hq'.
  { intros rest m u ms H1 H2 H3 H4. destruct (Hq rest m u H1 H2 H3) as (ms' & Hms' & Hr).
    congruence. }
  split; [|split; [|split]].
  - intros Ht a ua b ub Ha Hb. read_path Ht. read_path Ha. read_path Hb.
    edestruct (fun H1 H2 => Hs _ _ H1 H2 Ht) as (ms & Hms & Ht'); [no_model|reflexivity|].
    apply (Hq' _ _ _ ms) in Ha; [|no_model|reflexivity|assumption].
    apply (Hq' _ _ _ ms) in Hb; [|no_model|reflexivity|assumption].
    destruct (validate_model_section_passed E ms (Hrules ms Hms)) as (Hst & _).
    destruct (validate_structure_type_passed E ms Hst) as (H1 & _). eauto.
  - intros Ht a ua b ub Ha Hb. read_path Ht. read_path Ha. read_path Hb.
    edestruct (fun H1 H2 => Hs _ _ H1 H2 Ht) as (ms & Hms & Ht'); [no_model|reflexivity|].
    apply (Hq' _ _ _ ms) in Ha; [|no_model|reflexivity|assumption].
    apply (Hq' _ _ _ ms) in Hb; [|no_model|reflexivity|assumption].
    destruct (validate_model_section_passed E ms (Hrules ms Hms)) as (Hst & _).
    destruct (validate_structure_type_passed E ms Hst) as (_ & H2). eauto.
  - intros t Ht Hexp name m u Hname Hm. read_path Ht.
    edestruct (fun H1 H2 => Hs _ _ H1 H2 Ht) as (ms & Hms & Ht'); [no_model|reflexivity|].
    destruct (validate_model_section_passed E ms (Hrules ms Hms)) as (_ & Hden).
    destruct (validate_density_passed E ms t Hden Ht') as (H1 & _).
    destruct (H1 Hexp) as (Hr & Hv & Ht0).
    destruct Hname as [->|[->| ->]];
      (apply (Hq' _ _ _ ms) in Hm; [|no_model|reflexivity|assumption]); eauto.
  - intros Ht name m u Hname Hm. read_path Ht.
    edestruct (fun H1 H2 => Hs _ _ H1 H2 Ht) as (ms & Hms & Ht'); [no_model|reflexivity|].
    destruct (validate_model_section_passed E ms (Hrules ms Hms)) as (_ & Hden).
    destruct (validate_density_passed E ms "uniform" Hden Ht') as (_ & H2).
    destruct (H2 eq_refl) as (Hv & Ht0).
    destruct Hname as [->| ->];
      (apply (Hq' _ _ _ ms) in Hm; [|no_model|reflexivity|assumption]); eauto.
Qed.

Lemma accepted_model_obeys_rules_witness :
  from_config_dict lab full_document false "runs" = Ok full_configuration /\
  get_config_item full_configuration "model.structure.density.type" = Ok (VStr "power_law") /\
  get_config_item full_configuration "model.structure.density.rho_0"
  = Ok (VQuantity 2 "g/cm^3") /\
  positive_or_nan 2.
Proof.
  split; [reflexivity|]. split; [reflexivity|]. split; [reflexivity|].
  exact (proj1 (proj2 (proj2
           (@accepted_model_obeys_rules lab full_document false "runs"
              full_configuration eq_refl eq_refl)))
           "power_law" eq_refl (or_intror eq_refl) "rho_0" 2%Q "g/cm^3"
           (or_introl eq_refl) eq_refl).
Defined.

(** ** Normalizing a convergence section twice *)

Section Idempotence.

Variable E : externals.

Lemma inherited_settled parent m params p :
  NoDup params -> In p params ->
  inherited parent (fold_left (inherited parent) params m) p
  = fold_left (inherited parent) params m.
Proof.
  intros Hnd Hin. unfold inherited at 1.
  pose proof (ConvergenceFacts.lookup_fold_inherited parent params m p Hnd Hin) as Hl.
  destruct (lacks (fold_left (inherited parent) params m) p) eqn:Hlacks; auto.
  destruct (Dict.lookup p parent) as [v|] eqn:Hp; auto.
  apply DictFacts.set_same_value.
  destruct (lacks m p) eqn:Hm; [exact Hl|].
  unfold lacks in Hlacks, Hm. rewrite Hl in Hlacks. congruence.
Qed.

Lemma fold_inherited_fixed parent ps : forall m,
  (forall p, In p ps -> inherited parent m p = m) ->
  fold_left (inherited parent) ps m = m.
Proof.
  induction ps as [|p ps IH]; intros m H; [reflexivity|].
  cbn [fold_left]. rewrite (H p) by now left.
  apply IH. intros q Hq. apply H. now right.
Qed.

Lemma for_each_fixed {A S : Type} (l : list A) (body : S -> A -> result S) (s : S) :
  (forall a, In a l -> body s a = Ok s) -> for_each l body s = Ok s.
Proof.
  induction l as [|a l IH]; intros H; [reflexivity|].
  cbn [for_each]. rewrite (H a) by now left. cbn [bind].
  apply IH. intros b Hb. apply H. now right.
Qed.

Lemma normalize_variable_again d d' v :
  In v convergence_variables ->
  (forall p, In p convergence_parameters -> Dict.lookup p d' = Dict.lookup p d) ->
  Dict.lookup v d' = Some (VDict (normalized_sub d v)) ->
  normalize_variable E (VDict d') v = Ok (VDict d').
Proof.
  intros Hv Hp Hl.
  rewrite ConvergenceFacts.normalize_variable_plain.
  - do 2 f_equal. apply DictFacts.set_same_value. rewrite Hl. do 2 f_equal. symmetry.
    unfold normalized_sub at 1, sub_mapping. rewrite Hl.
    rewrite (ConvergenceFacts.fold_inherited_ext convergence_parameters d' d) by exact Hp.
    apply fold_inherited_fixed. intros p Hin. unfold normalized_sub.
    apply inherited_settled; [apply convergence_parameters_distinct|exact Hin].
  - now apply variable_is_no_parameter.
  - intros x Hx. rewrite Hl in Hx. injection Hx as <-. eauto.
Qed.

End Idempotence.

(** X14. [parse_convergence_section] is idempotent on a plain section in
    which every convergence variable that is bound is bound to a plain
    mapping: it returns, and called again on what it returned it returns the
    same section, binding for binding. *)
Theorem parse_convergence_section_idempotent (E : externals) (d : bindings) :
  (forall variable x, In variable convergence_variables ->
     Dict.lookup variable d = Some x -> exists m, x = VDict m) ->
  exists d',
    parse_convergence_section E (VDict d) = Ok (VDict d') /\
    parse_convergence_section E (VDict d') = Ok (VDict d').
Proof.
  intros Hplain.
  destruct (ConvergenceFacts.outer_loop_plain E convergence_variables d
              convergence_variables_distinct variable_is_no_parameter Hplain)
    as (d' & Hrun & Hrest & Hvars).
  exists d'. split; [exact Hrun|].
  unfold parse_convergence_section. apply for_each_fixed.
  intros v Hv. apply (normalize_variable_again E d d' v Hv); [|now apply Hvars].
  intros p Hp. apply Hrest. intros Hin. exact (variable_is_no_parameter p Hin Hp).
Qed.

Lemma parse_convergence_section_idempotent_witness :
  exists d',
    parse_convergence_section lab (VDict damped_section) = Ok (VDict d') /\
    parse_convergence_section lab (VDict d') = Ok (VDict d').
Proof.
  apply (@parse_convergence_section_idempotent lab damped_section).
  intros variable x Hv Hx. simpl in Hv.
  repeat destruct Hv as [Hv|Hv]; try contradiction; subst variable;
    simpl in Hx; try discriminate.
  injection Hx as <-. eauto.
Defined.

(** ** The directory and the version of a configuration file *)

Section Dirname.

Variable E : externals.

Lemma from_config_dict_built (config_dict : value) (validate : bool)
    (config_dirname : string) (cfg d : bindings) :
  (if validate then validate_dict E config_dict else Ok config_dict) = Ok (VDict d) ->
  from_config_dict E config_dict validate config_dirname = Ok cfg ->
  exists montecarlo_section,
    Dict.mem "montecarlo" d = true /\
    ConfigurationNameSpace E
      (VDict (Dict.set "montecarlo" montecarlo_section
                (Dict.set "config_dirname" (VStr config_dirname) d)))
    = Ok cfg.
Proof.
  intros Hv H. unfold from_config_dict in H. rewrite Hv in H.
  cbn [bind store_subscript] in H. step_bind H. step_bind H.
  cbv zeta in H. cbn [mutated_in_place] in H.
  do 5 step_bind H.
  exists x0. split; [|exact H].
  cbn [subscript] in Hx.
  rewrite DictFacts.lookup_set_other in Hx by discriminate.
  unfold Dict.mem. destruct (Dict.lookup "montecarlo" d); [reflexivity|discriminate].
Qed.

Lemma config_dirname_bound (config_dict : value) (validate : bool)
    (config_dirname : string) (cfg d : bindings) :
  (if validate then validate_dict E config_dict else Ok config_dict) = Ok (VDict d) ->
  from_config_dict E config_dict validate config_dirname = Ok cfg ->
  Dict.lookup "config_dirname" cfg = Some (VStr config_dirname) /\
  (forall key, key <> "model" ->
     Dict.mem key cfg = Dict.mem key d || String.eqb key "config_dirname").
Proof.
  intros Hv H.
  destruct (from_config_dict_built _ _ _ _ _ Hv H) as (ms & Hm & Hb).
  split.
  - destruct (construction_lookup E _ cfg "config_dirname" (VStr config_dirname) Hb)
      as (x' & Hw & Hl).
    + rewrite DictFacts.lookup_set_other by discriminate.
      apply DictFacts.lookup_set_same.
    + injection Hw as <-. exact Hl.
  - intros key Hkey.
    assert (Hw : wrap E (VDict (Dict.set "montecarlo" ms
                                  (Dict.set "config_dirname" (VStr config_dirname) d)))
                 = Ok (VNS cfg)).
    { rewrite wrap_dict. now rewrite Hb. }
    rewrite (wrap_dict_mem E _ _ key Hw Hkey).
    rewrite !TidyFacts.mem_set.
    destruct (String.eqb key "montecarlo") eqn:Hk; cbn [orb].
    + apply String.eqb_eq in Hk. subst key. rewrite Hm. reflexivity.
    + apply orb_comm.
Qed.

End Dirname.

(** X15. The configuration that [Configuration.from_config_dict] makes of a
    plain document binds "config_dirname" to the directory passed in,
    whatever the document bound that key to, and apart from "model" (which
    construction adds for a CSVY model) it binds the keys of the document
    and "config_dirname", no other. *)
Theorem from_config_dict_binds_config_dirname (E : externals) (config_dict : value)
    (validate : bool) (config_dirname : string) (cfg d : bindings) :
  (if validate then validate_dict E config_dict else Ok config_dict) = Ok (VDict d) ->
  from_config_dict E config_dict validate config_dirname = Ok cfg ->
  Dict.lookup "config_dirname" cfg = Some (VStr config_dirname) /\
  (forall key, key <> "model" ->
     Dict.mem key cfg = Dict.mem key d || String.eqb key "config_dirname").
Proof. apply config_dirname_bound. Qed.

Lemma from_config_dict_binds_config_dirname_witness :
  exists cfg,
    from_config_dict lab relocated_document false "runs" = Ok cfg /\
    Dict.lookup "config_dirname" cfg = Some (VStr "runs").
Proof.
  eexists. split; [reflexivity|].
  exact (proj1 (@from_config_dict_binds_config_dirname lab relocated_document false "runs"
                  _ _ eq_refl eq_refl)).
Defined.

Lemma built_inv (r : result bindings) cfg : built r = Built cfg -> r = Ok cfg.
Proof. destruct r; simpl; congruence. Qed.

(** X16. [Configuration.from_yaml] checks the version before anything else
    is looked at: a document that does not bind "tardis_config_version" to
    "v1.0" (or does not bind it at all) raises [ConfigurationError] with or
    without validation, whatever else it holds; a configuration is returned
    only for a file that was read and has that version, it is the one
    [from_config_dict] makes of the document, and it binds "config_dirname"
    to the directory of the file; [OSError] from the reader is raised again
    by both [from_yaml]. *)
Theorem from_yaml_version_and_directory (E : externals)
    (yaml_load_file : string -> loaded) (parent : string -> string)
    (fname : string) (validate : bool) :
  (forall d,
     yaml_load_file fname = Loaded (VDict d) ->
     Dict.lookup "tardis_config_version" d <> Some (VStr "v1.0") ->
     from_yaml E yaml_load_file parent fname validate = RaisedConfigurationError)
  /\
  (forall cfg,
     from_yaml E yaml_load_file parent fname validate = Built cfg ->
     exists yaml_dict,
       yaml_load_file fname = Loaded yaml_dict /\
       subscript yaml_dict "tardis_config_version" = Ok (VStr "v1.0") /\
       from_config_dict E yaml_dict validate (parent fname) = Ok cfg /\
       forall d,
         (if validate then validate_dict E yaml_dict else Ok yaml_dict) = Ok (VDict d) ->
         Dict.lookup "config_dirname" cfg = Some (VStr (parent fname)))
  /\
  (yaml_load_file fname = LoadOSError ->
   from_yaml E yaml_load_file parent fname validate = RaisedOSError /\
   namespace_from_yaml E yaml_load_file fname = RaisedOSError).
Proof.
  unfold from_yaml, namespace_from_yaml. split; [|split].
  - intros d Hl Hv. rewrite Hl. cbn [get_or_none].
    destruct (Dict.lookup "tardis_config_version" d) as [v|] eqn:Hk; [|reflexivity].
    destruct (eq_str v "v1.0") eqn:He; [|reflexivity].
    apply eq_str_true in He. congruence.
  - intros cfg H.
    destruct (yaml_load_file fname) as [yaml_dict| |e]; try discriminate.
    exists yaml_dict. split; [reflexivity|].
    destruct (get_or_none yaml_dict "tardis_config_version") as [v|] eqn:Hg; [|discriminate].
    destruct (eq_str v "v1.0") eqn:He; cbn [negb] in H; [|discriminate].
    apply eq_str_true in He. subst v. apply built_inv in H.
    split; [|split; [exact H|]].
    + destruct yaml_dict; try discriminate; cbn [get_or_none subscript] in *;
        destruct (Dict.lookup "tardis_config_version" d); cbn [of_option]; congruence.
    + intros d Hv.
      exact (proj1 (config_dirname_bound E _ _ _ _ _ Hv H)).
  - intros ->. split; reflexivity.
Qed.

(** ** Reading a constructed namespace *)

Section Constructed.

Variable E : externals.

Lemma csvy_free_lookup d key x :
  csvy_free (VDict d) = true -> Dict.lookup key d = Some x -> csvy_free x = true.
Proof.
  cbn [csvy_free]. intros H. apply andb_prop in H as [_ H]. revert H.
  induction d as [|[k y] d IH]; simpl; [discriminate|].
  intros H. apply andb_prop in H as [Hy Hd].
  destruct (String.eqb key k); [now intros [= <-]|now apply IH].
Qed.

Lemma construction_csvy_free d cfg :
  csvy_free (VDict d) = true ->
  ConfigurationNameSpace E (VDict d) = Ok cfg ->
  fill E d [] = Ok cfg.
Proof.
  cbn [csvy_free ConfigurationNameSpace]. intros H Hb. apply andb_prop in H as [Hno _].
  apply negb_true_iff in Hno.
  destruct (fill E d []) as [self|] eqn:Hfill; cbn [bind] in Hb; [|discriminate].
  unfold init_tail in Hb.
  rewrite (fill_mem E d self "csvy_model" Hfill), Hno in Hb. cbn [andb] in Hb.
  congruence.
Qed.

Lemma plain_no_namespace x d : plain x = true -> x <> VNS d.
Proof. intros H ->. discriminate. Qed.

Lemma read_constructed path : forall d cfg v',
  plain (VDict d) = true ->
  csvy_free (VDict d) = true ->
  ConfigurationNameSpace E (VDict d) = Ok cfg ->
  path <> [] ->
  ends_in_item path = false ->
  get_config_item_path cfg path = Ok v' <->
  exists v, subscripts (VDict d) path = Ok v /\ wrap E v = Ok v'.
Proof.
  induction path as [|head rest IH]; intros d cfg v' Hp Hf Hb Hne He; [congruence|].
  pose proof (construction_csvy_free d cfg Hf Hb) as Hfill.
  pose proof (fill_lookup E d [] cfg Hfill head) as Hl. cbn [Dict.lookup] in Hl.
  destruct rest as [|second more].
  - rewrite get_single. unfold getitem. cbn [subscripts subscript].
    destruct (Dict.lookup head d) as [x|] eqn:Hx; cbn [of_option bind].
    + destruct Hl as (v & Hw & ->). cbn [of_option]. split.
      * intros [= <-]. eauto.
      * intros (v0 & [= <-] & Hw0). congruence.
    + rewrite Hl. cbn [of_option]. split; [discriminate|].
      intros (v0 & H0 & _). discriminate.
  - cbn [ends_in_item] in He. apply orb_false_iff in He as [Hitem He].
    rewrite (get_delegate _ _ _ _ Hitem). unfold getitem.
    change (subscripts (VDict d) (head :: second :: more))
      with (y <- of_option (Dict.lookup head d) KeyError ;; subscripts y (second :: more)).
    destruct (Dict.lookup head d) as [x|] eqn:Hx; cbn [of_option bind].
    + destruct Hl as (v & Hw & ->). cbn [of_option bind].
      pose proof (plain_lookup d head x Hp Hx) as Hpx.
      pose proof (csvy_free_lookup d head x Hf Hx) as Hfx.
      destruct x; try discriminate;
        try (injection Hw as <-; split; [discriminate|];
             intros (v0 & H0 & _); discriminate).
      rewrite wrap_dict in Hw.
      destruct (ConfigurationNameSpace E (VDict d0)) as [child|] eqn:Hc;
        cbn [bind] in Hw; [|discriminate].
      injection Hw as <-.
      apply (IH d0 child v' Hpx Hfx Hc); [discriminate|exact He].
    + rewrite Hl. cbn [of_option bind]. split; [discriminate|].
      intros (v0 & H0 & _). discriminate.
Qed.

End Constructed.

(** X17. A plain document in which no mapping names a CSVY model is always
    made a namespace, and reading the namespace by a path of keys (one that
    does not end in an [itemN] segment) gives what the document holds at
    that path: a value is read if and only if the chained subscripts of the
    document reach a value that is stored as it; a value that is not a
    mapping is read exactly as the document has it. *)
Theorem constructed_namespace_reads_document (E : externals) (d : bindings) :
  plain (VDict d) = true ->
  csvy_free (VDict d) = true ->
  exists cfg,
    ConfigurationNameSpace E (VDict d) = Ok cfg /\
    (forall path v',
       ends_in_item (Str.split "." path) = false ->
       get_config_item cfg path = Ok v' <->
       exists v, subscripts (VDict d) (Str.split "." path) = Ok v /\ wrap E v = Ok v') /\
    (forall path v,
       ends_in_item (Str.split "." path) = false ->
       is_mapping v = false ->
       get_config_item cfg path = Ok v <->
       subscripts (VDict d) (Str.split "." path) = Ok v).
Proof.
  intros Hp Hf.
  destruct (wrap_csvy_free E (VDict d) Hf) as [w Hw].
  rewrite wrap_dict in Hw.
  destruct (ConfigurationNameSpace E (VDict d)) as [cfg|] eqn:Hb; [|discriminate].
  exists cfg. split; [reflexivity|].
  assert (forall path v',
            ends_in_item (Str.split "." path) = false ->
            get_config_item cfg path = Ok v' <->
            exists v, subscripts (VDict d) (Str.split "." path) = Ok v /\ wrap E v = Ok v')
    as Hread.
  { intros path v' He. unfold get_config_item.
    apply read_constructed; auto. apply split_nonempty. }
  split; [exact Hread|].
  intros path v He Hv. rewrite (Hread path v He). split.
  - intros (v0 & H0 & Hw0).
    destruct v0; try (injection Hw0 as <-; exact H0).
    rewrite wrap_dict in Hw0.
    destruct (ConfigurationNameSpace E (VDict d0)); cbn [bind] in Hw0; [|discriminate].
    injection Hw0 as <-. discriminate.
  - intros H. exists v. split; [exact H|]. destruct v; try reflexivity. discriminate.
Qed.

Lemma constructed_namespace_reads_document_witness :
  exists cfg,
    ConfigurationNameSpace lab full_document = Ok cfg /\
    get_config_item cfg "model.structure.velocity.start" = Ok (VQuantity 11000 "km/s").
Proof.
  destruct (@constructed_namespace_reads_document lab
              (match full_document with VDict d => d | _ => [] end) eq_refl eq_refl)
    as (cfg & Hb & _ & Hleaf).
  exists cfg. split; [exact Hb|].
  apply (proj2 (Hleaf "model.structure.velocity.start" (VQuantity 11000 "km/s")
                  eq_refl eq_refl)).
  reflexivity.
Defined.

(** ** The exceptions of a read *)

Lemma seq_getitem_error {A} (l : list A) i e : Seq.getitem l i = Raise e -> e = IndexError.
Proof.
  unfold Seq.getitem. destruct (Seq.position l i) as [p|]; cbn [of_option bind].
  - destruct (nth_error l p); cbn [of_option]; congruence.
  - congruence.
Qed.

Lemma index_error x i e :
  index x i = Raise e -> e = IndexError \/ e = KeyError \/ e = TypeError.
Proof.
  destruct x; cbn [index]; try (intros [= <-]; auto).
  - destruct (Seq.getitem (list_ascii_of_string s) i) eqn:Hg; cbn [bind]; [discriminate|].
    intros [= <-]. left. eapply seq_getitem_error; eauto.
  - intros H. left. eapply seq_getitem_error; eauto.
Qed.

Lemma get_path_error path : forall self e,
  get_config_item_path self path = Raise e ->
  e = KeyError \/ e = AttributeError \/ e = IndexError \/ e = TypeError \/
  e = ValueError InvalidIntLiteral.
Proof.
  induction path as [|head rest IH]; intros self e H.
  - injection H as <-. auto.
  - destruct rest as [|second more].
    + rewrite get_single in H. unfold getitem in H.
      destruct (Dict.lookup head self); [discriminate|]. injection H as <-. auto.
    + destruct (is_item_path (head :: second :: more)) eqn:Hitem.
      * destruct (item_path_inv _ _ _ Hitem) as [-> Hs].
        rewrite (get_item _ _ _ Hs) in H. unfold getitem in H.
        destruct (Dict.lookup head self) as [x|]; cbn [of_option bind] in H;
          [|injection H as <-; auto].
        unfold item_index, PyInt.int in H.
        match type of H with context [of_option ?o _] => destruct o end;
          cbn [of_option bind] in H; [|injection H as <-; auto 6].
        apply index_error in H. intuition.
      * rewrite (get_delegate _ _ _ _ Hitem) in H. unfold getitem in H.
        destruct (Dict.lookup head self) as [x|]; cbn [of_option bind] in H;
          [|injection H as <-; auto].
        destruct x; try (injection H as <-; auto).
        now apply IH in H.
Qed.

(** X18. [get_config_item] raises nothing but [KeyError], [AttributeError],
    [IndexError], [TypeError] and the [ValueError] of an [itemN] segment
    whose N is no integer: a read never converts a unit and never touches a
    file. *)
Theorem get_config_item_exceptions (self : bindings) (path : string) (e : exn) :
  get_config_item self path = Raise e ->
  e = KeyError \/ e = AttributeError \/ e = IndexError \/ e = TypeError \/
  e = ValueError InvalidIntLiteral.
Proof. unfold get_config_item. apply get_path_error. Qed.

Lemma get_config_item_exceptions_witness :
  get_config_item velocity_tree "shells.itemx" = Raise (ValueError InvalidIntLiteral) /\
  (ValueError InvalidIntLiteral = KeyError \/
   ValueError InvalidIntLiteral = AttributeError \/
   ValueError InvalidIntLiteral = IndexError \/
   ValueError InvalidIntLiteral = TypeError \/
   ValueError InvalidIntLiteral = ValueError InvalidIntLiteral).
Proof.
  split; [reflexivity|].
  exact (@get_config_item_exceptions velocity_tree "shells.itemx"
           (ValueError InvalidIntLiteral) eq_refl).
Defined.

(** ** Assignment by a path of keys *)

Section NestedAssignment.

Variable E : externals.

Lemma key_path_not_item p1 p2 last :
  Str.startswith "item" last = false ->
  is_item_path (p1 :: (p2 ++ [last]))%list = false.
Proof.
  intros H. destruct p2 as [|a [|b p2]]; cbn [app is_item_path]; auto.
Qed.

Lemma set_key_path keys : forall self last v,
  Str.startswith "item" last = false \/ keys = [] ->
  match descend self keys with
  | Some ns =>
      raised (set_config_item_path E self (keys ++ [last])%list v)
      = raised (setitem E ns last v) /\
      descend (after (set_config_item_path E self (keys ++ [last])%list v)) keys
      = Some (after (setitem E ns last v))
  | None =>
      exists e,
        (e = KeyError \/ e = AttributeError) /\
        set_config_item_path E self (keys ++ [last])%list v
        = {| after := self; raised := Some e |}
  end.
Proof.
  induction keys as [|k keys IH]; intros self last v Hlast.
  - cbn [descend app]. split; reflexivity.
  - destruct Hlast as [Hlast|Hnil]; [|discriminate].
    change ((k :: keys) ++ [last])%list with (k :: (keys ++ [last]))%list.
    pose proof (key_path_not_item k keys last Hlast) as Hitem.
    destruct (keys ++ [last])%list as [|second more] eqn:Happ.
    { destruct keys; discriminate. }
    rewrite (set_delegate _ _ _ _ _ _ Hitem). unfold getitem. cbn [descend].
    destruct (Dict.lookup k self) as [x|] eqn:Hk; cbn [of_option].
    + destruct x; try (exists AttributeError; split; [auto|reflexivity]).
      rewrite <- Happ. specialize (IH d last v (or_introl Hlast)).
      destruct (descend d keys) as [ns|].
      * destruct IH as [Hr Hd]. cbn [after raised]. split; [exact Hr|].
        cbn [descend]. now rewrite DictFacts.lookup_set_same.
      * destruct IH as (e & He & Hset). exists e. split; [exact He|].
        rewrite Hset. cbn [after raised].
        now rewrite (DictFacts.set_same_value _ _ _ Hk).
    + exists KeyError. split; [auto|reflexivity].
Qed.

End NestedAssignment.

(** X19. Assignment by a path of keys [a.b.c] is [__setitem__] on the
    namespace [self.a.b]: when each key but the last leads to a namespace,
    [set_config_item] raises what that [__setitem__] raises and leaves that
    namespace as [__setitem__] leaves it; when one of them is missing or
    leads to something else, it raises [KeyError] or [AttributeError] and
    changes nothing: it never creates the namespaces on the way. *)
Theorem set_config_item_is_nested_setitem (E : externals) (self : bindings)
    (path last : string) (keys : list string) (v : value) :
  Str.split "." path = (keys ++ [last])%list ->
  Str.startswith "item" last = false \/ keys = [] ->
  match descend self keys with
  | Some ns =>
      raised (set_config_item E self path v) = raised (setitem E ns last v) /\
      descend (after (set_config_item E self path v)) keys
      = Some (after (setitem E ns last v))
  | None =>
      exists e,
        (e = KeyError \/ e = AttributeError) /\
        set_config_item E self path v = {| after := self; raised := Some e |}
  end.
Proof.
  intros Hp Hlast. unfold set_config_item. rewrite Hp. now apply set_key_path.
Qed.

Lemma set_config_item_is_nested_setitem_witness :
  set_config_item lab velocity_tree "model.density.type" (VStr "uniform")
  = {| after := velocity_tree; raised := Some KeyError |} /\
  descend
    (after (set_config_item lab velocity_tree "model.structure.type" (VStr "specific")))
    ["model"; "structure"]
  = Some [("velocity", VNS [("start", VQuantity 1 "km")]); ("type", VStr "specific")].
Proof.
  split; [reflexivity|].
  exact (proj2 (@set_config_item_is_nested_setitem lab velocity_tree
                  "model.structure.type" "type" ["model"; "structure"] (VStr "specific")
                  eq_refl (or_introl eq_refl))).
Defined.

(** ** Assignment to an element of a list *)

Lemma nth_error_update_other {A} (l : list A) p q x :
  q <> p -> nth_error (Seq.update l p x) q = nth_error l q.
Proof.
  revert p q. induction l as [|h t IH]; intros [|p] [|q] H; simpl; auto; congruence.
Qed.

(** X20. An assignment [key.itemN = v] to a list changes the element at
    that position and nothing else of the list: whether or not it raises,
    [key] is afterwards bound to a list of the same length that agrees with
    the old one at every other position. *)
Theorem set_config_item_changes_one_element (E : externals) (self : bindings)
    (path head second : string) (l : list value) (i : Z) (p : nat) (v : value) :
  Str.split "." path = [head; second] ->
  Str.startswith "item" second = true ->
  Dict.lookup head self = Some (VList l) ->
  item_index second = Ok i ->
  Seq.position l i = Some p ->
  exists l',
    Dict.lookup head (after (set_config_item E self path v)) = Some (VList l') /\
    length l' = length l /\
    forall q, q <> p -> nth_error l' q = nth_error l q.
Proof.
  intros Hp Hs Hl Hi Hpos. unfold set_config_item. rewrite Hp, (set_item _ _ _ _ _ Hs).
  unfold getitem. rewrite Hl, Hi. cbn [of_option bind index].
  destruct (Seq.getitem l i) as [current|]; cbn [bind];
    [|exists l; cbn [after raising]; auto].
  match goal with |- context [bind ?c _] => destruct c as [new|] end; cbn [bind];
    [|exists l; cbn [after raising]; auto].
  cbn [store_index]. unfold Seq.setitem. rewrite Hpos. cbn [of_option bind after].
  exists (Seq.update l p new). rewrite DictFacts.lookup_set_same.
  split; [reflexivity|]. split; [apply SeqFacts.update_length|].
  intros q Hq. now apply nth_error_update_other.
Qed.

Lemma set_config_item_changes_one_element_witness :
  exists l',
    Dict.lookup "shells"
      (after (set_config_item lab velocity_tree "shells.item1" (VQuantity 5 "m")))
    = Some (VList l') /\
    length l' = 2%nat /\
    forall q, q <> 1%nat -> nth_error l' q = nth_error [VQuantity 3 "m"; VQuantity 4 "m"] q.
Proof.
  exact (@set_config_item_changes_one_element lab velocity_tree "shells.item1"
           "shells" "item1" [VQuantity 3 "m"; VQuantity 4 "m"] 1%Z 1%nat (VQuantity 5 "m")
           eq_refl eq_refl eq_refl eq_refl eq_refl).
Defined.
